(** * ModelDatabaseDiffForm: the diff form of pgModeler

    A shallow embedding of [libs/libgui/src/tools/modeldatabasediffform.cpp].
    The form chains four workers (source import, import, diff, export), each a
    [QThread] with its helper object, and reacts to their signals in slots that
    all run on the GUI thread.  The slots are embedded as functions on the state
    of the form; the signals of the helpers and the actions of the user are the
    events of a transition system.

    Part I holds the model, Part II the properties. *)

From Stdlib Require Import ZArith List Bool String Ascii Lia Arith.
Import ListNotations.

Local Open Scope string_scope.
Local Open Scope bool_scope.

(** * Part I: the model *)

(** ** Strings of Qt *)

Module QStr.

Definition isEmpty (s : string) : bool :=
  match s with EmptyString => true | String _ _ => false end.

(** [strip_prefix p s] is what is left of [s] after its prefix [p]. *)
Fixpoint strip_prefix (p s : string) : option string :=
  match p with
  | EmptyString => Some s
  | String a p' =>
      match s with
      | EmptyString => None
      | String b s' => if Ascii.eqb a b then strip_prefix p' s' else None
      end
  end.

(** [QChar::isSpace].  The characters of a [string] are the code units below
    256; among them the white space is the blank, the controls 9 to 13, the
    next line control (U+0085) and the no-break space (U+00A0).  The other
    separators of Unicode lie above 255. *)
Definition isSpace (c : ascii) : bool :=
  let n := nat_of_ascii c in
  Nat.eqb n 32 || (Nat.leb 9 n && Nat.leb n 13)
  || Nat.eqb n 133 || Nat.eqb n 160.

(** [QString::simplified]: white space is removed at both ends and every inner
    run of white space becomes one blank.  [started] says that a word was
    already written, [pending] that a blank is due before the next word. *)
Fixpoint simplified_from (started pending : bool) (s : string) : string :=
  match s with
  | EmptyString => ""
  | String c s' =>
      if isSpace c then simplified_from started started s'
      else
        let rest := String c (simplified_from true false s') in
        if pending then String " " rest else rest
  end.

Definition simplified (s : string) : string := simplified_from false false s.

(** [QString::split(sep)] with the default [KeepEmptyParts]: the empty string
    splits into one empty part. *)
Fixpoint split (sep : ascii) (s : string) : list string :=
  match s with
  | EmptyString => [""]
  | String c s' =>
      if Ascii.eqb c sep then "" :: split sep s'
      else match split sep s' with
           | [] => [String c ""]
           | w :: ws => String c w :: ws
           end
  end.

(** [QString::mid(0, n)]. *)
Fixpoint left (n : nat) (s : string) : string :=
  match n, s with
  | S n', String c s' => String c (left n' s')
  | _, _ => ""
  end.

End QStr.

(** ** Objects of Qt *)

Module Qt.

(** A [QThread] that runs the default event loop.  [quit] only asks the loop to
    leave: the thread stays running until it has left [run], which the GUI
    thread observes later. *)
Inductive QThread :=
| ThreadNew | ThreadRunning | ThreadQuitting | ThreadFinished.

Definition isRunning (t : QThread) : bool :=
  match t with
  | ThreadRunning | ThreadQuitting => true
  | ThreadNew | ThreadFinished => false
  end.

Definition start (t : QThread) : QThread :=
  if isRunning t then t else ThreadRunning.

Definition quit (t : QThread) : QThread :=
  match t with ThreadRunning => ThreadQuitting | _ => t end.

(** [wait] returns when the thread has left [run]; the form calls it right
    after [quit]. *)
Definition wait (t : QThread) : QThread :=
  match t with ThreadQuitting => ThreadFinished | _ => t end.

(** The thread has left [run] (seen from outside). *)
Definition exited (t : QThread) : QThread :=
  match t with ThreadQuitting => ThreadFinished | _ => t end.

Record QProgressBar := mkBar { minimum : Z; maximum : Z; value : Z }.

(** [QProgressBar::setValue]: a value outside the range is ignored, unless the
    range is the empty one of a busy indicator. *)
Definition setValue (v : Z) (pb : QProgressBar) : QProgressBar :=
  if (v =? value pb)%Z
     || (((maximum pb <? v)%Z || (v <? minimum pb)%Z)
         && (negb (maximum pb =? 0)%Z || negb (minimum pb =? 0)%Z))
  then pb
  else mkBar (minimum pb) (maximum pb) v.

Record QCheckBox := mkCheck { checked : bool; enabled : bool }.

(** [setChecked]: the new state, and whether [toggled] is emitted. *)
Definition setChecked (b : bool) (w : QCheckBox) : QCheckBox * bool :=
  (mkCheck b (enabled w), negb (Bool.eqb b (checked w))).

Definition setEnabled (b : bool) (w : QCheckBox) : QCheckBox :=
  mkCheck (checked w) b.

(** A click of the user: a disabled box does not react. *)
Definition click (w : QCheckBox) : QCheckBox * bool :=
  if enabled w then (mkCheck (negb (checked w)) true, true) else (w, false).

Record QTabWidget := mkTabs { isTabEnabled : nat -> bool; currentIndex : nat }.

Definition setTabEnabled (i : nat) (b : bool) (t : QTabWidget) : QTabWidget :=
  mkTabs (fun j => if Nat.eqb j i then b else isTabEnabled t j) (currentIndex t).

Definition setCurrentIndex (i : nat) (t : QTabWidget) : QTabWidget :=
  mkTabs (isTabEnabled t) i.

Inductive DialogCode := Rejected | Accepted.

Definition is_accepted (c : DialogCode) : bool :=
  match c with Accepted => true | Rejected => false end.

End Qt.

(** ** Object types *)

(** Modelled from the spec: [ObjectType] and [BaseObject::getSchemaName] are
    declared in libcore, which is not among the sources.  The spec names the
    kinds of objects (schema, table, column, constraint, index, trigger, rule,
    view, function, sequence, role, permission, ...); the schema name of a kind
    is its lower-case keyword, the first field of a filter
    [kind:pattern:mode]. *)
Inductive ObjectType :=
| Column | Constraint | Routine | Trigger | Index | Rule | Table | View
| Schema | Sequence | Role | Policy | Relationship | Permission | BaseObject.

Definition is_BaseObject (t : ObjectType) : bool :=
  match t with BaseObject => true | _ => false end.

Definition getSchemaName (t : ObjectType) : string :=
  match t with
  | Column => "column" | Constraint => "constraint" | Routine => "function"
  | Trigger => "trigger" | Index => "index" | Rule => "rule" | Table => "table"
  | View => "view" | Schema => "schema" | Sequence => "sequence"
  | Role => "role" | Policy => "policy" | Relationship => "relationship"
  | Permission => "permission" | BaseObject => ""
  end.

(** Objects of a model are referred to by number. *)
Definition ObjRef := nat.

(** [Attributes::Signature] and [Attributes::Name], the attribute a model is
    searched by. *)
Inductive SearchAttr := AttrSignature | AttrName.

(** A null [QDateTime()] is [None]. *)
Definition QDateTime := option Z.

(** What the form calls on a [DatabaseModel] (libcore, not among the sources). *)
Record DatabaseModel := mkModel {
  getFiltersFromChangelog : QDateTime -> QDateTime -> list string;
  findObjects : list string -> SearchAttr -> list ObjRef
}.

(** ** Filters generated from the change log *)

Module Changelog.
Import QStr.

(** [QRegExp("(%1)(\\:)(.)+").arg(name)] matched at the start of [s]: the name,
    a colon and at least one more character.  The names are plain words, so
    the group [(%1)] matches them literally. *)
Definition rx_matches_here (name s : string) : bool :=
  match strip_prefix (name ++ ":") s with
  | Some (String _ _) => true
  | _ => false
  end.

(** [QString::replace(QRegExp("(%1)(\\:)(.)+"), "")]: the leftmost match is
    replaced; [(.)+] is greedy and the dot of QRegExp matches every character,
    so the match runs to the end of the string and what is left is the text
    before it. *)
Fixpoint replace_rx (name s : string) : string :=
  if rx_matches_here name s then ""
  else match s with
       | EmptyString => ""
       | String c s' => String c (replace_rx name s')
       end.

(** [QStringList::replaceInStrings] and [QStringList::removeAll("")]. *)
Definition replaceInStrings (name : string) (l : list string) : list string :=
  map (replace_rx name) l.

Definition removeAll_empty (l : list string) : list string :=
  filter (fun s => negb (isEmpty s)) l.

(** The loop over the types of the children of a table. *)
Definition strip_children (tab_obj_types : list ObjectType)
    (filters : list string) : list string :=
  fold_left (fun fs type => replaceInStrings (getSchemaName type) fs)
            tab_obj_types filters.

Record DateWidgets := mkDates {
  start_date_chk : bool; start_date_dt : Z;
  end_date_chk : bool; end_date_dt : Z
}.

(** [ModelDatabaseDiffForm::generateFiltersFromChangelog].  [tab_obj_types] is
    [BaseObject::getChildObjectTypes(ObjectType::Table)] (libcore, not among the
    sources), the kinds of objects a table owns.  The result is [None] when
    there is no source model (the early return), otherwise the list handed to
    [pd_filter_wgt->addFilters]. *)
Definition generateFiltersFromChangelog (tab_obj_types : list ObjectType)
    (source_model : option DatabaseModel) (w : DateWidgets)
  : option (list string) :=
  match source_model with
  | None => None
  | Some m =>
      let filters :=
        getFiltersFromChangelog m
          (if start_date_chk w then Some (start_date_dt w) else None)
          (if end_date_chk w then Some (end_date_dt w) else None) in
      let filters := strip_children tab_obj_types filters in
      Some (removeAll_empty filters)
  end.

(** A filter that targets the kind [t]: [kind:pattern...] with a pattern. *)
Definition targets (t : ObjectType) (f : string) : Prop :=
  exists c rest, f = getSchemaName t ++ ":" ++ String c rest.

(** [occurs name s]: the expression for [name] matches somewhere in [s]. *)
Fixpoint occurs (name s : string) : bool :=
  rx_matches_here name s ||
  match s with
  | EmptyString => false
  | String _ s' => occurs name s'
  end.

End Changelog.

(** ** The statement loop of the applier *)

Module Applier.

(** What the server answers to one statement. *)
Inductive Answer := Executed | Refused (err_code err_msg : string).

Record Statement := mkStatement { cmd : string; answer : Answer }.

(** An error that was ignored, as [s_errorIgnored] reports it. *)
Record IgnoredError := mkIgnored {
  err_code : string; err_msg : string; err_cmd : string
}.

Inductive ApplyResult := ScriptApplied | ScriptAborted (code cmd : string).

Record Applied := mkApplied {
  executed : list Statement;
  reported : list IgnoredError;
  ended : ApplyResult
}.

(** Modelled from the spec: the loop of the Migration Applier
    ([ModelExportHelper::exportToDBMS], not among the sources).  The
    statements are executed in order; the error code of a failing statement
    is checked against what is to be ignored ([ignorable]); a match is
    reported and the next statement follows; no match aborts the remaining
    script. *)
Fixpoint exportToDBMS (ignorable : string -> bool) (script : list Statement)
  : Applied :=
  match script with
  | [] => mkApplied [] [] ScriptApplied
  | s :: rest =>
      match answer s with
      | Executed =>
          let r := exportToDBMS ignorable rest in
          mkApplied (s :: executed r) (reported r) (ended r)
      | Refused code msg =>
          if ignorable code then
            let r := exportToDBMS ignorable rest in
            mkApplied (s :: executed r) (mkIgnored code msg (cmd s) :: reported r)
              (ended r)
          else mkApplied [s] [] (ScriptAborted code (cmd s))
      end
  end.

(** No statement of the script fails with a code that is not ignored. *)
Definition no_fatal (ignorable : string -> bool) (script : list Statement)
  : bool :=
  forallb (fun s => match answer s with
                    | Executed => true
                    | Refused code _ => ignorable code
                    end) script.

(** The errors among [l] that are ignored, as they are reported. *)
Fixpoint ignored_of (ignorable : string -> bool) (l : list Statement)
  : list IgnoredError :=
  match l with
  | [] => []
  | s :: l =>
      match answer s with
      | Refused code msg =>
          if ignorable code
          then mkIgnored code msg (cmd s) :: ignored_of ignorable l
          else ignored_of ignorable l
      | Executed => ignored_of ignorable l
      end
  end.

End Applier.

(** ** The widgets and helpers of the form *)

Module DiffForm.
Import QStr Qt.

(** *** The options of the diff *)

(** [ModelsDiffHelper::OptKeepClusterObjs] and the other options, as the diff
    helper receives them through [setDiffOption]. *)
Record DiffOptions := mkDiffOptions {
  OptKeepClusterObjs : bool;
  OptCascadeMode : bool;
  OptForceRecreation : bool;
  OptRecreateUnmodifiable : bool;
  OptKeepObjectPerms : bool;
  OptReuseSequences : bool;
  OptPreserveDbName : bool;
  OptDontDropMissingObjs : bool;
  OptDropMissingColsConstr : bool
}.

(** The check boxes of the options. *)
Record DiffOptionWidgets := mkOptionWidgets {
  keep_cluster_objs_chk : QCheckBox;
  cascade_mode_chk : QCheckBox;
  force_recreation_chk : QCheckBox;
  recreate_unmod_chk : QCheckBox;
  keep_obj_perms_chk : QCheckBox;
  reuse_sequences_chk : QCheckBox;
  preserve_db_name_chk : QCheckBox;
  dont_drop_missing_objs_chk : QCheckBox;
  drop_missing_cols_constr_chk : QCheckBox
}.

Definition set_force_recreation_chk (v : QCheckBox) (o : DiffOptionWidgets) :=
  mkOptionWidgets (keep_cluster_objs_chk o) (cascade_mode_chk o) v
    (recreate_unmod_chk o) (keep_obj_perms_chk o) (reuse_sequences_chk o)
    (preserve_db_name_chk o) (dont_drop_missing_objs_chk o)
    (drop_missing_cols_constr_chk o).

Definition set_recreate_unmod_chk (v : QCheckBox) (o : DiffOptionWidgets) :=
  mkOptionWidgets (keep_cluster_objs_chk o) (cascade_mode_chk o)
    (force_recreation_chk o) v (keep_obj_perms_chk o) (reuse_sequences_chk o)
    (preserve_db_name_chk o) (dont_drop_missing_objs_chk o)
    (drop_missing_cols_constr_chk o).

Definition set_dont_drop_missing_objs_chk (v : QCheckBox)
    (o : DiffOptionWidgets) :=
  mkOptionWidgets (keep_cluster_objs_chk o) (cascade_mode_chk o)
    (force_recreation_chk o) (recreate_unmod_chk o) (keep_obj_perms_chk o)
    (reuse_sequences_chk o) (preserve_db_name_chk o) v
    (drop_missing_cols_constr_chk o).

Definition set_drop_missing_cols_constr_chk (v : QCheckBox)
    (o : DiffOptionWidgets) :=
  mkOptionWidgets (keep_cluster_objs_chk o) (cascade_mode_chk o)
    (force_recreation_chk o) (recreate_unmod_chk o) (keep_obj_perms_chk o)
    (reuse_sequences_chk o) (preserve_db_name_chk o)
    (dont_drop_missing_objs_chk o) v.

(** The connections of the constructor:
    [connect(force_recreation_chk, toggled(bool), recreate_unmod_chk, setEnabled(bool))]
    and
    [connect(dont_drop_missing_objs_chk, toggled(bool), drop_missing_cols_constr_chk, setEnabled(bool))].
    A change of the first box enables or disables the second one; its checked
    state is not touched. *)
Definition toggled_force_recreation (b : bool) (o : DiffOptionWidgets) :=
  set_recreate_unmod_chk (setEnabled b (recreate_unmod_chk o)) o.

Definition toggled_dont_drop_missing_objs (b : bool) (o : DiffOptionWidgets) :=
  set_drop_missing_cols_constr_chk
    (setEnabled b (drop_missing_cols_constr_chk o)) o.

(** [force_recreation_chk->setChecked(b)] and
    [dont_drop_missing_objs_chk->setChecked(b)] with their slots. *)
Definition check_force_recreation (b : bool) (o : DiffOptionWidgets) :=
  let (w, changed) := setChecked b (force_recreation_chk o) in
  let o := set_force_recreation_chk w o in
  if changed then toggled_force_recreation b o else o.

Definition check_dont_drop_missing_objs (b : bool) (o : DiffOptionWidgets) :=
  let (w, changed) := setChecked b (dont_drop_missing_objs_chk o) in
  let o := set_dont_drop_missing_objs_chk w o in
  if changed then toggled_dont_drop_missing_objs b o else o.

Definition check_drop_missing_cols_constr (b : bool) (o : DiffOptionWidgets) :=
  set_drop_missing_cols_constr_chk
    (fst (setChecked b (drop_missing_cols_constr_chk o))) o.

(** The user clicks one of the two boxes. *)
Definition click_dont_drop_missing_objs (o : DiffOptionWidgets) :=
  let (w, changed) := click (dont_drop_missing_objs_chk o) in
  let o := set_dont_drop_missing_objs_chk w o in
  if changed then toggled_dont_drop_missing_objs (checked w) o else o.

Definition click_drop_missing_cols_constr (o : DiffOptionWidgets) :=
  set_drop_missing_cols_constr_chk
    (fst (click (drop_missing_cols_constr_chk o))) o.

(** The keys of a preset ([Attributes::...], declared in libutils) that
    [selectPreset] reads for the options; [attribs_map] is a map from keys to
    strings and [Attributes::True] the text of a set flag. *)
Inductive Attribute :=
| KeepClusterObjs | KeepObjsPerms | DontDropMissingObjs | DropMissingColsConstrs
| PreserveDbName | DropTruncCascade | ReuseSequences | ForceObjsRecreation
| RecreateUnmodObjs.

Definition attribs_map := Attribute -> string.

Definition AttrTrue : string := "true".

Definition is_true (conf : attribs_map) (a : Attribute) : bool :=
  String.eqb (conf a) AttrTrue.

Definition check_only (b : bool) (w : QCheckBox) : QCheckBox :=
  fst (setChecked b w).

(** [selectPreset] on the options of the diff.  Before it reaches them, the
    slot emits [activated] on the two combo boxes of the connections, which
    runs [listDatabases]; [dbs_listed] says that no call of it threw.  When
    one throws, the exception leaves the slot before any option is touched.
    Otherwise the options are restored in the order of the code. *)
Definition selectPreset (dbs_listed : bool) (conf : attribs_map)
    (o : DiffOptionWidgets) : DiffOptionWidgets :=
  if negb dbs_listed then o else
  let o := mkOptionWidgets
             (check_only (is_true conf KeepClusterObjs) (keep_cluster_objs_chk o))
             (cascade_mode_chk o) (force_recreation_chk o) (recreate_unmod_chk o)
             (check_only (is_true conf KeepObjsPerms) (keep_obj_perms_chk o))
             (reuse_sequences_chk o) (preserve_db_name_chk o)
             (dont_drop_missing_objs_chk o) (drop_missing_cols_constr_chk o) in
  let o := check_dont_drop_missing_objs (is_true conf DontDropMissingObjs) o in
  let o := check_drop_missing_cols_constr
             (is_true conf DontDropMissingObjs
              && is_true conf DropMissingColsConstrs) o in
  let o := mkOptionWidgets
             (keep_cluster_objs_chk o)
             (check_only (is_true conf DropTruncCascade) (cascade_mode_chk o))
             (force_recreation_chk o) (recreate_unmod_chk o)
             (keep_obj_perms_chk o)
             (check_only (is_true conf ReuseSequences) (reuse_sequences_chk o))
             (check_only (is_true conf PreserveDbName) (preserve_db_name_chk o))
             (dont_drop_missing_objs_chk o) (drop_missing_cols_constr_chk o) in
  let o := check_force_recreation (is_true conf ForceObjsRecreation) o in
  set_recreate_unmod_chk
    (check_only (is_true conf ForceObjsRecreation
                 && is_true conf RecreateUnmodObjs) (recreate_unmod_chk o)) o.

(** The options as [diffModels] hands them to the diff helper: the checked
    state of each box, whether the box is enabled or not. *)
Definition diff_options_of (o : DiffOptionWidgets) : DiffOptions :=
  mkDiffOptions
    (checked (keep_cluster_objs_chk o)) (checked (cascade_mode_chk o))
    (checked (force_recreation_chk o)) (checked (recreate_unmod_chk o))
    (checked (keep_obj_perms_chk o)) (checked (reuse_sequences_chk o))
    (checked (preserve_db_name_chk o))
    (checked (dont_drop_missing_objs_chk o))
    (checked (drop_missing_cols_constr_chk o)).

(** What the user does on the options tab. *)
Inductive OptionEvent :=
| ClickDontDropMissingObjs
| ClickDropMissingColsConstr
| SelectPreset (dbs_listed : bool) (conf : attribs_map)
| CheckThemAndDiff.

(** [CheckThemAndDiff] is the answer to the question of [generateDiff] that
    checks both boxes. *)
Definition option_step (e : OptionEvent) (o : DiffOptionWidgets)
  : DiffOptionWidgets :=
  match e with
  | ClickDontDropMissingObjs => click_dont_drop_missing_objs o
  | ClickDropMissingColsConstr => click_drop_missing_cols_constr o
  | SelectPreset dbs_listed conf => selectPreset dbs_listed conf o
  | CheckThemAndDiff =>
      check_drop_missing_cols_constr true (check_dont_drop_missing_objs true o)
  end.


(** The second box follows the first: it is enabled exactly when the first one
    is checked.  Every change of the first box establishes this. *)
Definition follows (o : DiffOptionWidgets) : Prop :=
  enabled (drop_missing_cols_constr_chk o)
  = checked (dont_drop_missing_objs_chk o).

(** *** The partial diff filters *)

(** The state of the [ObjectsFilterWidget] as the form reads it. *)
Record ObjectsFilterWidget := mkFilterWidget {
  getObjectFilters : list string;
  isOnlyMatching : bool;
  isMatchSignature : bool;
  getForceObjectsFilter : list string;
  hasFiltersConfigured : bool
}.

(** The arguments of [Catalog::setObjectFilters] and of
    [DatabaseImportHelper::setObjectFilters]. *)
Record ObjectFilters := mkObjectFilters {
  filters : list string;
  only_matching : bool;
  match_signature : bool;
  force_filter : list string
}.

(** *** Helpers and threads *)

(** Modelled from the spec: the helpers ([DatabaseImportHelper],
    [ModelsDiffHelper], [ModelExportHelper]) are declared outside the sources.
    Each hosts one phase of the spec: its slot runs when its thread starts
    ([Working]); when the work is over it emits its finished signal ([Done]),
    which the form handles later ([Finished]); it may also end by an error
    ([Aborted]) or because the form cancelled it ([Canceled]). *)
Inductive HelperStatus :=
| Idle | Working | Done | Finished | Canceled | Aborted.

Definition cancel_status (s : HelperStatus) : HelperStatus :=
  match s with Working => Canceled | _ => s end.

Definition is_working (s : HelperStatus) : bool :=
  match s with Working => true | _ => false end.

Record ImportOptions := mkImportOptions {
  import_sys_objs : bool; import_ext_objs : bool;
  ignore_errors : bool; debug_mode : bool
}.

(** [selected_with] keeps the filters of the catalog that listed the objects
    handed to [setSelectedOIDs]. *)
Record ImportHelper := mkImportHelper {
  import_status : HelperStatus;
  selected_with : option ObjectFilters;
  import_options : option ImportOptions
}.

Record DiffHelper := mkDiffHelper {
  diff_status : HelperStatus;
  diff_options : option DiffOptions;
  diff_filtered_objs : option (list ObjRef)
}.

Record ExportParams := mkExportParams {
  sql_buffer : string; db_name : string; ignore_dup : bool
}.

(** Modelled from the spec: [ModelExportHelper] keeps the spec's
    "caller-supplied ignore-list"; [setIgnoredErrors] is the call by which the
    form supplies it, and [ignored_errors] is the list of the last call.  The
    flag [ignore_dup] goes to the helper apart from the list, with the
    parameters of the export. *)
Record ExportHelper := mkExportHelper {
  export_status : HelperStatus;
  ignored_errors : list string;
  export_params : option ExportParams
}.

Definition setIgnoredErrors (codes : list string) (h : ExportHelper) :=
  mkExportHelper (export_status h) codes (export_params h).

Definition setExportToDBMSParams (p : ExportParams) (h : ExportHelper) :=
  mkExportHelper (export_status h) (ignored_errors h) (Some p).

(** The flag for duplicate objects that the helper was given with the
    parameters of the export. *)
Definition ignore_dup_of (h : ExportHelper) : bool :=
  match export_params h with
  | Some p => ignore_dup p
  | None => false
  end.

(** Modelled from the spec: the error codes that the applier ignores, "a
    caller-supplied ignore-list (plus a built-in default for duplicate object
    already exists)".  The codes of the built-in default are not among the
    sources, nor is what the flag for duplicate objects does to them;
    [duplicate_object] tells the codes of the built-in default for a value of
    the flag. *)
Definition ignores (duplicate_object : bool -> string -> bool)
    (h : ExportHelper) (code : string) : bool :=
  duplicate_object (ignore_dup_of h) code
  || existsb (String.eqb code) (ignored_errors h).

(** Modelled from the spec: the export helper applies a script with the loop
    of the applier and with what it ignores. *)
Definition applies (duplicate_object : bool -> string -> bool)
    (h : ExportHelper) (script : list Applier.Statement) : Applier.Applied :=
  Applier.exportToDBMS (ignores duplicate_object h) script.

(** A thread and the helper that lives in it: [createThread] and
    [destroyThread] make and delete the two together. *)
Record Worker (H : Type) := mkWorker { thread : QThread; helper : H }.
Arguments mkWorker {H} _ _.
Arguments thread {H} _.
Arguments helper {H} _.

Definition on_thread {H} (g : QThread -> QThread) (w : Worker H) : Worker H :=
  mkWorker (g (thread w)) (helper w).

Definition on_helper {H} (g : H -> H) (w : Worker H) : Worker H :=
  mkWorker (thread w) (g (helper w)).

Definition running {H} (w : option (Worker H)) : bool :=
  match w with Some w => isRunning (thread w) | None => false end.

Definition import_start (h : ImportHelper) : ImportHelper :=
  mkImportHelper Working (selected_with h) (import_options h).

Definition import_set_status (s : HelperStatus) (h : ImportHelper) :=
  mkImportHelper s (selected_with h) (import_options h).

Definition diff_set_status (s : HelperStatus) (h : DiffHelper) :=
  mkDiffHelper s (diff_options h) (diff_filtered_objs h).

Definition export_set_status (s : HelperStatus) (h : ExportHelper) :=
  mkExportHelper s (ignored_errors h) (export_params h).

(** [cancelImport], [cancelDiff] and [cancelExport]. *)
Definition cancelImport (h : ImportHelper) :=
  import_set_status (cancel_status (import_status h)) h.

Definition cancelDiff (h : DiffHelper) :=
  diff_set_status (cancel_status (diff_status h)) h.

Definition cancelExport (h : ExportHelper) :=
  export_set_status (cancel_status (export_status h)) h.

(** [thread->start()]: the [started] signal runs the slot of the helper. *)
Definition start_worker {H} (work : H -> H) (w : Worker H) : Worker H :=
  if isRunning (thread w) then w
  else mkWorker (start (thread w)) (work (helper w)).

(** *** The output tree and the texts *)

(** The texts of the labels and of the items of the output tree, one
    constructor for each template of the code with its arguments.
    [Formatted] is [GuiUtilsNs::formatMessage]. *)
Inductive Text :=
| WaitingToStart
| LowVerbositySet
| StepImporting (curr total : Z) (conn : string)
| StepComparing (curr total : Z)
| StepExporting (curr total : Z) (db conn : string)
| SavingDiffToFile (file : string)
| DiffEnded
| NoOperationsLeft
| CancelledByUser
| ProcessAborted
| ProcessPaused
| ErrorIgnored (err_code : string)
| Formatted (msg : string)
| Plain (s : string).

(** An item of [output_trw]: its text and its parent, by position in the
    order of creation ([None] for a top-level item). *)
Record TreeItem := mkItem { item_text : Text; item_parent : option nat }.

(** [GuiUtilsNs::createOutputTreeItem]: the tree with the new item, and the
    item. *)
Definition createOutputTreeItem (tree : list TreeItem) (text : Text)
    (parent : option nat) : list TreeItem * nat :=
  ((tree ++ [mkItem text parent])%list, List.length tree).

Record Messagebox := mkMsg { result : DialogCode; isCancelled : bool }.

(** *** What the form reads and never writes during a run *)

Record Inputs := mkInputs {
  low_verbosity : bool;
  DEMO_VERSION : bool;
  src_model_rb : bool;
  src_database_rb : bool;
  store_in_file_rb : bool;
  apply_on_server_rb : bool;
  database_cmb_index : Z;
  src_database_cmb_index : Z;
  src_connections_cmb_index : Z;
  database_cmb_text : string;
  connection_id : string;
  src_connection_id : string;
  loaded_model : option DatabaseModel;
  file_sel_file : string;
  file_sel_warning : bool;
  ignore_duplic_chk : bool;
  ignore_error_codes_chk : bool;
  error_codes_edt : string;
  import_sys_objs_chk : bool;
  import_ext_objs_chk : bool;
  ignore_errors_chk : bool;
  debug_mode_chk : bool;
  pd_filter_wgt : ObjectsFilterWidget;
  getRelationshipFilters : list ObjRef -> bool -> list string
}.

(** *** The state of the form *)

(** The workers, the output, the progress bars, the buttons and the few
    widgets the slots below write.  Icons, tool tips, the preset editor and the
    two models (heap objects that the form only hands to the helpers) are left
    out. *)
#[local] Set Primitive Projections.
Record Form := mkForm {
  inputs : Inputs;
  src_import_w : option (Worker ImportHelper);
  import_w : option (Worker ImportHelper);
  diff_w : option (Worker DiffHelper);
  export_w : option (Worker ExportHelper);
  output_trw : list TreeItem;
  src_import_item : option nat;
  import_item : option nat;
  diff_item : option nat;
  export_item : option nat;
  step_lbl : Text;
  progress_lbl : Text;
  step_pb : QProgressBar;
  progress_pb : QProgressBar;
  diff_progress : Z;
  curr_step : Z;
  total_steps : Z;
  process_paused : bool;
  sqlcode_txt : string;
  buttons_wgt : bool;
  cancel_btn : bool;
  generate_btn : bool;
  close_btn : bool;
  apply_on_server_btn : bool;
  apply_on_server_btn_visible : bool;
  apply_conns : nat;
  settings_tbw : QTabWidget;
  event_loop_running : bool;
  gen_filters_from_log_chk : bool;
  filtered_objs : list ObjRef;
  options : DiffOptionWidgets
}.
#[local] Unset Primitive Projections.

Definition set_src_import_w (v : option (Worker ImportHelper)) (f : Form) : Form :=
  mkForm (inputs f) v (import_w f) (diff_w f) (export_w f) (output_trw f)
    (src_import_item f) (import_item f) (diff_item f) (export_item f)
    (step_lbl f) (progress_lbl f) (step_pb f) (progress_pb f) (diff_progress
    f) (curr_step f) (total_steps f) (process_paused f) (sqlcode_txt f)
    (buttons_wgt f) (cancel_btn f) (generate_btn f) (close_btn f)
    (apply_on_server_btn f) (apply_on_server_btn_visible f) (apply_conns f)
    (settings_tbw f) (event_loop_running f) (gen_filters_from_log_chk f)
    (filtered_objs f) (options f).

Definition set_import_w (v : option (Worker ImportHelper)) (f : Form) : Form :=
  mkForm (inputs f) (src_import_w f) v (diff_w f) (export_w f) (output_trw f)
    (src_import_item f) (import_item f) (diff_item f) (export_item f)
    (step_lbl f) (progress_lbl f) (step_pb f) (progress_pb f) (diff_progress
    f) (curr_step f) (total_steps f) (process_paused f) (sqlcode_txt f)
    (buttons_wgt f) (cancel_btn f) (generate_btn f) (close_btn f)
    (apply_on_server_btn f) (apply_on_server_btn_visible f) (apply_conns f)
    (settings_tbw f) (event_loop_running f) (gen_filters_from_log_chk f)
    (filtered_objs f) (options f).

Definition set_diff_w (v : option (Worker DiffHelper)) (f : Form) : Form :=
  mkForm (inputs f) (src_import_w f) (import_w f) v (export_w f) (output_trw
    f) (src_import_item f) (import_item f) (diff_item f) (export_item f)
    (step_lbl f) (progress_lbl f) (step_pb f) (progress_pb f) (diff_progress
    f) (curr_step f) (total_steps f) (process_paused f) (sqlcode_txt f)
    (buttons_wgt f) (cancel_btn f) (generate_btn f) (close_btn f)
    (apply_on_server_btn f) (apply_on_server_btn_visible f) (apply_conns f)
    (settings_tbw f) (event_loop_running f) (gen_filters_from_log_chk f)
    (filtered_objs f) (options f).

Definition set_export_w (v : option (Worker ExportHelper)) (f : Form) : Form :=
  mkForm (inputs f) (src_import_w f) (import_w f) (diff_w f) v (output_trw f)
    (src_import_item f) (import_item f) (diff_item f) (export_item f)
    (step_lbl f) (progress_lbl f) (step_pb f) (progress_pb f) (diff_progress
    f) (curr_step f) (total_steps f) (process_paused f) (sqlcode_txt f)
    (buttons_wgt f) (cancel_btn f) (generate_btn f) (close_btn f)
    (apply_on_server_btn f) (apply_on_server_btn_visible f) (apply_conns f)
    (settings_tbw f) (event_loop_running f) (gen_filters_from_log_chk f)
    (filtered_objs f) (options f).

Definition set_output_trw (v : list TreeItem) (f : Form) : Form :=
  mkForm (inputs f) (src_import_w f) (import_w f) (diff_w f) (export_w f) v
    (src_import_item f) (import_item f) (diff_item f) (export_item f)
    (step_lbl f) (progress_lbl f) (step_pb f) (progress_pb f) (diff_progress
    f) (curr_step f) (total_steps f) (process_paused f) (sqlcode_txt f)
    (buttons_wgt f) (cancel_btn f) (generate_btn f) (close_btn f)
    (apply_on_server_btn f) (apply_on_server_btn_visible f) (apply_conns f)
    (settings_tbw f) (event_loop_running f) (gen_filters_from_log_chk f)
    (filtered_objs f) (options f).

Definition set_src_import_item (v : option nat) (f : Form) : Form :=
  mkForm (inputs f) (src_import_w f) (import_w f) (diff_w f) (export_w f)
    (output_trw f) v (import_item f) (diff_item f) (export_item f) (step_lbl
    f) (progress_lbl f) (step_pb f) (progress_pb f) (diff_progress f)
    (curr_step f) (total_steps f) (process_paused f) (sqlcode_txt f)
    (buttons_wgt f) (cancel_btn f) (generate_btn f) (close_btn f)
    (apply_on_server_btn f) (apply_on_server_btn_visible f) (apply_conns f)
    (settings_tbw f) (event_loop_running f) (gen_filters_from_log_chk f)
    (filtered_objs f) (options f).

Definition set_import_item (v : option nat) (f : Form) : Form :=
  mkForm (inputs f) (src_import_w f) (import_w f) (diff_w f) (export_w f)
    (output_trw f) (src_import_item f) v (diff_item f) (export_item f)
    (step_lbl f) (progress_lbl f) (step_pb f) (progress_pb f) (diff_progress
    f) (curr_step f) (total_steps f) (process_paused f) (sqlcode_txt f)
    (buttons_wgt f) (cancel_btn f) (generate_btn f) (close_btn f)
    (apply_on_server_btn f) (apply_on_server_btn_visible f) (apply_conns f)
    (settings_tbw f) (event_loop_running f) (gen_filters_from_log_chk f)
    (filtered_objs f) (options f).

Definition set_diff_item (v : option nat) (f : Form) : Form :=
  mkForm (inputs f) (src_import_w f) (import_w f) (diff_w f) (export_w f)
    (output_trw f) (src_import_item f) (import_item f) v (export_item f)
    (step_lbl f) (progress_lbl f) (step_pb f) (progress_pb f) (diff_progress
    f) (curr_step f) (total_steps f) (process_paused f) (sqlcode_txt f)
    (buttons_wgt f) (cancel_btn f) (generate_btn f) (close_btn f)
    (apply_on_server_btn f) (apply_on_server_btn_visible f) (apply_conns f)
    (settings_tbw f) (event_loop_running f) (gen_filters_from_log_chk f)
    (filtered_objs f) (options f).

Definition set_export_item (v : option nat) (f : Form) : Form :=
  mkForm (inputs f) (src_import_w f) (import_w f) (diff_w f) (export_w f)
    (output_trw f) (src_import_item f) (import_item f) (diff_item f) v
    (step_lbl f) (progress_lbl f) (step_pb f) (progress_pb f) (diff_progress
    f) (curr_step f) (total_steps f) (process_paused f) (sqlcode_txt f)
    (buttons_wgt f) (cancel_btn f) (generate_btn f) (close_btn f)
    (apply_on_server_btn f) (apply_on_server_btn_visible f) (apply_conns f)
    (settings_tbw f) (event_loop_running f) (gen_filters_from_log_chk f)
    (filtered_objs f) (options f).

Definition set_step_lbl (v : Text) (f : Form) : Form :=
  mkForm (inputs f) (src_import_w f) (import_w f) (diff_w f) (export_w f)
    (output_trw f) (src_import_item f) (import_item f) (diff_item f)
    (export_item f) v (progress_lbl f) (step_pb f) (progress_pb f)
    (diff_progress f) (curr_step f) (total_steps f) (process_paused f)
    (sqlcode_txt f) (buttons_wgt f) (cancel_btn f) (generate_btn f) (close_btn
    f) (apply_on_server_btn f) (apply_on_server_btn_visible f) (apply_conns f)
    (settings_tbw f) (event_loop_running f) (gen_filters_from_log_chk f)
    (filtered_objs f) (options f).

Definition set_progress_lbl (v : Text) (f : Form) : Form :=
  mkForm (inputs f) (src_import_w f) (import_w f) (diff_w f) (export_w f)
    (output_trw f) (src_import_item f) (import_item f) (diff_item f)
    (export_item f) (step_lbl f) v (step_pb f) (progress_pb f) (diff_progress
    f) (curr_step f) (total_steps f) (process_paused f) (sqlcode_txt f)
    (buttons_wgt f) (cancel_btn f) (generate_btn f) (close_btn f)
    (apply_on_server_btn f) (apply_on_server_btn_visible f) (apply_conns f)
    (settings_tbw f) (event_loop_running f) (gen_filters_from_log_chk f)
    (filtered_objs f) (options f).

Definition set_step_pb (v : QProgressBar) (f : Form) : Form :=
  mkForm (inputs f) (src_import_w f) (import_w f) (diff_w f) (export_w f)
    (output_trw f) (src_import_item f) (import_item f) (diff_item f)
    (export_item f) (step_lbl f) (progress_lbl f) v (progress_pb f)
    (diff_progress f) (curr_step f) (total_steps f) (process_paused f)
    (sqlcode_txt f) (buttons_wgt f) (cancel_btn f) (generate_btn f) (close_btn
    f) (apply_on_server_btn f) (apply_on_server_btn_visible f) (apply_conns f)
    (settings_tbw f) (event_loop_running f) (gen_filters_from_log_chk f)
    (filtered_objs f) (options f).

Definition set_progress_pb (v : QProgressBar) (f : Form) : Form :=
  mkForm (inputs f) (src_import_w f) (import_w f) (diff_w f) (export_w f)
    (output_trw f) (src_import_item f) (import_item f) (diff_item f)
    (export_item f) (step_lbl f) (progress_lbl f) (step_pb f) v (diff_progress
    f) (curr_step f) (total_steps f) (process_paused f) (sqlcode_txt f)
    (buttons_wgt f) (cancel_btn f) (generate_btn f) (close_btn f)
    (apply_on_server_btn f) (apply_on_server_btn_visible f) (apply_conns f)
    (settings_tbw f) (event_loop_running f) (gen_filters_from_log_chk f)
    (filtered_objs f) (options f).

Definition set_diff_progress (v : Z) (f : Form) : Form :=
  mkForm (inputs f) (src_import_w f) (import_w f) (diff_w f) (export_w f)
    (output_trw f) (src_import_item f) (import_item f) (diff_item f)
    (export_item f) (step_lbl f) (progress_lbl f) (step_pb f) (progress_pb f)
    v (curr_step f) (total_steps f) (process_paused f) (sqlcode_txt f)
    (buttons_wgt f) (cancel_btn f) (generate_btn f) (close_btn f)
    (apply_on_server_btn f) (apply_on_server_btn_visible f) (apply_conns f)
    (settings_tbw f) (event_loop_running f) (gen_filters_from_log_chk f)
    (filtered_objs f) (options f).

Definition set_curr_step (v : Z) (f : Form) : Form :=
  mkForm (inputs f) (src_import_w f) (import_w f) (diff_w f) (export_w f)
    (output_trw f) (src_import_item f) (import_item f) (diff_item f)
    (export_item f) (step_lbl f) (progress_lbl f) (step_pb f) (progress_pb f)
    (diff_progress f) v (total_steps f) (process_paused f) (sqlcode_txt f)
    (buttons_wgt f) (cancel_btn f) (generate_btn f) (close_btn f)
    (apply_on_server_btn f) (apply_on_server_btn_visible f) (apply_conns f)
    (settings_tbw f) (event_loop_running f) (gen_filters_from_log_chk f)
    (filtered_objs f) (options f).

Definition set_total_steps (v : Z) (f : Form) : Form :=
  mkForm (inputs f) (src_import_w f) (import_w f) (diff_w f) (export_w f)
    (output_trw f) (src_import_item f) (import_item f) (diff_item f)
    (export_item f) (step_lbl f) (progress_lbl f) (step_pb f) (progress_pb f)
    (diff_progress f) (curr_step f) v (process_paused f) (sqlcode_txt f)
    (buttons_wgt f) (cancel_btn f) (generate_btn f) (close_btn f)
    (apply_on_server_btn f) (apply_on_server_btn_visible f) (apply_conns f)
    (settings_tbw f) (event_loop_running f) (gen_filters_from_log_chk f)
    (filtered_objs f) (options f).

Definition set_process_paused (v : bool) (f : Form) : Form :=
  mkForm (inputs f) (src_import_w f) (import_w f) (diff_w f) (export_w f)
    (output_trw f) (src_import_item f) (import_item f) (diff_item f)
    (export_item f) (step_lbl f) (progress_lbl f) (step_pb f) (progress_pb f)
    (diff_progress f) (curr_step f) (total_steps f) v (sqlcode_txt f)
    (buttons_wgt f) (cancel_btn f) (generate_btn f) (close_btn f)
    (apply_on_server_btn f) (apply_on_server_btn_visible f) (apply_conns f)
    (settings_tbw f) (event_loop_running f) (gen_filters_from_log_chk f)
    (filtered_objs f) (options f).

Definition set_sqlcode_txt (v : string) (f : Form) : Form :=
  mkForm (inputs f) (src_import_w f) (import_w f) (diff_w f) (export_w f)
    (output_trw f) (src_import_item f) (import_item f) (diff_item f)
    (export_item f) (step_lbl f) (progress_lbl f) (step_pb f) (progress_pb f)
    (diff_progress f) (curr_step f) (total_steps f) (process_paused f) v
    (buttons_wgt f) (cancel_btn f) (generate_btn f) (close_btn f)
    (apply_on_server_btn f) (apply_on_server_btn_visible f) (apply_conns f)
    (settings_tbw f) (event_loop_running f) (gen_filters_from_log_chk f)
    (filtered_objs f) (options f).

Definition set_buttons_wgt (v : bool) (f : Form) : Form :=
  mkForm (inputs f) (src_import_w f) (import_w f) (diff_w f) (export_w f)
    (output_trw f) (src_import_item f) (import_item f) (diff_item f)
    (export_item f) (step_lbl f) (progress_lbl f) (step_pb f) (progress_pb f)
    (diff_progress f) (curr_step f) (total_steps f) (process_paused f)
    (sqlcode_txt f) v (cancel_btn f) (generate_btn f) (close_btn f)
    (apply_on_server_btn f) (apply_on_server_btn_visible f) (apply_conns f)
    (settings_tbw f) (event_loop_running f) (gen_filters_from_log_chk f)
    (filtered_objs f) (options f).

Definition set_cancel_btn (v : bool) (f : Form) : Form :=
  mkForm (inputs f) (src_import_w f) (import_w f) (diff_w f) (export_w f)
    (output_trw f) (src_import_item f) (import_item f) (diff_item f)
    (export_item f) (step_lbl f) (progress_lbl f) (step_pb f) (progress_pb f)
    (diff_progress f) (curr_step f) (total_steps f) (process_paused f)
    (sqlcode_txt f) (buttons_wgt f) v (generate_btn f) (close_btn f)
    (apply_on_server_btn f) (apply_on_server_btn_visible f) (apply_conns f)
    (settings_tbw f) (event_loop_running f) (gen_filters_from_log_chk f)
    (filtered_objs f) (options f).

Definition set_generate_btn (v : bool) (f : Form) : Form :=
  mkForm (inputs f) (src_import_w f) (import_w f) (diff_w f) (export_w f)
    (output_trw f) (src_import_item f) (import_item f) (diff_item f)
    (export_item f) (step_lbl f) (progress_lbl f) (step_pb f) (progress_pb f)
    (diff_progress f) (curr_step f) (total_steps f) (process_paused f)
    (sqlcode_txt f) (buttons_wgt f) (cancel_btn f) v (close_btn f)
    (apply_on_server_btn f) (apply_on_server_btn_visible f) (apply_conns f)
    (settings_tbw f) (event_loop_running f) (gen_filters_from_log_chk f)
    (filtered_objs f) (options f).

Definition set_close_btn (v : bool) (f : Form) : Form :=
  mkForm (inputs f) (src_import_w f) (import_w f) (diff_w f) (export_w f)
    (output_trw f) (src_import_item f) (import_item f) (diff_item f)
    (export_item f) (step_lbl f) (progress_lbl f) (step_pb f) (progress_pb f)
    (diff_progress f) (curr_step f) (total_steps f) (process_paused f)
    (sqlcode_txt f) (buttons_wgt f) (cancel_btn f) (generate_btn f) v
    (apply_on_server_btn f) (apply_on_server_btn_visible f) (apply_conns f)
    (settings_tbw f) (event_loop_running f) (gen_filters_from_log_chk f)
    (filtered_objs f) (options f).

Definition set_apply_on_server_btn (v : bool) (f : Form) : Form :=
  mkForm (inputs f) (src_import_w f) (import_w f) (diff_w f) (export_w f)
    (output_trw f) (src_import_item f) (import_item f) (diff_item f)
    (export_item f) (step_lbl f) (progress_lbl f) (step_pb f) (progress_pb f)
    (diff_progress f) (curr_step f) (total_steps f) (process_paused f)
    (sqlcode_txt f) (buttons_wgt f) (cancel_btn f) (generate_btn f) (close_btn
    f) v (apply_on_server_btn_visible f) (apply_conns f) (settings_tbw f)
    (event_loop_running f) (gen_filters_from_log_chk f) (filtered_objs f)
    (options f).

Definition set_apply_on_server_btn_visible (v : bool) (f : Form) : Form :=
  mkForm (inputs f) (src_import_w f) (import_w f) (diff_w f) (export_w f)
    (output_trw f) (src_import_item f) (import_item f) (diff_item f)
    (export_item f) (step_lbl f) (progress_lbl f) (step_pb f) (progress_pb f)
    (diff_progress f) (curr_step f) (total_steps f) (process_paused f)
    (sqlcode_txt f) (buttons_wgt f) (cancel_btn f) (generate_btn f) (close_btn
    f) (apply_on_server_btn f) v (apply_conns f) (settings_tbw f)
    (event_loop_running f) (gen_filters_from_log_chk f) (filtered_objs f)
    (options f).

Definition set_apply_conns (v : nat) (f : Form) : Form :=
  mkForm (inputs f) (src_import_w f) (import_w f) (diff_w f) (export_w f)
    (output_trw f) (src_import_item f) (import_item f) (diff_item f)
    (export_item f) (step_lbl f) (progress_lbl f) (step_pb f) (progress_pb f)
    (diff_progress f) (curr_step f) (total_steps f) (process_paused f)
    (sqlcode_txt f) (buttons_wgt f) (cancel_btn f) (generate_btn f) (close_btn
    f) (apply_on_server_btn f) (apply_on_server_btn_visible f) v (settings_tbw
    f) (event_loop_running f) (gen_filters_from_log_chk f) (filtered_objs f)
    (options f).

Definition set_settings_tbw (v : QTabWidget) (f : Form) : Form :=
  mkForm (inputs f) (src_import_w f) (import_w f) (diff_w f) (export_w f)
    (output_trw f) (src_import_item f) (import_item f) (diff_item f)
    (export_item f) (step_lbl f) (progress_lbl f) (step_pb f) (progress_pb f)
    (diff_progress f) (curr_step f) (total_steps f) (process_paused f)
    (sqlcode_txt f) (buttons_wgt f) (cancel_btn f) (generate_btn f) (close_btn
    f) (apply_on_server_btn f) (apply_on_server_btn_visible f) (apply_conns f)
    v (event_loop_running f) (gen_filters_from_log_chk f) (filtered_objs f)
    (options f).

Definition set_event_loop_running (v : bool) (f : Form) : Form :=
  mkForm (inputs f) (src_import_w f) (import_w f) (diff_w f) (export_w f)
    (output_trw f) (src_import_item f) (import_item f) (diff_item f)
    (export_item f) (step_lbl f) (progress_lbl f) (step_pb f) (progress_pb f)
    (diff_progress f) (curr_step f) (total_steps f) (process_paused f)
    (sqlcode_txt f) (buttons_wgt f) (cancel_btn f) (generate_btn f) (close_btn
    f) (apply_on_server_btn f) (apply_on_server_btn_visible f) (apply_conns f)
    (settings_tbw f) v (gen_filters_from_log_chk f) (filtered_objs f) (options
    f).

Definition set_gen_filters_from_log_chk (v : bool) (f : Form) : Form :=
  mkForm (inputs f) (src_import_w f) (import_w f) (diff_w f) (export_w f)
    (output_trw f) (src_import_item f) (import_item f) (diff_item f)
    (export_item f) (step_lbl f) (progress_lbl f) (step_pb f) (progress_pb f)
    (diff_progress f) (curr_step f) (total_steps f) (process_paused f)
    (sqlcode_txt f) (buttons_wgt f) (cancel_btn f) (generate_btn f) (close_btn
    f) (apply_on_server_btn f) (apply_on_server_btn_visible f) (apply_conns f)
    (settings_tbw f) (event_loop_running f) v (filtered_objs f) (options f).

Definition set_filtered_objs (v : list ObjRef) (f : Form) : Form :=
  mkForm (inputs f) (src_import_w f) (import_w f) (diff_w f) (export_w f)
    (output_trw f) (src_import_item f) (import_item f) (diff_item f)
    (export_item f) (step_lbl f) (progress_lbl f) (step_pb f) (progress_pb f)
    (diff_progress f) (curr_step f) (total_steps f) (process_paused f)
    (sqlcode_txt f) (buttons_wgt f) (cancel_btn f) (generate_btn f) (close_btn
    f) (apply_on_server_btn f) (apply_on_server_btn_visible f) (apply_conns f)
    (settings_tbw f) (event_loop_running f) (gen_filters_from_log_chk f) v
    (options f).

Definition set_options (v : DiffOptionWidgets) (f : Form) : Form :=
  mkForm (inputs f) (src_import_w f) (import_w f) (diff_w f) (export_w f)
    (output_trw f) (src_import_item f) (import_item f) (diff_item f)
    (export_item f) (step_lbl f) (progress_lbl f) (step_pb f) (progress_pb f)
    (diff_progress f) (curr_step f) (total_steps f) (process_paused f)
    (sqlcode_txt f) (buttons_wgt f) (cancel_btn f) (generate_btn f) (close_btn
    f) (apply_on_server_btn f) (apply_on_server_btn_visible f) (apply_conns f)
    (settings_tbw f) (event_loop_running f) (gen_filters_from_log_chk f)
    (filtered_objs f) v.
(** *** Threads *)

Definition SrcImportThread : nat := 0.
Definition ImportThread : nat := 1.
Definition DiffThread : nat := 2.
Definition ExportThread : nat := 3.

Definition is_some {A} (o : option A) : bool :=
  match o with Some _ => true | None => false end.

Definition new_import_worker : Worker ImportHelper :=
  mkWorker ThreadNew (mkImportHelper Idle None None).

Definition new_diff_worker : Worker DiffHelper :=
  mkWorker ThreadNew (mkDiffHelper Idle None None).

(** [export_helper->setIgnoredErrors({ QString("0A000") })] on the new helper. *)
Definition new_export_worker : Worker ExportHelper :=
  mkWorker ThreadNew (setIgnoredErrors ["0A000"] (mkExportHelper Idle [] None)).

Definition on_apply_conns (g : nat -> nat) (f : Form) : Form :=
  set_apply_conns (g (apply_conns f)) f.

(** [createThread].  For the export thread the lambda of [apply_on_server_btn]
    is connected once more. *)
Definition createThread (thread_id : nat) (f : Form) : Form :=
  if Nat.eqb thread_id SrcImportThread then
    set_src_import_w (Some new_import_worker) f
  else if Nat.eqb thread_id ImportThread then
    set_import_w (Some new_import_worker) f
  else if Nat.eqb thread_id DiffThread then
    set_diff_w (Some new_diff_worker) f
  else
    on_apply_conns S (set_export_w (Some new_export_worker) f).

(** [destroyThread]: the pointers of the form after the call.  The last branch
    has no test of [thread_id]: it is taken for every id whose own branch
    does not apply.  A call that deletes a thread that is still running does
    not return; [Lifecycle.destroyThread_full] tells when. *)
Definition destroyThread (thread_id : nat) (f : Form) : Form :=
  if Nat.eqb thread_id SrcImportThread && is_some (src_import_w f) then
    set_src_import_w None f
  else if Nat.eqb thread_id ImportThread && is_some (import_w f) then
    set_import_w None f
  else if Nat.eqb thread_id DiffThread && is_some (diff_w f) then
    set_diff_w None f
  else if is_some (export_w f) then
    set_export_w None f
  else f.

Definition isThreadsRunning (f : Form) : bool :=
  running (import_w f) || running (src_import_w f)
  || running (diff_w f) || running (export_w f).

(** *** Output *)

(** [GuiUtilsNs::createOutputTreeItem(output_trw, text, ico, parent)]: a new
    item with the text and below the parent that the form has at this moment;
    [store] keeps the item in one of the item pointers of the form. *)
Definition new_item (text : Form -> Text) (parent : Form -> option nat)
    (store : option nat -> Form -> Form) (f : Form) : Form :=
  let (tree, item) := createOutputTreeItem (output_trw f) (text f) (parent f) in
  store (Some item) (set_output_trw tree f).

(** The item is stored nowhere. *)
Definition forget (item : option nat) (f : Form) : Form := f.

Definition top_level (f : Form) : option nat := None.

Definition on_step_pb (g : QProgressBar -> QProgressBar) (f : Form) : Form :=
  set_step_pb (g (step_pb f)) f.

Definition on_progress_pb (g : QProgressBar -> QProgressBar) (f : Form)
  : Form :=
  set_progress_pb (g (progress_pb f)) f.

Definition on_settings_tbw (g : QTabWidget -> QTabWidget) (f : Form) : Form :=
  set_settings_tbw (g (settings_tbw f)) f.

Definition clearOutput (f : Form) : Form :=
  let f := set_output_trw [] f in
  let f := set_src_import_item None f in
  let f := set_import_item None f in
  let f := set_diff_item None f in
  let f := set_export_item None f in
  let f := set_step_lbl WaitingToStart f in
  let f := set_progress_lbl WaitingToStart f in
  let f := on_step_pb (setValue 0) f in
  on_progress_pb (setValue 0) f.

(** *** Buttons *)

Definition can_generate (i : Inputs) : bool :=
  (0 <? database_cmb_index i)%Z
  && ((src_database_rb i && (0 <? src_database_cmb_index i)%Z)
      || (src_model_rb i && is_some (loaded_model i)))
  && ((store_in_file_rb i && negb (isEmpty (file_sel_file i))
       && negb (file_sel_warning i))
      || apply_on_server_rb i).

Definition enableDiffMode (f : Form) : Form :=
  set_generate_btn (can_generate (inputs f)) f.

Definition can_filter (i : Inputs) : bool :=
  (src_model_rb i || (0 <=? src_database_cmb_index i)%Z)
  && (0 <? database_cmb_index i)%Z.

(** [enablePartialDiff] unchecks the box of the filters by date. *)
Definition enablePartialDiff (f : Form) : Form :=
  let f := on_settings_tbw (setTabEnabled 1 (can_filter (inputs f))) f in
  set_gen_filters_from_log_chk false f.

Definition resetButtons (f : Form) : Form :=
  let f := set_buttons_wgt true f in
  let f := set_cancel_btn false f in
  let f := on_settings_tbw (setTabEnabled 0 true) f in
  let f := set_apply_on_server_btn_visible false f in
  let f := enableDiffMode f in
  enablePartialDiff f.

(** *** Cancelling *)

(** [if(helper && thread->isRunning()) { helper->cancel(); thread->quit(); }] *)
Definition cancel_worker {H} (cancel : H -> H) (w : option (Worker H))
  : option (Worker H) :=
  match w with
  | Some w =>
      if isRunning (thread w)
      then Some (mkWorker (quit (thread w)) (cancel (helper w)))
      else Some w
  | None => None
  end.

Definition on_src_import_w (g : option (Worker ImportHelper) ->
                                option (Worker ImportHelper)) (f : Form) :=
  set_src_import_w (g (src_import_w f)) f.

Definition on_import_w (g : option (Worker ImportHelper) ->
                            option (Worker ImportHelper)) (f : Form) :=
  set_import_w (g (import_w f)) f.

Definition on_diff_w (g : option (Worker DiffHelper) ->
                          option (Worker DiffHelper)) (f : Form) :=
  set_diff_w (g (diff_w f)) f.

Definition on_export_w (g : option (Worker ExportHelper) ->
                            option (Worker ExportHelper)) (f : Form) :=
  set_export_w (g (export_w f)) f.

Definition cancelOperation (cancel_by_user : bool) (f : Form) : Form :=
  let f :=
    if cancel_by_user then
      let f := set_step_lbl CancelledByUser f in
      let f := set_progress_lbl NoOperationsLeft f in
      new_item step_lbl top_level forget f
    else f in
  let f := on_src_import_w (cancel_worker cancelImport) f in
  let f := on_import_w (cancel_worker cancelImport) f in
  let f := on_diff_w (cancel_worker cancelDiff) f in
  let f := on_export_w (cancel_worker cancelExport) f in
  let f := resetButtons f in
  let f := set_process_paused false f in
  set_close_btn true f.

Definition finishDiff (f : Form) : Form :=
  let f := cancelOperation false f in
  let f := set_step_lbl DiffEnded f in
  let f := set_progress_lbl NoOperationsLeft f in
  let f := new_item step_lbl top_level set_import_item f in
  let f := on_step_pb (setValue 100) f in
  on_progress_pb (setValue 100) f.

(** *** Slots that may throw *)

(** A slot either returns or is left by an exception; in both cases the form
    is in the state reached so far. *)
Inductive outcome := Returned (f : Form) | Threw (f : Form).

Definition state_of (r : outcome) : Form :=
  match r with Returned f | Threw f => f end.

(** [captureThreadError] always ends by throwing. *)
Definition captureThreadError (e : string) (f : Form) : outcome :=
  let f := cancelOperation false f in
  let f := set_progress_lbl ProcessAborted f in
  Threw (new_item (fun _ => Formatted e) top_level forget f).

(** *** Import *)

(** The filters [importDatabase] sets on its catalog: none when the filter
    widget has no filter. *)
Definition catalog_filters (f : Form) : option ObjectFilters :=
  let i := inputs f in
  let w := pd_filter_wgt i in
  match getObjectFilters w with
  | [] => None
  | pd_filters =>
      let pd_filters :=
        if src_model_rb i then
          (pd_filters ++
           getRelationshipFilters i (filtered_objs f)
             (gen_filters_from_log_chk f || isMatchSignature w))%list
        else pd_filters in
      Some (mkObjectFilters pd_filters (isOnlyMatching w)
              (if gen_filters_from_log_chk f then true else isMatchSignature w)
              (getForceObjectsFilter w))
  end.

(** The text of a step with the number of the step and the number of steps. *)
Definition label_step (text : Z -> Z -> Text) (f : Form) : Form :=
  set_step_lbl (text (curr_step f) (total_steps f)) f.

Definition import_options_of (i : Inputs) : ImportOptions :=
  mkImportOptions (import_sys_objs_chk i) (import_ext_objs_chk i)
    (ignore_errors_chk i) (debug_mode_chk i).

(** The import helper gets the objects listed by the catalog and the options,
    and its thread is started. *)
Definition start_import (flt : option ObjectFilters) (o : ImportOptions)
    (w : Worker ImportHelper) : Worker ImportHelper :=
  start_worker import_start
    (on_helper (fun h => mkImportHelper (import_status h) flt (Some o)) w).

(** [importDatabase], once [conn.switchToDatabase] has returned.
    [catalog_ok] says whether the connection and the catalog answer to the
    calls that follow the item of the step; when they do not, the exception
    leaves the slot after the thread was created and before it is started.
    [Lifecycle.importDatabase_full] adds the exception of
    [switchToDatabase], which leaves the slot before the label and the item
    of the step. *)
Definition importDatabase (thread_id : nat) (catalog_ok : bool) (f : Form)
  : outcome :=
  if negb (Nat.eqb thread_id SrcImportThread)
     && negb (Nat.eqb thread_id ImportThread)
  then Threw f
  else
    let is_src := Nat.eqb thread_id SrcImportThread in
    let f := createThread thread_id f in
    let f :=
      label_step
        (fun curr total =>
           StepImporting curr total
             (if is_src then src_connection_id (inputs f)
              else connection_id (inputs f))) f in
    let f :=
      new_item step_lbl top_level
        (if is_src then set_src_import_item else set_import_item) f in
    if negb catalog_ok then Threw f
    else
      let go := start_import (catalog_filters f) (import_options_of (inputs f)) in
      Returned
        (if is_src then on_src_import_w (option_map go) f
         else on_import_w (option_map go) f).

(** [generateDiff] asks about the two options that protect missing objects
    when filters are configured and one of them is unchecked. *)
Definition asks (f : Form) : bool :=
  let o := options f in
  isTabEnabled (settings_tbw f) 1
  && hasFiltersConfigured (pd_filter_wgt (inputs f))
  && (negb (checked (dont_drop_missing_objs_chk o))
      || negb (checked (drop_missing_cols_constr_chk o))).

(** The question was not asked, or it was not cancelled: [generateDiff] goes
    on to the import. *)
Definition proceeds (msgbox : Messagebox) (f : Form) : bool :=
  negb (asks f && negb (is_accepted (result msgbox)) && isCancelled msgbox).

Definition on_options (g : DiffOptionWidgets -> DiffOptionWidgets) (f : Form)
  : Form :=
  set_options (g (options f)) f.

(** The widgets while a run is under way. *)
Definition lock_buttons (f : Form) : Form :=
  let f := set_buttons_wgt false f in
  let f := set_cancel_btn true f in
  let f := set_generate_btn false f in
  let f := set_close_btn false f in
  on_settings_tbw
    (fun t =>
       setCurrentIndex 2
         (setTabEnabled 3 false
            (setTabEnabled 2 true
               (setTabEnabled 1 false (setTabEnabled 0 false t))))) f.

(** [generateDiff] up to the call of [importDatabase]. *)
Definition prepare_run (msgbox : Messagebox) (f : Form) : Form :=
  let f :=
    if asks f && is_accepted (result msgbox)
    then on_options (option_step CheckThemAndDiff) f else f in
  let f := destroyThread SrcImportThread f in
  let f := destroyThread ImportThread f in
  let f := destroyThread DiffThread f in
  let f := destroyThread ExportThread f in
  let f := clearOutput f in
  let f := set_curr_step 1%Z f in
  let f :=
    if low_verbosity (inputs f)
    then new_item (fun _ => LowVerbositySet) top_level forget f else f in
  set_total_steps (if src_model_rb (inputs f) then 3 else 4)%Z f.

(** [generateDiff]; [msgbox] is the answer to the question. *)
Definition generateDiff (msgbox : Messagebox) (catalog_ok : bool) (f : Form)
  : outcome :=
  if negb (proceeds msgbox f) then Returned f
  else
    let f := prepare_run msgbox f in
    match
      importDatabase
        (if src_database_rb (inputs f) then SrcImportThread else ImportThread)
        catalog_ok f
    with
    | Threw f => Threw f
    | Returned f => Returned (lock_buttons f)
    end.

(** *** Diff *)

Definition diff_start (h : DiffHelper) : DiffHelper := diff_set_status Working h.

(** The diff helper gets the options and the filtered objects, and its thread
    is started. *)
Definition start_diff (o : DiffOptions) (objs : option (list ObjRef))
    (w : Worker DiffHelper) : Worker DiffHelper :=
  start_worker diff_start
    (on_helper
       (fun h =>
          mkDiffHelper (diff_status h) (Some o)
            (match objs with Some l => Some l | None => diff_filtered_objs h end))
       w).

Definition keep_step_progress (f : Form) : Form :=
  set_diff_progress (value (step_pb f)) f.

Definition diffModels (f : Form) : Form :=
  let f := createThread DiffThread f in
  let f := label_step StepComparing f in
  let f := keep_step_progress f in
  let f := new_item step_lbl top_level set_diff_item f in
  on_diff_w
    (option_map
       (start_diff (diff_options_of (options f))
          (if src_model_rb (inputs f) then Some (filtered_objs f) else None)))
    f.

(** [handleImportFinished].  The slot does not look at its sender: whether the
    target import or the diff comes next is read off the source thread.  The
    result is [None] where the code dereferences a null pointer. *)
Definition handleImportFinished (e : string) (catalog_ok : bool) (f : Form)
  : option outcome :=
  let f := set_curr_step (curr_step f + 1)%Z f in
  if running (src_import_w f) then
    let f := on_src_import_w (option_map (on_thread quit)) f in
    if is_some (src_import_item f)
    then Some (importDatabase ImportThread catalog_ok f)
    else None
  else if is_some (import_w f) then
    Some (Returned (diffModels (on_import_w (option_map (on_thread quit)) f)))
  else None.

(** *** Export *)

Definition export_start (h : ExportHelper) : ExportHelper :=
  export_set_status Working h.

(** The export helper gets the script and the errors to ignore, and its
    thread is started:
    [setExportToDBMSParams(sqlcode_txt->toPlainText(), export_conn, database_cmb->currentText(), ignore_duplic_chk->isChecked())],
    and [setIgnoredErrors(error_codes_edt->text().simplified().split(' '))]
    when the box of the error codes is checked. *)
Definition start_export (sql : string) (i : Inputs) (w : Worker ExportHelper)
  : Worker ExportHelper :=
  start_worker export_start
    (on_helper
       (fun h =>
          let h :=
            setExportToDBMSParams
              (mkExportParams sql (database_cmb_text i) (ignore_duplic_chk i))
              h in
          if ignore_error_codes_chk i
          then setIgnoredErrors (split " " (simplified (error_codes_edt i))) h
          else h)
       w).

(** The process waits for the user on the preview tab. *)
Definition pause_process (f : Form) : Form :=
  let f := set_process_paused true f in
  let f := set_close_btn true f in
  let f :=
    on_settings_tbw (fun t => setTabEnabled 3 true (setCurrentIndex 3 t)) f in
  let f := set_apply_on_server_btn_visible true f in
  new_item (fun _ => ProcessPaused) top_level forget f.

(** [exportDiff].  [msgbox] is the answer to the confirmation, shown only when
    [confirm] is set: Apply diff accepts, Preview diff rejects, and the third
    button cancels. *)
Definition exportDiff (confirm : bool) (msgbox : Messagebox) (f : Form) : Form :=
  let f := createThread ExportThread f in
  if negb confirm || is_accepted (result msgbox) then
    let f := on_settings_tbw (setCurrentIndex 2) f in
    let f := set_apply_on_server_btn true f in
    let f :=
      label_step
        (fun curr total =>
           StepExporting curr total (database_cmb_text (inputs f))
             (connection_id (inputs f))) f in
    let f := keep_step_progress f in
    let f := new_item step_lbl top_level set_export_item f in
    let f :=
      on_export_w (option_map (start_export (sqlcode_txt f) (inputs f))) f in
    set_close_btn false f
  else if isCancelled msgbox then cancelOperation true f
  else pause_process f.

(** [saveDiffToFile]; [save_ok] says whether the file could be written. *)
Definition saveDiffToFile (save_ok : bool) (f : Form) : outcome :=
  if negb (isEmpty (sqlcode_txt f)) then
    let f :=
      label_step (fun _ _ => SavingDiffToFile (file_sel_file (inputs f))) f in
    let f := new_item step_lbl top_level set_import_item f in
    let f := on_step_pb (setValue 90) f in
    let f := on_progress_pb (setValue 100) f in
    if save_ok then Returned (finishDiff f) else Threw f
  else Returned (finishDiff f).

Definition nl : string := String (ascii_of_nat 10) "".

Definition demo_note : string :=
  nl ++ nl ++ "-- SQL code purposely truncated at this point in demo version!".

Definition no_differences : string :=
  "-- No differences were detected between model and database. --".

(** The block of [handleDiffFinished] for the demo version: the preview is cut
    to its first half. *)
Definition demo_truncate (f : Form) : Form :=
  if DEMO_VERSION (inputs f) && negb (isEmpty (sqlcode_txt f)) then
    let code := sqlcode_txt f in
    set_sqlcode_txt (left (Nat.div (String.length code) 2) code ++ demo_note) f
  else f.

(** An empty preview gets the note that nothing differs. *)
Definition note_no_differences (f : Form) : Form :=
  if isEmpty (sqlcode_txt f) then set_sqlcode_txt no_differences f else f.

(** The end of [handleDiffFinished]: the script is saved, or applied, or the
    diff is over. *)
Definition conclude_diff (msgbox : Messagebox) (save_ok : bool) (f : Form)
  : outcome :=
  let r :=
    if store_in_file_rb (inputs f) then saveDiffToFile save_ok f
    else if negb (isEmpty (sqlcode_txt f))
    then Returned (exportDiff true msgbox f)
    else Returned (finishDiff f) in
  match r with
  | Threw f => Threw f
  | Returned f => Returned (note_no_differences f)
  end.

(** The start of [handleDiffFinished]: the script of the diff helper
    ([diff_def] is [diff_helper->getDiffDefinition()]) goes to the preview and
    the diff thread is asked to quit. *)
Definition take_diff (diff_def : string) (f : Form) : Form :=
  let f := set_curr_step (curr_step f + 1)%Z f in
  let f := set_sqlcode_txt diff_def f in
  let f := demo_truncate f in
  let f := on_settings_tbw (setTabEnabled 2 true) f in
  on_diff_w (option_map (on_thread quit)) f.

(** [handleDiffFinished]; [None] where the diff helper would be null. *)
Definition handleDiffFinished (diff_def : string) (msgbox : Messagebox)
    (save_ok : bool) (f : Form) : option outcome :=
  if is_some (diff_w f)
  then Some (conclude_diff msgbox save_ok (take_diff diff_def f))
  else None.

(** [handleExportFinished]; [list_ok] says whether [listDatabases] could
    refresh the list of databases.  What [listDatabases] does to the combo box
    of the databases is left out, and with it what the change of that box
    does to the generate button, to the tab of the filters and to the box of
    the filters from the change log. *)
Definition handleExportFinished (list_ok : bool) (f : Form) : option outcome :=
  if is_some (export_w f) then
    let f := on_export_w (option_map (on_thread (fun t => wait (quit t)))) f in
    Some (if list_ok then Returned (finishDiff f) else Threw f)
  else None.

(** [handleErrorIgnored]: one item below the item of the export, with the
    message and the command below it. *)
Definition handleErrorIgnored (err_code err_msg cmd : string) (f : Form)
  : Form :=
  let (tree, item) :=
    createOutputTreeItem (output_trw f) (ErrorIgnored err_code)
      (export_item f) in
  let (tree, _) := createOutputTreeItem tree (Formatted err_msg) (Some item) in
  let (tree, _) := createOutputTreeItem tree (Plain cmd) (Some item) in
  set_output_trw tree f.

(** *** Progress *)

(** The item of the export for a progress message, with its command below. *)
Definition export_progress_item (msg : Text) (cmd : string) (f : Form) : Form :=
  let (tree, item) := createOutputTreeItem (output_trw f) msg (export_item f) in
  let f := set_output_trw tree f in
  if negb (isEmpty cmd)
  then new_item (fun _ => Plain cmd) (fun _ => Some item) forget f else f.

(** The share of the step bar that the running phase has reached.  Division
    of [int] truncates. *)
Definition progress_aux_of (progress : Z) (f : Form) : Z :=
  if running (src_import_w f) then Z.quot progress 5
  else if running (import_w f) then
    (if src_model_rb (inputs f) then Z.quot progress 4
     else 20 + Z.quot progress 5)%Z
  else if running (diff_w f) then (diff_progress f + Z.quot progress 3)%Z
  else if running (export_w f) then (diff_progress f + Z.quot progress 3)%Z
  else 0%Z.

(** The items of the phase that is running. *)
Definition progress_items (progress : Z) (msg : Text) (obj_type : ObjectType)
    (cmd : string) (f : Form) : Form :=
  let quiet := low_verbosity (inputs f) in
  if running (src_import_w f) then
    if negb quiet then new_item (fun _ => msg) src_import_item forget f else f
  else if running (import_w f) then
    if negb quiet then new_item (fun _ => msg) import_item forget f else f
  else if running (diff_w f) then
    if ((progress =? 0)%Z || (progress =? 100)%Z) && is_BaseObject obj_type
    then new_item (fun _ => msg) diff_item forget f else f
  else if running (export_w f) then
    if negb quiet then export_progress_item msg cmd f else f
  else f.

(** [if(progress_aux > step_pb->value()) step_pb->setValue(progress_aux);] *)
Definition raise_step_pb (progress_aux : Z) (f : Form) : Form :=
  if (value (step_pb f) <? progress_aux)%Z
  then on_step_pb (setValue progress_aux) f else f.

Definition updateProgress (progress : Z) (msg : string) (obj_type : ObjectType)
    (cmd : string) (f : Form) : Form :=
  let msg := Formatted msg in
  let progress_aux := progress_aux_of progress f in
  let f := progress_items progress msg obj_type cmd f in
  let f := raise_step_pb progress_aux f in
  let f := set_progress_lbl msg f in
  on_progress_pb (setValue progress) f.

(** *** Closing *)

Definition quit_event_loop (f : Form) : Form :=
  if negb (isThreadsRunning f) then set_event_loop_running false f else f.

(** [closeEvent]: the form, and whether the event is still accepted. *)
Definition closeEvent (f : Form) : Form * bool :=
  if isThreadsRunning f then (quit_event_loop f, false)
  else if process_paused f then (quit_event_loop (cancelOperation true f), true)
  else (quit_event_loop f, true).

(** *** The apply button *)

(** The lambda connected to [apply_on_server_btn] by [createThread]. *)
Definition apply_lambda (f : Form) : option Form :=
  let f := set_apply_on_server_btn false f in
  match export_w f with
  | None => None
  | Some w =>
      Some (if negb (isRunning (thread w))
            then exportDiff false (mkMsg Rejected false) f else f)
  end.

(** A click runs the lambda once for each connection made before the click. *)
Fixpoint emit_clicked (n : nat) (f : Form) : option Form :=
  match n with
  | O => Some f
  | S n =>
      match apply_lambda f with
      | None => None
      | Some f => emit_clicked n f
      end
  end.

Definition apply_on_server_clicked (f : Form) : option Form :=
  emit_clicked (apply_conns f) f.

(** *** The filters of the partial diff *)

Inductive FilterRequest :=
| FindObjects (flt : list string) (search_attr : SearchAttr)
| ListFilteredObjects (flt : ObjectFilters)
| NoRequest.

(** [applyPartialDiffFilters]: the form and what is asked of the model (the
    source is the model) or of a local import helper (the source is a
    database).  [None] where the model pointer would be null. *)
Definition applyPartialDiffFilters (f : Form) : option (Form * FilterRequest) :=
  let i := inputs f in
  let w := pd_filter_wgt i in
  if src_model_rb i then
    match loaded_model i with
    | None => None
    | Some m =>
        let search_attr :=
          if gen_filters_from_log_chk f || isMatchSignature w
          then AttrSignature else AttrName in
        let filterd_objs := findObjects m (getObjectFilters w) search_attr in
        Some (set_filtered_objs filterd_objs f,
              FindObjects (getObjectFilters w) search_attr)
    end
  else if (0 <? src_connections_cmb_index i)%Z
          && (0 <? src_database_cmb_index i)%Z then
    Some (set_filtered_objs [] f,
          ListFilteredObjects
            (mkObjectFilters (getObjectFilters w) (isOnlyMatching w)
               (isMatchSignature w) (getForceObjectsFilter w)))
  else Some (f, NoRequest).

(** [loadDiffInSQLTool]: the operation is cancelled, the script is written to
    a temporary file unless it was stored in a file ([save_ok]), and the form
    is closed. *)
Definition loadDiffInSQLTool (save_ok : bool) (f : Form) : outcome :=
  let f := cancelOperation true f in
  if negb (store_in_file_rb (inputs f)) && negb save_ok then Threw f
  else Returned (fst (closeEvent f)).

(** ** The events of a run *)

Inductive WorkerId := SrcImportW | ImportW | DiffW | ExportW.

Definition status_of (w : WorkerId) (f : Form) : option HelperStatus :=
  match w with
  | SrcImportW => option_map (fun w => import_status (helper w)) (src_import_w f)
  | ImportW => option_map (fun w => import_status (helper w)) (import_w f)
  | DiffW => option_map (fun w => diff_status (helper w)) (diff_w f)
  | ExportW => option_map (fun w => export_status (helper w)) (export_w f)
  end.

Definition thread_of (w : WorkerId) (f : Form) : option QThread :=
  match w with
  | SrcImportW => option_map thread (src_import_w f)
  | ImportW => option_map thread (import_w f)
  | DiffW => option_map thread (diff_w f)
  | ExportW => option_map thread (export_w f)
  end.

Definition set_status (w : WorkerId) (s : HelperStatus) (f : Form) : Form :=
  match w with
  | SrcImportW =>
      set_src_import_w
        (option_map (on_helper (import_set_status s)) (src_import_w f)) f
  | ImportW =>
      set_import_w (option_map (on_helper (import_set_status s)) (import_w f)) f
  | DiffW =>
      set_diff_w (option_map (on_helper (diff_set_status s)) (diff_w f)) f
  | ExportW =>
      set_export_w (option_map (on_helper (export_set_status s)) (export_w f)) f
  end.

Definition on_thread_of (w : WorkerId) (g : QThread -> QThread) (f : Form)
  : Form :=
  match w with
  | SrcImportW => set_src_import_w (option_map (on_thread g) (src_import_w f)) f
  | ImportW => set_import_w (option_map (on_thread g) (import_w f)) f
  | DiffW => set_diff_w (option_map (on_thread g) (diff_w f)) f
  | ExportW => set_export_w (option_map (on_thread g) (export_w f)) f
  end.

Definition has_status (w : WorkerId) (s : option HelperStatus) (f : Form)
  : bool :=
  match status_of w f, s with
  | Some Idle, Some Idle | Some Working, Some Working | Some Done, Some Done
  | Some Finished, Some Finished | Some Canceled, Some Canceled
  | Some Aborted, Some Aborted | None, None => true
  | _, _ => false
  end.

Definition is_importer (w : WorkerId) : bool :=
  match w with SrcImportW | ImportW => true | _ => false end.

(** What happens to the form between two clicks on Generate: the helpers end
    their work ([Completes]) or fail ([Fails]), their queued signals reach the
    slots of the form, threads that were asked to quit leave their loop, and
    the user clicks. *)
Inductive event :=
| Completes (w : WorkerId)
| Fails (w : WorkerId) (e : string)
| ImportFinished (w : WorkerId) (e : string) (catalog_ok : bool)
| DiffFinished (diff_def : string) (msgbox : Messagebox) (save_ok : bool)
| ExportFinished (list_ok : bool)
| ErrorIgnoredEmitted (err_code err_msg cmd : string)
| ProgressUpdated (progress : Z) (msg : string) (obj_type : ObjectType)
    (cmd : string)
| ThreadExited (w : WorkerId)
| CancelClicked
| ApplyOnServerClicked
| OpenInSqlToolClicked (save_ok : bool)
| CloseRequested.

(** One event.  [None]: the event cannot happen in this state (a helper that
    is not working cannot complete, a disabled button cannot be clicked), or
    the slot dereferences a null pointer.  An exception leaves the slot; the
    form goes on from the state reached. *)
Definition step (e : event) (f : Form) : option Form :=
  match e with
  | Completes w =>
      if has_status w (Some Working) f then Some (set_status w Done f) else None
  | Fails w e =>
      if has_status w (Some Working) f
      then Some (state_of (captureThreadError e (set_status w Aborted f)))
      else None
  | ImportFinished w e catalog_ok =>
      if is_importer w && has_status w (Some Done) f
      then option_map state_of
             (handleImportFinished e catalog_ok (set_status w Finished f))
      else None
  | DiffFinished diff_def msgbox save_ok =>
      if has_status DiffW (Some Done) f
      then option_map state_of
             (handleDiffFinished diff_def msgbox save_ok
                (set_status DiffW Finished f))
      else None
  | ExportFinished list_ok =>
      if has_status ExportW (Some Done) f
      then option_map state_of
             (handleExportFinished list_ok (set_status ExportW Finished f))
      else None
  | ErrorIgnoredEmitted err_code err_msg cmd =>
      Some (handleErrorIgnored err_code err_msg cmd f)
  | ProgressUpdated progress msg obj_type cmd =>
      Some (updateProgress progress msg obj_type cmd f)
  | ThreadExited w =>
      match thread_of w f with
      | Some ThreadQuitting => Some (on_thread_of w exited f)
      | _ => None
      end
  | CancelClicked =>
      if cancel_btn f then Some (cancelOperation true f) else None
  | ApplyOnServerClicked =>
      if apply_on_server_btn f && apply_on_server_btn_visible f
      then apply_on_server_clicked f else None
  | OpenInSqlToolClicked save_ok =>
      Some (state_of (loadDiffInSQLTool save_ok f))
  | CloseRequested => Some (fst (closeEvent f))
  end.

Fixpoint run (es : list event) (f : Form) : option Form :=
  match es with
  | [] => Some f
  | e :: es =>
      match step e f with
      | Some f => run es f
      | None => None
      end
  end.

(** The state a run starts from: the one [generateDiff] leaves. *)
Definition started (msgbox : Messagebox) (catalog_ok : bool) (f0 f : Form)
  : Prop :=
  proceeds msgbox f0 = true /\ state_of (generateDiff msgbox catalog_ok f0) = f.

(** ** Observers *)

(** The filters of the catalog that the import started by [importDatabase]
    works with. *)
Definition catalog_of (thread_id : nat) (f : Form) : option ObjectFilters :=
  match
    (if Nat.eqb thread_id SrcImportThread then src_import_w f else import_w f)
  with
  | Some w => selected_with (helper w)
  | None => None
  end.

(** The matching mode in force: signature matching when the filters come from
    the change log, otherwise what the filter widget says. *)
Definition matching_mode (f : Form) : bool :=
  if gen_filters_from_log_chk f then true
  else isMatchSignature (pd_filter_wgt (inputs f)).

(** The export helper was started at some time. *)
Definition export_started (f : Form) : bool :=
  match export_w f with
  | Some w =>
      match export_status (helper w) with Idle => false | _ => true end
  | None => false
  end.

(** The events by which the user asks for the script to be applied: the
    answer Apply diff to the confirmation, and the apply button. *)
Definition asks_to_apply (e : event) : bool :=
  match e with
  | DiffFinished _ msgbox _ => is_accepted (result msgbox)
  | ApplyOnServerClicked => true
  | _ => false
  end.

(** The form receives the errors that the applier ignored. *)
Definition report_ignored (errs : list Applier.IgnoredError) (f : Form) : Form :=
  fold_left
    (fun f e =>
       handleErrorIgnored (Applier.err_code e) (Applier.err_msg e)
         (Applier.err_cmd e) f)
    errs f.

(** The entries of the ignored errors in the output tree: for each error an
    item below [parent] with the code, and below that item the message and
    the command.  [pos] is the position of the first new item. *)
Fixpoint log_entries (parent : option nat) (pos : nat)
    (errs : list Applier.IgnoredError) : list TreeItem :=
  match errs with
  | [] => []
  | e :: errs =>
      mkItem (ErrorIgnored (Applier.err_code e)) parent
      :: mkItem (Formatted (Applier.err_msg e)) (Some pos)
      :: mkItem (Plain (Applier.err_cmd e)) (Some pos)
      :: log_entries parent (pos + 3) errs
  end.

(** The items of the tree that announce an ignored error. *)
Definition is_ignored_entry (it : TreeItem) : bool :=
  match item_text it with ErrorIgnored _ => true | _ => false end.

(** *** The phases of a run *)

(** The worker exists. *)
Definition present (w : WorkerId) (f : Form) : bool := is_some (status_of w f).

(** The helper is at work. *)
Definition working (w : WorkerId) (f : Form) : bool :=
  has_status w (Some Working) f.

(** The helper was started at some time. *)
Definition begun (w : WorkerId) (f : Form) : bool :=
  present w f && negb (has_status w (Some Idle) f).

(** The work of the helper is over and the form has handled its finished
    signal. *)
Definition finished (w : WorkerId) (f : Form) : bool :=
  has_status w (Some Finished) f.

(** No source import is pending: there is none (the source is the model), or
    it has finished. *)
Definition src_settled (f : Form) : bool :=
  negb (present SrcImportW f) || finished SrcImportW f.

(** The thread of the worker is in its event loop and was not asked to
    quit. *)
Definition in_loop (w : WorkerId) (f : Form) : bool :=
  match thread_of w f with Some ThreadRunning => true | _ => false end.

(** The progress that a helper reports is a percentage. *)
Definition progress_in_range (e : event) : bool :=
  match e with
  | ProgressUpdated progress _ _ _ => (0 <=? progress)%Z && (progress <=? 100)%Z
  | _ => true
  end.

(** The events that leave the workers and the step bar where they are: no
    finished signal reaches the form, no progress is reported, and the apply
    button is not clicked. *)
Definition quiet (e : event) : bool :=
  match e with
  | ImportFinished _ _ _ | DiffFinished _ _ _ | ExportFinished _
  | ProgressUpdated _ _ _ _ | ApplyOnServerClicked => false
  | _ => true
  end.

(** The step bar has the range of a percentage. *)
Definition percent_bar (pb : QProgressBar) : Prop :=
  minimum pb = 0%Z /\ maximum pb = 100%Z.

(** The order of the phases, all along a run: the target import exists only
    when no source import is pending and the source thread was asked to quit;
    the diff exists only when the imports are over and the thread of the
    target import was asked to quit. *)
Record order_inv (f : Form) : Prop := mkOrderInv {
  inv_import :
    present ImportW f = true ->
    src_settled f = true /\ in_loop SrcImportW f = false;
  inv_diff :
    present DiffW f = true ->
    src_settled f = true /\ finished ImportW f = true
    /\ in_loop ImportW f = false
}.

(** The step bar, all along a run: it stays within its range; and as long as
    the diff has not finished there is no export worker and the bar has not
    passed the share of the imports (40) and of the diff (33 more). *)
Record bar_inv (f : Form) : Prop := mkBarInv {
  inv_range :
    percent_bar (step_pb f) /\ (0 <= value (step_pb f) <= 100)%Z;
  inv_before_diff :
    finished DiffW f = false ->
    present ExportW f = false
    /\ (value (step_pb f) <= 73)%Z
    /\ (present DiffW f = true -> (diff_progress f <= 40)%Z)
    /\ (present DiffW f = false -> (value (step_pb f) <= 40)%Z)
}.

(** Between [f] and [f'] the worker [w] was neither created nor destroyed, its
    helper has not finished, and its thread was not started. *)
Definition kept (w : WorkerId) (f f' : Form) : Prop :=
  present w f' = present w f
  /\ finished w f' = finished w f
  /\ (in_loop w f' = true -> in_loop w f = true).

(** The imports and the diff are where they were. *)
Definition same_sources (f f' : Form) : Prop :=
  forall w, w <> ExportW -> kept w f f'.

(** The four workers are where they were, and the progress kept for the diff
    is the same. *)
Definition same_phase (f f' : Form) : Prop :=
  (forall w, kept w f f') /\ diff_progress f' = diff_progress f.

End DiffForm.

(** ** Sample states *)

Module Samples.
Import QStr Qt Changelog DiffForm.

(** The kinds of the children of a table, and a change log with a table, one
    of its columns and one of its indexes. *)
Definition sample_children : list ObjectType :=
  [Column; Constraint; Rule; Trigger; Index; Policy].

Definition sample_model : DatabaseModel :=
  mkModel
    (fun _ _ => ["table:public.t:wildcard"; "column:public.t.c:wildcard";
                 "index:public.t_idx:wildcard"])
    (fun _ _ => [7; 9]).

Definition unchecked : QCheckBox := mkCheck false true.

(** The options as the form shows them first: nothing checked, the two
    dependent boxes disabled. *)
Definition sample_options : DiffOptionWidgets :=
  mkOptionWidgets unchecked unchecked unchecked (mkCheck false false) unchecked
    unchecked unchecked unchecked (mkCheck false false).


Definition sample_filter_wgt : ObjectsFilterWidget :=
  mkFilterWidget ["table:public.t:wildcard"] true false [] true.

(** A model is compared with a database, the diff is applied on the server,
    and the user typed two error codes to ignore. *)
Definition sample_inputs : Inputs :=
  mkInputs false false true false false true 1 0 0 "db" "db@server" "" 
    (Some sample_model) "" false false true "42P07  23505 " false false false
    false sample_filter_wgt (fun _ _ => []).

(** Two databases are compared. *)
Definition sample_db_inputs : Inputs :=
  mkInputs false false false true false true 1 1 1 "db" "db@server"
    "src@server" None "" false false false "" false false false false
    (mkFilterWidget [] false false [] false) (fun _ _ => []).

Definition bar0 : QProgressBar := mkBar 0 100 0.

Definition idle_form (i : Inputs) : Form :=
  mkForm i None None None None [] None None None None WaitingToStart
    WaitingToStart bar0 bar0 0 0 0 false "" true false true true true false 0
    (mkTabs (fun _ => true) 0) true false [] sample_options.

Definition sample_form : Form := idle_form sample_inputs.

Definition sample_db_form : Form := idle_form sample_db_inputs.

(** The filters of [sample_form] were generated from the change log. *)
Definition changelog_form : Form := set_gen_filters_from_log_chk true sample_form.

(** [sample_form] while its diff runs. *)
Definition diffing_form : Form := diffModels sample_form.

Definition no_answer : Messagebox := mkMsg Rejected false.
Definition apply_diff : Messagebox := mkMsg Accepted false.
Definition preview_diff : Messagebox := mkMsg Rejected false.
Definition cancel_diff : Messagebox := mkMsg Rejected true.

(** A script of three statements: the second fails with a code that is
    ignored. *)
Definition sample_script : list Applier.Statement :=
  [Applier.mkStatement "CREATE TABLE a ();" Applier.Executed;
   Applier.mkStatement "CREATE TABLE b ();"
     (Applier.Refused "42P07" "relation b already exists");
   Applier.mkStatement "CREATE TABLE c ();" Applier.Executed].

Definition ignore_42P07 (code : string) : bool := String.eqb code "42P07".

(** A sample value for the built-in default of the applier: the code of
    PostgreSQL for a duplicate object, whatever the flag is. *)
Definition sample_duplicate (flag : bool) (code : string) : bool :=
  String.eqb code "42710".

(** A script whose first statement fails because the object exists, and whose
    second statement fails with a code that the user of [sample_form] gave. *)
Definition duplicates_script : list Applier.Statement :=
  [Applier.mkStatement "CREATE ROLE r;"
     (Applier.Refused "42710" "role r already exists");
   Applier.mkStatement "CREATE TABLE b ();"
     (Applier.Refused "42P07" "relation b already exists");
   Applier.mkStatement "CREATE TABLE c ();" Applier.Executed].

(** The state that [generateDiff] leaves when no question is asked or the
    question is not cancelled, and the catalog answers. *)
Definition start_of (f0 : Form) : Form :=
  state_of (generateDiff no_answer true f0).

Definition state_after (es : list event) (f : Form) : Form :=
  match run es f with Some f' => f' | None => f end.

(** Two databases are compared: the source import ends and its thread leaves
    its loop, then the target import ends. *)
Definition db_run : list event :=
  [Completes SrcImportW; ImportFinished SrcImportW "" true;
   ThreadExited SrcImportW; Completes ImportW; ImportFinished ImportW "" true].

Definition db_diffing : Form := state_after db_run (start_of sample_db_form).

(** The same, but the finished signal of the target import reaches the form
    while the source thread has not yet left its loop. *)
Definition db_hasty_run : list event :=
  [Completes SrcImportW; ImportFinished SrcImportW "" true;
   Completes ImportW; ImportFinished ImportW "" true].

(** A model is compared with a database: the import reports its end, its
    thread leaves its loop, and the diff reports that it is half way. *)
Definition model_run : list event :=
  [ProgressUpdated 100 "objects imported" Table ""; Completes ImportW;
   ImportFinished ImportW "" true; ThreadExited ImportW;
   ProgressUpdated 50 "comparing" Table ""].

Definition half_compared : Form := state_after model_run (start_of sample_form).

Definition compared : event := ProgressUpdated 100 "compared" Table "".

End Samples.

(** ** The life of the workers *)

Module Lifecycle.
Import QStr Qt DiffForm.

(** The worker that [createThread] makes for an id: the three ids of the
    imports and the diff have their branch, every other id takes the last
    one. *)
Definition worker_named (thread_id : nat) : WorkerId :=
  if Nat.eqb thread_id SrcImportThread then SrcImportW
  else if Nat.eqb thread_id ImportThread then ImportW
  else if Nat.eqb thread_id DiffThread then DiffW
  else ExportW.

(** The thread and the status of the helper of a worker. *)
Definition view (w : WorkerId) (f : Form) : option (QThread * HelperStatus) :=
  match thread_of w f, status_of w f with
  | Some t, Some s => Some (t, s)
  | _, _ => None
  end.

(** [thread && thread->isRunning()] for the thread of a worker. *)
Definition thread_running (w : WorkerId) (f : Form) : bool :=
  match thread_of w f with Some t => isRunning t | None => false end.

(** [if(helper && thread->isRunning()) { helper->cancel(); thread->quit(); }]
    seen through [view]. *)
Definition cancelled (v : option (QThread * HelperStatus))
  : option (QThread * HelperStatus) :=
  match v with
  | Some (t, s) => Some (if isRunning t then (quit t, cancel_status s) else (t, s))
  | None => None
  end.

(** The form without its workers. *)
Definition without_workers (f : Form) : Form :=
  set_export_w None
    (set_diff_w None (set_import_w None (set_src_import_w None f))).

(** The worker whose thread and helper a call of [destroyThread] deletes.
    The branch of the diff sets its two pointers to null before it deletes
    them, so it deletes nothing. *)
Definition deleted_by (thread_id : nat) (f : Form) : option WorkerId :=
  if Nat.eqb thread_id SrcImportThread && is_some (src_import_w f) then
    Some SrcImportW
  else if Nat.eqb thread_id ImportThread && is_some (import_w f) then
    Some ImportW
  else if Nat.eqb thread_id DiffThread && is_some (diff_w f) then
    None
  else if is_some (export_w f) then
    Some ExportW
  else None.

(** [destroyThread] in full.  [DiffForm.destroyThread] gives the pointers of
    the form after the call.  The call does not return when it deletes a
    [QThread] that is still running: the destructor of [QThread] then ends
    the program ("QThread: Destroyed while thread is still running").
    [None] stands for that end. *)
Definition destroyThread_full (thread_id : nat) (f : Form) : option Form :=
  match deleted_by thread_id f with
  | Some w =>
      if thread_running w f then None else Some (destroyThread thread_id f)
  | None => Some (destroyThread thread_id f)
  end.

(** [~ModelDatabaseDiffForm], for the workers: the three calls of
    [destroyThread]. *)
Definition destructor (f : Form) : option Form :=
  match destroyThread_full ImportThread f with
  | None => None
  | Some f =>
      match destroyThread_full DiffThread f with
      | None => None
      | Some f => destroyThread_full ExportThread f
      end
  end.

(** [importDatabase] in full.  An exception can leave the slot at two places
    after the thread was created: at [conn.switchToDatabase], before the
    label and the item of the step are set ([conn_ok] is false), and at the
    calls on the connection and on the catalog that follow the item
    ([catalog_ok] is false).  [DiffForm.importDatabase] is the slot when the
    first place is passed. *)
Definition importDatabase_full (thread_id : nat) (conn_ok catalog_ok : bool)
    (f : Form) : outcome :=
  if negb (Nat.eqb thread_id SrcImportThread)
     && negb (Nat.eqb thread_id ImportThread)
  then Threw f
  else
    let is_src := Nat.eqb thread_id SrcImportThread in
    let f := createThread thread_id f in
    if negb conn_ok then Threw f
    else
      let f :=
        label_step
          (fun curr total =>
             StepImporting curr total
               (if is_src then src_connection_id (inputs f)
                else connection_id (inputs f))) f in
      let f :=
        new_item step_lbl top_level
          (if is_src then set_src_import_item else set_import_item) f in
      if negb catalog_ok then Threw f
      else
        let go :=
          start_import (catalog_filters f) (import_options_of (inputs f)) in
        Returned
          (if is_src then on_src_import_w (option_map go) f
           else on_import_w (option_map go) f).

(** The threads that [generateDiff] deletes run: those of the imports and of
    the export. *)
Definition deletes_running (f : Form) : bool :=
  thread_running SrcImportW f || thread_running ImportW f
  || thread_running ExportW f.

(** The four calls of [destroyThread] in [generateDiff]. *)
Definition destroy_all_full (f : Form) : option Form :=
  match destroyThread_full SrcImportThread f with
  | None => None
  | Some f =>
      match destroyThread_full ImportThread f with
      | None => None
      | Some f =>
          match destroyThread_full DiffThread f with
          | None => None
          | Some f => destroyThread_full ExportThread f
          end
      end
  end.

(** [generateDiff] in full: with the end of the program in [destroyThread]
    and with the two exceptions of [importDatabase]. *)
Definition generateDiff_full (msgbox : Messagebox) (conn_ok catalog_ok : bool)
    (f : Form) : option outcome :=
  if negb (proceeds msgbox f) then Some (Returned f)
  else
    let f :=
      if asks f && is_accepted (result msgbox)
      then on_options (option_step CheckThemAndDiff) f else f in
    match destroy_all_full f with
    | None => None
    | Some f =>
        let f := clearOutput f in
        let f := set_curr_step 1%Z f in
        let f :=
          if low_verbosity (inputs f)
          then new_item (fun _ => LowVerbositySet) top_level forget f
          else f in
        let f :=
          set_total_steps (if src_model_rb (inputs f) then 3 else 4)%Z f in
        Some
          match
            importDatabase_full
              (if src_database_rb (inputs f) then SrcImportThread
               else ImportThread) conn_ok catalog_ok f
          with
          | Threw f => Threw f
          | Returned f => Returned (lock_buttons f)
          end
    end.

End Lifecycle.

(** ** The error codes typed by the user *)

Module ErrorCodes.
Import QStr.

(** No character of the string is white space. *)
Fixpoint no_space (s : string) : bool :=
  match s with
  | EmptyString => true
  | String c s' => negb (isSpace c) && no_space s'
  end.

(** Every character of the string is white space. *)
Fixpoint no_word (s : string) : bool :=
  match s with
  | EmptyString => true
  | String c s' => isSpace c && no_word s'
  end.

(** A code: not empty, and without white space. *)
Definition is_code (s : string) : bool := negb (isEmpty s) && no_space s.

(** The string is empty or begins with white space. *)
Definition starts_blank (s : string) : bool :=
  match s with
  | EmptyString => true
  | String c _ => isSpace c
  end.

(** The words of a text: [Words s ws] says that [s] is made of the codes [ws]
    in this order, with white space before, between and after them, and of
    nothing else. *)
Inductive Words : string -> list string -> Prop :=
| Words_end s : no_word s = true -> Words s []
| Words_word b w rest ws :
    no_word b = true -> is_code w = true -> starts_blank rest = true ->
    Words rest ws -> Words (b ++ w ++ rest) (w :: ws).

End ErrorCodes.

(** ** Presets *)

From Stdlib Require DecimalString DecimalNat.

Module Presets.
Import QStr Qt DiffForm.

(** [Attributes::False], the text of a flag that is not set (declared in
    libutils, like [Attributes::True]). *)
Definition AttrFalse : string := "false".

(** The keys that [savePreset] writes and [selectPreset] reads; the keys of the
    options of the diff are those of [Attribute]. *)
Inductive PresetKey :=
| Name | CurrentModel | InputDatabase | CompareToDatabase | Version
| StoreInFile | ApplyOnServer
| OptionKey (a : Attribute)
| ImportSysObjs | ImportExtObjs | IgnoreDuplicErrors | IgnoreImportErrors
| IgnoreErrorCodes.

(** An [attribs_map] with all the keys of a preset. *)
Definition Preset := PresetKey -> string.

(** The keys of the options, as [DiffForm.selectPreset] reads them. *)
Definition option_attribs (conf : Preset) : attribs_map :=
  fun a => conf (OptionKey a).

(** [chk->isChecked() ? Attributes::True : Attributes::False] and
    [rb->isChecked() ? Attributes::True : ""]. *)
Definition flag (b : bool) : string := if b then AttrTrue else AttrFalse.
Definition mark (b : bool) : string := if b then AttrTrue else "".

(** A combo box that is not editable: its items and the index of the current
    one, -1 when there is none. *)
Record QComboBox := mkCombo { cmb_items : list string; cmb_index : Z }.

Definition count (c : QComboBox) : Z := Z.of_nat (List.length (cmb_items c)).

Definition itemText (i : Z) (c : QComboBox) : string :=
  if (0 <=? i)%Z then nth (Z.to_nat i) (cmb_items c) "" else "".

Definition currentText (c : QComboBox) : string := itemText (cmb_index c) c.

(** [findText(text, Qt::MatchExactly) >= 0]. *)
Definition hasText (text : string) (items : list string) : bool :=
  existsb (String.eqb text) items.

Fixpoint remove_nth {A} (n : nat) (l : list A) : list A :=
  match l, n with
  | [], _ => []
  | _ :: l, O => l
  | x :: l, S n => x :: remove_nth n l
  end.

(** The items after [removeItem(index)]; an index out of range removes
    nothing. *)
Definition removeItem (index : Z) (items : list string) : list string :=
  if (0 <=? index)%Z then remove_nth (Z.to_nat index) items else items.

(** What [savePreset] reads besides the options and the widgets of [Inputs]:
    the texts ["%1@%2"] that [QString::arg] builds for the source and for the
    database to compare with, the box of the version and the text of its
    combo box. *)
Record PresetWidgets := mkPresetWidgets {
  input_database_text : string;
  compare_to_database_text : string;
  pgsql_ver_chk : bool;
  pgsql_ver_text : string
}.

(** The preset that [savePreset] builds from the widgets. *)
Definition saved_conf (fmt_name : string) (i : Inputs) (o : DiffOptionWidgets)
    (w : PresetWidgets) : Preset :=
  fun k =>
    match k with
    | Name => fmt_name
    | CurrentModel => mark (src_model_rb i)
    | InputDatabase => if src_database_rb i then input_database_text w else ""
    | CompareToDatabase => compare_to_database_text w
    | Version => if pgsql_ver_chk w then pgsql_ver_text w else ""
    | StoreInFile => mark (store_in_file_rb i)
    | ApplyOnServer => mark (apply_on_server_rb i)
    | OptionKey KeepClusterObjs => flag (checked (keep_cluster_objs_chk o))
    | OptionKey KeepObjsPerms => flag (checked (keep_obj_perms_chk o))
    | OptionKey DontDropMissingObjs =>
        flag (checked (dont_drop_missing_objs_chk o))
    | OptionKey DropMissingColsConstrs =>
        flag (checked (drop_missing_cols_constr_chk o))
    | OptionKey PreserveDbName => flag (checked (preserve_db_name_chk o))
    | OptionKey DropTruncCascade => flag (checked (cascade_mode_chk o))
    | OptionKey ReuseSequences => flag (checked (reuse_sequences_chk o))
    | OptionKey ForceObjsRecreation => flag (checked (force_recreation_chk o))
    | OptionKey RecreateUnmodObjs => flag (checked (recreate_unmod_chk o))
    | ImportSysObjs => flag (import_sys_objs_chk i)
    | ImportExtObjs => flag (import_ext_objs_chk i)
    | IgnoreDuplicErrors => flag (ignore_duplic_chk i)
    | IgnoreImportErrors => flag (ignore_errors_chk i)
    | IgnoreErrorCodes => error_codes_edt i
    end.

(** The boxes of the import and of the export, and the field of the error
    codes, which the last lines of [selectPreset] set. *)
Record ImportExportBoxes := mkBoxes {
  box_import_sys_objs : bool;
  box_import_ext_objs : bool;
  box_ignore_duplic : bool;
  box_ignore_errors : bool;
  box_ignore_error_codes : bool;
  text_error_codes : string
}.

Definition boxes_of (i : Inputs) : ImportExportBoxes :=
  mkBoxes (import_sys_objs_chk i) (import_ext_objs_chk i)
    (ignore_duplic_chk i) (ignore_errors_chk i) (ignore_error_codes_chk i)
    (error_codes_edt i).

(** The last lines of [selectPreset].  As for the options of the diff
    ([DiffForm.selectPreset]), they are reached only when no call of
    [listDatabases] threw ([dbs_listed]); otherwise the boxes stay as they
    are. *)
Definition selectPreset_boxes (dbs_listed : bool) (conf : Preset)
    (b : ImportExportBoxes) : ImportExportBoxes :=
  if negb dbs_listed then b else
  mkBoxes
    (String.eqb (conf ImportSysObjs) AttrTrue)
    (String.eqb (conf ImportExtObjs) AttrTrue)
    (String.eqb (conf IgnoreDuplicErrors) AttrTrue)
    (String.eqb (conf IgnoreImportErrors) AttrTrue)
    (negb (isEmpty (conf IgnoreErrorCodes)))
    (conf IgnoreErrorCodes).

(** [config_params]: a [std::map] from the names of the presets to the
    presets, kept in the order of its keys. *)
Definition ConfigParams := list (string * Preset).

Fixpoint lookup (k : string) (m : ConfigParams) : option Preset :=
  match m with
  | [] => None
  | (k', v) :: m => if String.eqb k k' then Some v else lookup k m
  end.

Definition keys (m : ConfigParams) : list string := map fst m.

(** [config_params.erase(k)]. *)
Fixpoint erase (k : string) (m : ConfigParams) : ConfigParams :=
  match m with
  | [] => []
  | (k', v) :: m => if String.eqb k k' then erase k m else (k', v) :: erase k m
  end.

(** [config_params[k] = v]. *)
Fixpoint assign (k : string) (v : Preset) (m : ConfigParams) : ConfigParams :=
  match m with
  | [] => [(k, v)]
  | (k', v') :: m' =>
      match String.compare k k' with
      | Eq => (k, v) :: m'
      | Lt => (k, v) :: m
      | Gt => (k', v') :: assign k v m'
      end
  end.

(** [QString::number(idx)]. *)
Definition number (idx : nat) : string :=
  DecimalString.NilEmpty.string_of_uint (Nat.to_uint idx).

(** [while(presets_cmb->findText(fmt_name, Qt::MatchExactly) >= 0)
       fmt_name = name + QString::number(++idx);]
    [fuel] bounds the number of turns. *)
Fixpoint disambiguate (fuel : nat) (items : list string) (name : string)
    (idx : nat) (fmt_name : string) : option string :=
  if hasText fmt_name items then
    match fuel with
    | O => None
    | S fuel =>
        disambiguate fuel items name (S idx) (name ++ number (S idx))
    end
  else Some fmt_name.

(** The names that the loop tries: the name, then the name with 1, 2, ... *)
Definition candidate (name : string) (idx : nat) : string :=
  match idx with O => name | S _ => name ++ number idx end.

(** What [savePreset] works on. *)
Record PresetForm := mkPresetForm {
  config_params : ConfigParams;
  presets_cmb : QComboBox;
  preset_name_edt : string;
  is_adding_new_preset : bool
}.

(** The name typed or taken from the combo box, and the presets and the
    items of the combo box once the preset that is edited is removed. *)
Definition preset_to_replace (p : PresetForm)
  : string * ConfigParams * list string :=
  if negb (is_adding_new_preset p) then
    (if isEmpty (preset_name_edt p) then currentText (presets_cmb p)
     else preset_name_edt p,
     erase (currentText (presets_cmb p)) (config_params p),
     removeItem (cmb_index (presets_cmb p)) (cmb_items (presets_cmb p)))
  else
    (preset_name_edt p, config_params p, cmb_items (presets_cmb p)).

(** [savePreset] up to [config_params[fmt_name] = conf]: the name under which
    the preset is stored, and the presets.  [conf_of] is the preset built from
    the widgets for a name.  [None]: the loop was stopped by [fuel]. *)
Definition savePreset (fuel : nat) (conf_of : string -> Preset)
    (p : PresetForm) : option (string * ConfigParams) :=
  let '(name, params, items) := preset_to_replace p in
  match disambiguate fuel items name 0 name with
  | None => None
  | Some fmt_name => Some (fmt_name, assign fmt_name (conf_of fmt_name) params)
  end.

(** Two presets listed in the combo box; the user adds a preset under the name
    of the first. *)
Definition sample_preset : Preset := fun _ => AttrFalse.

Definition sample_preset_form : PresetForm :=
  mkPresetForm [("a", sample_preset); ("a1", sample_preset)]
    (mkCombo ["a"; "a1"] 0) "a" true.

End Presets.

(** ** The items of the differences *)

Module DiffInfos.
Import QStr Qt.

(** The four buttons that count and filter the differences. *)
Inductive DiffButton := create_tb | drop_tb | alter_tb | ignore_tb.

Record QToolButton := mkTool { isChecked : bool; text : string }.

(** A child of [diff_item]: its text, its data for [Qt::UserRole] (none for
    the items that [updateProgress] adds) and whether it is hidden. *)
Record InfoItem := mkInfo {
  info_text : string;
  info_data : option nat;
  isHidden : bool
}.

(** [data(0, Qt::UserRole).toUInt()]: a variant that is not set converts
    to zero. *)
Definition toUInt (it : InfoItem) : nat :=
  match info_data it with Some n => n | None => 0 end.

Definition setHidden (b : bool) (it : InfoItem) : InfoItem :=
  mkInfo (info_text it) (info_data it) b.

(** What [updateDiffInfo] and [filterDiffInfos] work on: the buttons, the
    children of [diff_item] ([None] while the pointer is null), the items at
    the top of the tree, and whether the diff helper exists. *)
Record InfoForm := mkInfoForm {
  low_verbosity : bool;
  button : DiffButton -> QToolButton;
  diff_item_children : option (list InfoItem);
  top_level_items : list InfoItem;
  diff_helper : bool
}.

Definition set_button (b : DiffButton) (t : QToolButton) (f : InfoForm)
  : InfoForm :=
  mkInfoForm (low_verbosity f)
    (fun b' =>
       match b, b' with
       | create_tb, create_tb | drop_tb, drop_tb | alter_tb, alter_tb
       | ignore_tb, ignore_tb => t
       | _, _ => button f b'
       end)
    (diff_item_children f) (top_level_items f) (diff_helper f).

Section Kinds.

(** [ObjectsDiffInfo::CreateObject], [DropObject], [AlterObject] and
    [IgnoreObject] (declared in libcore), by the button of each. *)
Variable kind : DiffButton -> nat.

(** [buttons[diff_type]] in [updateDiffInfo]: the map is built from the four
    pairs in this order, and a key that it does not hold gives a null
    pointer. *)
Definition button_of (diff_type : nat) : option DiffButton :=
  if Nat.eqb diff_type (kind create_tb) then Some create_tb
  else if Nat.eqb diff_type (kind drop_tb) then Some drop_tb
  else if Nat.eqb diff_type (kind alter_tb) then Some alter_tb
  else if Nat.eqb diff_type (kind ignore_tb) then Some ignore_tb
  else None.

(** The new item of [updateDiffInfo], below [diff_item] or at the top of the
    tree when [diff_item] is null. *)
Definition add_item (it : InfoItem) (f : InfoForm) : InfoForm :=
  match diff_item_children f with
  | Some children =>
      mkInfoForm (low_verbosity f) (button f) (Some (children ++ [it])%list)
        (top_level_items f) (diff_helper f)
  | None =>
      mkInfoForm (low_verbosity f) (button f) None
        (top_level_items f ++ [it])%list (diff_helper f)
  end.

(** [updateDiffInfo]; [count] is [diff_helper->getDiffTypeCount(diff_type)]
    as a text.  [None]: the button is a null pointer and is used. *)
Definition updateDiffInfo (diff_type : nat) (msg count : string)
    (f : InfoForm) : option InfoForm :=
  let btn := button_of diff_type in
  let f1 :=
    if diff_helper f then
      match btn with
      | Some b => Some (set_button b (mkTool (isChecked (button f b)) count) f)
      | None => None
      end
    else Some f in
  match f1 with
  | None => None
  | Some f1 =>
      if negb (low_verbosity f) then
        match btn with
        | Some b =>
            Some (add_item
                    (mkInfo msg (Some diff_type)
                       (negb (isChecked (button f1 b)))) f1)
        | None => None
        end
      else Some f1
  end.

(** [filterDiffInfos] with the button that sent the signal.  [None]:
    [diff_item] is a null pointer. *)
Definition filterDiffInfos (btn : DiffButton) (f : InfoForm)
  : option InfoForm :=
  match diff_item_children f with
  | None => None
  | Some children =>
      Some (mkInfoForm (low_verbosity f) (button f)
              (Some
                 (map (fun it =>
                         if Nat.eqb (toUInt it) (kind btn)
                         then setHidden (negb (isChecked (button f btn))) it
                         else it) children))
              (top_level_items f) (diff_helper f))
  end.

(** The user toggles a button: [toggled(bool)] runs [filterDiffInfos]. *)
Definition toggle (btn : DiffButton) (f : InfoForm) : option InfoForm :=
  let b := button f btn in
  filterDiffInfos btn (set_button btn (mkTool (negb (isChecked b)) (text b)) f).

(** [updateProgress] adds an item without data below [diff_item]. *)
Definition progress_item (msg : string) (f : InfoForm) : InfoForm :=
  add_item (mkInfo msg None false) f.

Inductive InfoEvent :=
| DiffInfo (diff_type : nat) (msg count : string)
| Toggled (btn : DiffButton)
| Progress (msg : string).

Definition info_step (e : InfoEvent) (f : InfoForm) : option InfoForm :=
  match e with
  | DiffInfo diff_type msg count => updateDiffInfo diff_type msg count f
  | Toggled btn => toggle btn f
  | Progress msg => Some (progress_item msg f)
  end.

Fixpoint info_run (es : list InfoEvent) (f : InfoForm) : option InfoForm :=
  match es with
  | [] => Some f
  | e :: es =>
      match info_step e f with
      | Some f => info_run es f
      | None => None
      end
  end.

(** Every item of a difference below [diff_item] is hidden exactly when the
    button of its kind is not checked. *)
Definition filtered (f : InfoForm) : Prop :=
  forall children it b,
    diff_item_children f = Some children -> In it children ->
    info_data it = Some (kind b) ->
    isHidden it = negb (isChecked (button f b)).

End Kinds.

(** Sample values for the four kinds, a form whose buttons are all checked
    and whose diff item has no child, and a diff that reports a table to
    create and a table to drop while the user hides the tables to drop and
    shows them again. *)
Definition sample_kind (b : DiffButton) : nat :=
  match b with create_tb => 0 | drop_tb => 1 | alter_tb => 2 | ignore_tb => 3
  end.

Definition sample_info_form : InfoForm :=
  mkInfoForm false (fun _ => mkTool true "0") (Some []) [] true.

Definition sample_infos : list InfoEvent :=
  [DiffInfo 0 "create table a" "1"; Toggled drop_tb;
   DiffInfo 1 "drop table b" "1"; Progress "comparing"; Toggled create_tb;
   Toggled drop_tb].

Definition sample_info_end : InfoForm :=
  match info_run sample_kind sample_infos sample_info_form with
  | Some f => f
  | None => sample_info_form
  end.

End DiffInfos.

(** ** The models that the form holds *)

Module Models.

(** A [DatabaseModel] that the form points to: the model of the design view,
    which the form receives by [setModelWidget] and which outlives it, or a
    model that the form has made by [new DatabaseModel], numbered in the order
    of the allocations. *)
Inductive ModelRef := OfDesign (n : nat) | Allocated (n : nat).

Definition same_model (a b : option ModelRef) : bool :=
  match a, b with
  | Some (OfDesign n), Some (OfDesign m) | Some (Allocated n), Some (Allocated m)
    => Nat.eqb n m
  | None, None => true
  | _, _ => false
  end.

(** The three pointers of the form, the number of models allocated so far,
    and the models deleted so far, the last one first. *)
Record ModelStore := mkStore {
  loaded_model : option ModelRef;
  source_model : option ModelRef;
  imported_model : option ModelRef;
  allocated : nat;
  deleted : list ModelRef
}.

(** The form as its constructor leaves it. *)
Definition constructed : ModelStore := mkStore None None None 0 [].

(** [delete p]. *)
Definition delete (p : ModelRef) (s : ModelStore) : ModelStore :=
  mkStore (loaded_model s) (source_model s) (imported_model s) (allocated s)
    (p :: deleted s).

(** [destroyModel]. *)
Definition destroyModel (src_database_rb : bool) (s : ModelStore)
  : ModelStore :=
  let s :=
    match imported_model s with Some p => delete p s | None => s end in
  let s :=
    match source_model s with
    | Some p =>
        if negb (same_model (source_model s) (loaded_model s))
           && src_database_rb
        then mkStore (loaded_model s) None (imported_model s) (allocated s)
               (p :: deleted s)
        else s
    | None => s
    end in
  mkStore (loaded_model s) (source_model s) None (allocated s) (deleted s).

(** [setModelWidget]: with a model widget, [source_model=loaded_model=] its
    model; without one, the pointers stay. *)
Definition setModelWidget (model_wgt : option nat) (s : ModelStore)
  : ModelStore :=
  match model_wgt with
  | Some n =>
      mkStore (Some (OfDesign n)) (Some (OfDesign n)) (imported_model s)
        (allocated s) (deleted s)
  | None => s
  end.

(** The lines of [importDatabase] that allocate the model to fill; they are
    reached when the catalog was read. *)
Definition importDatabase_models (is_src catalog_ok : bool) (s : ModelStore)
  : ModelStore :=
  if negb catalog_ok then s
  else if is_src then
    mkStore (loaded_model s) (Some (Allocated (allocated s)))
      (imported_model s) (S (allocated s)) (deleted s)
  else
    mkStore (loaded_model s) (source_model s)
      (Some (Allocated (allocated s))) (S (allocated s)) (deleted s).

(** The lines of [generateDiff] on the models, when it goes on to the
    import. *)
Definition generateDiff_models (src_model_rb src_database_rb catalog_ok : bool)
    (s : ModelStore) : ModelStore :=
  let s := destroyModel src_database_rb s in
  let s :=
    if src_model_rb
    then mkStore (loaded_model s) (loaded_model s) (imported_model s)
           (allocated s) (deleted s)
    else s in
  importDatabase_models src_database_rb catalog_ok s.

Inductive ModelEvent :=
| SetModelWidget (model_wgt : option nat)
| GenerateDiff (src_model_rb src_database_rb catalog_ok : bool)
| ImportTarget (catalog_ok : bool)
| Destructor (src_database_rb : bool).

(** [ImportTarget] is the call of [importDatabase(ImportThread)] in
    [handleImportFinished]; the destructor calls [destroyModel]. *)
Definition model_step (e : ModelEvent) (s : ModelStore) : ModelStore :=
  match e with
  | SetModelWidget model_wgt => setModelWidget model_wgt s
  | GenerateDiff m d ok => generateDiff_models m d ok s
  | ImportTarget ok => importDatabase_models false ok s
  | Destructor d => destroyModel d s
  end.

Definition run_models (es : list ModelEvent) (s : ModelStore) : ModelStore :=
  fold_left (fun s e => model_step e s) es s.

(** The pointer is null or points to a model that was not deleted. *)
Definition live (p : option ModelRef) (s : ModelStore) : Prop :=
  match p with Some r => ~ In r (deleted s) | None => True end.

(** What holds of the pointers after every event: a deleted model was
    allocated by the form; no model was deleted twice; the source and the
    imported model are not deleted, and were allocated before when the form
    made them; they are not the same model; the loaded model is of the design
    view, and so is the source model only when it is the loaded one. *)
Record store_inv (s : ModelStore) : Prop := mkStoreInv {
  inv_deleted :
    forall r, In r (deleted s) -> exists n, r = Allocated n /\ n < allocated s;
  inv_once : NoDup (deleted s);
  inv_source : live (source_model s) s;
  inv_imported : live (imported_model s) s;
  inv_source_new :
    forall n, source_model s = Some (Allocated n) -> n < allocated s;
  inv_imported_new :
    imported_model s = None
    \/ exists n, imported_model s = Some (Allocated n) /\ n < allocated s;
  inv_apart :
    source_model s <> None -> source_model s <> imported_model s;
  inv_loaded : forall n, loaded_model s <> Some (Allocated n);
  inv_of_design :
    forall n, source_model s = Some (OfDesign n) ->
              loaded_model s = source_model s
}.

End Models.

(** ** The threads, helpers and connection that the form makes *)

Module Objects.
Import DiffForm.

(** An object that the form has made by [new]: the thread and the helper of a
    worker, which one branch of [createThread] makes together and one branch
    of [destroyThread] deletes together, or the connection of the export.
    The objects are numbered in the order in which they are made. *)
Inductive Obj := WorkerObj (w : WorkerId) (n : nat) | ConnectionObj (n : nat).

(** The pointers of the form to the objects it has made ([None] for null),
    the number of objects made so far, and the objects deleted so far, the
    last one first. *)
Record ObjStore := mkObjs {
  src_import_ptr : option nat;
  import_ptr : option nat;
  diff_ptr : option nat;
  export_ptr : option nat;
  export_conn : option nat;
  made : nat;
  deleted_objs : list Obj
}.

(** The form as its constructor leaves it. *)
Definition no_objects : ObjStore := mkObjs None None None None None 0 [].

Definition set_src_import_ptr (p : option nat) (s : ObjStore) : ObjStore :=
  mkObjs p (import_ptr s) (diff_ptr s) (export_ptr s) (export_conn s)
    (made s) (deleted_objs s).

Definition set_import_ptr (p : option nat) (s : ObjStore) : ObjStore :=
  mkObjs (src_import_ptr s) p (diff_ptr s) (export_ptr s) (export_conn s)
    (made s) (deleted_objs s).

Definition set_diff_ptr (p : option nat) (s : ObjStore) : ObjStore :=
  mkObjs (src_import_ptr s) (import_ptr s) p (export_ptr s) (export_conn s)
    (made s) (deleted_objs s).

Definition set_export_ptr (p : option nat) (s : ObjStore) : ObjStore :=
  mkObjs (src_import_ptr s) (import_ptr s) (diff_ptr s) p (export_conn s)
    (made s) (deleted_objs s).

Definition set_export_conn (p : option nat) (s : ObjStore) : ObjStore :=
  mkObjs (src_import_ptr s) (import_ptr s) (diff_ptr s) (export_ptr s) p
    (made s) (deleted_objs s).

(** [new]: the number of the new object, and the store that counts it. *)
Definition new_obj (s : ObjStore) : nat * ObjStore :=
  (made s,
   mkObjs (src_import_ptr s) (import_ptr s) (diff_ptr s) (export_ptr s)
     (export_conn s) (S (made s)) (deleted_objs s)).

(** [delete p]: nothing happens for a null pointer. *)
Definition delete_obj (p : option Obj) (s : ObjStore) : ObjStore :=
  match p with
  | Some o =>
      mkObjs (src_import_ptr s) (import_ptr s) (diff_ptr s) (export_ptr s)
        (export_conn s) (made s) (o :: deleted_objs s)
  | None => s
  end.

(** [createThread]: the pointers of the branch get new objects; what they
    pointed to is not looked at. *)
Definition createThread_objects (thread_id : nat) (s : ObjStore) : ObjStore :=
  let (n, s) := new_obj s in
  if Nat.eqb thread_id SrcImportThread then set_src_import_ptr (Some n) s
  else if Nat.eqb thread_id ImportThread then set_import_ptr (Some n) s
  else if Nat.eqb thread_id DiffThread then set_diff_ptr (Some n) s
  else set_export_ptr (Some n) s.

(** [destroyThread].  The branches of the imports and of the export delete
    and then set the pointers to null; the branch of the diff sets the
    pointers to null first, so that its two [delete] get null pointers. *)
Definition destroyThread_objects (thread_id : nat) (s : ObjStore) : ObjStore :=
  if Nat.eqb thread_id SrcImportThread && is_some (src_import_ptr s) then
    let s := delete_obj (option_map (WorkerObj SrcImportW) (src_import_ptr s)) s in
    set_src_import_ptr None s
  else if Nat.eqb thread_id ImportThread && is_some (import_ptr s) then
    let s := delete_obj (option_map (WorkerObj ImportW) (import_ptr s)) s in
    set_import_ptr None s
  else if Nat.eqb thread_id DiffThread && is_some (diff_ptr s) then
    let s := set_diff_ptr None s in
    delete_obj (option_map (WorkerObj DiffW) (diff_ptr s)) s
  else if is_some (export_ptr s) then
    let s :=
      if is_some (export_conn s) then
        let s := delete_obj (option_map ConnectionObj (export_conn s)) s in
        set_export_conn None s
      else s in
    let s := delete_obj (option_map (WorkerObj ExportW) (export_ptr s)) s in
    set_export_ptr None s
  else s.

(** [export_conn=new Connection] in [exportDiff]. *)
Definition new_connection (s : ObjStore) : ObjStore :=
  let (n, s) := new_obj s in set_export_conn (Some n) s.

(** The calls that make and delete the objects, in any order. *)
Inductive ObjEvent :=
| CreateThread (thread_id : nat)
| DestroyThread (thread_id : nat)
| NewConnection.

Definition obj_step (e : ObjEvent) (s : ObjStore) : ObjStore :=
  match e with
  | CreateThread thread_id => createThread_objects thread_id s
  | DestroyThread thread_id => destroyThread_objects thread_id s
  | NewConnection => new_connection s
  end.

Definition run_objects (es : list ObjEvent) (s : ObjStore) : ObjStore :=
  fold_left (fun s e => obj_step e s) es s.

(** The pointer of a worker, and the object it points to. *)
Definition ptr_of (w : WorkerId) (s : ObjStore) : option nat :=
  match w with
  | SrcImportW => src_import_ptr s
  | ImportW => import_ptr s
  | DiffW => diff_ptr s
  | ExportW => export_ptr s
  end.

Definition number_of (o : Obj) : nat :=
  match o with WorkerObj _ n | ConnectionObj n => n end.

(** What holds of the objects after every call: an object is deleted once,
    and was made before; the pointers of the form point to objects that were
    made and not deleted; and no thread or helper of the diff is deleted. *)
Record obj_inv (s : ObjStore) : Prop := mkObjInv {
  inv_objs_once : NoDup (deleted_objs s);
  inv_objs_made : forall o, In o (deleted_objs s) -> number_of o < made s;
  inv_ptr :
    forall w n, ptr_of w s = Some n ->
                n < made s /\ ~ In (WorkerObj w n) (deleted_objs s);
  inv_conn :
    forall n, export_conn s = Some n ->
              n < made s /\ ~ In (ConnectionObj n) (deleted_objs s);
  inv_diff : forall n, ~ In (WorkerObj DiffW n) (deleted_objs s)
}.

End Objects.

(** ** More sample states *)

Module Scenes.
Import QStr Qt DiffForm Samples.

Definition sample_sql : string := "CREATE TABLE a ();".

(** The diff of [sample_form] has ended and the user asked for the preview:
    the process waits for the apply button. *)
Definition paused_form : Form :=
  state_after [Completes DiffW; DiffFinished sample_sql preview_diff true]
    diffing_form.



End Scenes.

(** * Part II: properties *)

(** ** Strings *)

Module QStrFacts.
Import QStr.

Lemma strip_prefix_app p s : strip_prefix p (p ++ s) = Some s.
Proof.
  induction p as [|a p IH]; simpl; [reflexivity|].
  now rewrite Ascii.eqb_refl.
Qed.

Lemma strip_prefix_Some p s r : strip_prefix p s = Some r -> s = p ++ r.
Proof.
  revert s; induction p as [|a p IH]; simpl; intros s H.
  - now inversion H.
  - destruct s as [|b s]; [discriminate|].
    destruct (Ascii.eqb a b) eqn:E; [|discriminate].
    apply Ascii.eqb_eq in E; subst b. now rewrite (IH _ H).
Qed.

Lemma isEmpty_true s : isEmpty s = true <-> s = "".
Proof. destruct s; simpl; split; congruence. Qed.

Lemma append_assoc (a b c : string) : (a ++ b) ++ c = a ++ (b ++ c).
Proof. induction a as [|x a IH]; simpl; [reflexivity|now rewrite IH]. Qed.

End QStrFacts.

(** ** The filters generated from the change log *)

Module ChangelogFacts.
Import QStr QStrFacts Changelog Samples.

(** A match at the start of a string is a match at the start of every
    extension of the string. *)
Lemma rx_matches_here_app name u v :
  rx_matches_here name u = true -> rx_matches_here name (u ++ v) = true.
Proof.
  unfold rx_matches_here.
  destruct (strip_prefix (name ++ ":") u) as [[|c r]|] eqn:E; try discriminate.
  intros _. apply strip_prefix_Some in E. subst u.
  rewrite append_assoc, strip_prefix_app. reflexivity.
Qed.

Lemma rx_matches_here_nil name : rx_matches_here name "" = false.
Proof. unfold rx_matches_here. now destruct name. Qed.

Lemma occurs_app name u v : occurs name u = true -> occurs name (u ++ v) = true.
Proof.
  induction u as [|c u IH]; simpl.
  - rewrite rx_matches_here_nil. discriminate.
  - intros H. apply orb_true_iff in H. destruct H as [H|H].
    + apply (rx_matches_here_app _ _ v) in H. simpl in H. now rewrite H.
    + rewrite (IH H). apply orb_true_r.
Qed.

(** What [replace_rx] keeps is a prefix of the string. *)
Lemma replace_rx_prefix name s : exists v, s = replace_rx name s ++ v.
Proof.
  induction s as [|c s [v IH]].
  - exists "". simpl. now rewrite rx_matches_here_nil.
  - simpl. destruct (rx_matches_here name (String c s)).
    + now exists (String c s).
    + exists v. simpl. now rewrite <- IH.
Qed.

(** After the replacement the expression matches nowhere. *)
Lemma occurs_replace_rx name s : occurs name (replace_rx name s) = false.
Proof.
  induction s as [|c s IH].
  - simpl. rewrite rx_matches_here_nil. simpl. now rewrite rx_matches_here_nil.
  - simpl. destruct (rx_matches_here name (String c s)) eqn:E; simpl.
    + now rewrite rx_matches_here_nil.
    + rewrite IH, orb_false_r.
      destruct (rx_matches_here name (String c (replace_rx name s))) eqn:E1;
        [|reflexivity].
      destruct (replace_rx_prefix name s) as [v Hv].
      apply (rx_matches_here_app _ _ v) in E1. simpl in E1.
      rewrite <- Hv in E1. congruence.
Qed.

(** A later replacement cannot bring a match back. *)
Lemma occurs_replace_rx_other name other s :
  occurs name s = false -> occurs name (replace_rx other s) = false.
Proof.
  intros H. destruct (occurs name (replace_rx other s)) eqn:E; [|reflexivity].
  destruct (replace_rx_prefix other s) as [v Hv].
  apply (occurs_app _ _ v) in E. rewrite <- Hv in E. congruence.
Qed.

Lemma strip_children_keeps_clean name types :
  forall fs,
    (forall f, In f fs -> occurs name f = false) ->
    forall f, In f (strip_children types fs) -> occurs name f = false.
Proof.
  induction types as [|t types IH]; intros fs Hfs f Hf; simpl in Hf.
  - now apply Hfs.
  - apply (IH (replaceInStrings (getSchemaName t) fs)); [|exact Hf].
    intros g Hg. unfold replaceInStrings in Hg. apply in_map_iff in Hg.
    destruct Hg as [g0 [<- Hg0]]. apply occurs_replace_rx_other. now apply Hfs.
Qed.

Lemma strip_children_clean types :
  forall fs t f,
    In t types -> In f (strip_children types fs) ->
    occurs (getSchemaName t) f = false.
Proof.
  induction types as [|t0 types IH]; intros fs t f Ht Hf; [contradiction|].
  simpl in Hf. destruct Ht as [->|Ht].
  - apply (strip_children_keeps_clean _ types
             (replaceInStrings (getSchemaName t) fs)); [|exact Hf].
    intros g Hg. unfold replaceInStrings in Hg. apply in_map_iff in Hg.
    destruct Hg as [g0 [<- _]]. apply occurs_replace_rx.
  - now apply (IH (replaceInStrings (getSchemaName t0) fs)).
Qed.

Lemma targets_occurs t f : targets t f -> occurs (getSchemaName t) f = true.
Proof.
  intros [c [rest ->]].
  assert (H : rx_matches_here (getSchemaName t)
                (getSchemaName t ++ ":" ++ String c rest) = true).
  { unfold rx_matches_here.
    change (getSchemaName t ++ ":" ++ String c rest)
      with (getSchemaName t ++ (":" ++ String c rest)).
    rewrite <- append_assoc, strip_prefix_app. reflexivity. }
  destruct (getSchemaName t ++ ":" ++ String c rest); simpl; now rewrite H.
Qed.

Lemma removeAll_empty_In f l : In f (removeAll_empty l) <-> In f l /\ f <> "".
Proof.
  unfold removeAll_empty. rewrite filter_In, negb_true_iff.
  split; intros [H1 H2]; split; auto.
  - intros ->. discriminate.
  - destruct f; [congruence|reflexivity].
Qed.

(** C4.  Of the filters generated from the change log of the model, the list
    handed to the filter widget holds no empty filter and no filter that
    targets a kind of table children (a column, constraint, index, trigger or
    rule filter [kind:pattern...]); in particular no such filter of the change
    log is added. *)
Theorem changelog_filters_without_table_children :
  forall tab_obj_types source_model w added,
    generateFiltersFromChangelog tab_obj_types source_model w = Some added ->
    (forall f, In f added ->
       f <> "" /\ forall t, In t tab_obj_types -> ~ targets t f)
    /\ (forall t g, In t tab_obj_types -> targets t g -> ~ In g added).
Proof.
  intros types [m|] w added H; simpl in H; [|discriminate].
  injection H as <-.
  assert (clean : forall f,
    In f (removeAll_empty (strip_children types
            (getFiltersFromChangelog m
               (if start_date_chk w then Some (start_date_dt w) else None)
               (if end_date_chk w then Some (end_date_dt w) else None)))) ->
    f <> "" /\ forall t, In t types -> ~ targets t f).
  { intros f Hf. apply removeAll_empty_In in Hf. destruct Hf as [Hf Hne].
    split; [exact Hne|]. intros t Ht Htg.
    apply targets_occurs in Htg.
    rewrite (strip_children_clean _ _ _ _ Ht Hf) in Htg. discriminate. }
  split; [exact clean|].
  intros t g Ht Htg Hin. destruct (clean g Hin) as [_ Hno].
  exact (Hno t Ht Htg).
Qed.

Lemma changelog_filters_without_table_children_witness :
  (forall f, In f ["table:public.t:wildcard"] ->
     f <> "" /\ forall t, In t sample_children -> ~ targets t f)
  /\ (forall t g, In t sample_children -> targets t g ->
        ~ In g ["table:public.t:wildcard"]).
Proof.
  exact (changelog_filters_without_table_children sample_children
           (Some sample_model) (mkDates false 0 false 0)
           ["table:public.t:wildcard"] eq_refl).
Defined.

(** The expression is not anchored at the start of the filter: the filter of a
    table whose name ends with the name of a kind of children is cut at that
    name, and what is left of it is added. *)
Remark expression_is_not_anchored :
  generateFiltersFromChangelog [Rule]
    (Some (mkModel (fun _ _ => ["table:public.price_rule:wildcard"])
             (fun _ _ => [])))
    (mkDates false 0 false 0)
  = Some ["table:public.price_"].
Proof. reflexivity. Qed.

End ChangelogFacts.

(** ** The options of the diff *)

Module OptionFacts.
Import Qt DiffForm Samples.

Ltac boxes o :=
  destruct o as [[c0 e0] [c1 e1] [c2 e2] [c3 e3] [c4 e4] [c5 e5] [c6 e6]
                 [c7 e7] [c8 e8]].

Ltac flags conf :=
  destruct (is_true conf KeepClusterObjs), (is_true conf KeepObjsPerms),
    (is_true conf DontDropMissingObjs), (is_true conf DropMissingColsConstrs),
    (is_true conf PreserveDbName), (is_true conf DropTruncCascade),
    (is_true conf ReuseSequences), (is_true conf ForceObjsRecreation),
    (is_true conf RecreateUnmodObjs).



(** A change of the first box makes the second one follow, whatever was
    before. *)
Lemma toggled_makes_follow b o :
  checked (dont_drop_missing_objs_chk o) = negb b ->
  follows (check_dont_drop_missing_objs b o).
Proof.
  unfold follows. boxes o. cbn. intros ->. now destruct b.
Qed.







End OptionFacts.

(** ** The slots of the form *)

Module SlotFacts.
Import QStr Qt DiffForm Samples.

(** *** The matching mode of the partial diff *)

Lemma catalog_filters_mode f flt :
  catalog_filters f = Some flt -> match_signature flt = matching_mode f.
Proof.
  unfold catalog_filters, matching_mode.
  destruct (getObjectFilters (pd_filter_wgt (inputs f))); [discriminate|].
  intros H. injection H as <-. reflexivity.
Qed.

Lemma importDatabase_catalog thread_id f f' :
  importDatabase thread_id true f = Returned f' ->
  catalog_of thread_id f' = catalog_filters f.
Proof.
  unfold importDatabase, catalog_of, createThread.
  destruct thread_id as [|[|n]]; cbn; try discriminate;
    intros H; injection H as <-; reflexivity.
Qed.

Lemma importDatabase_returns thread_id f :
  thread_id = SrcImportThread \/ thread_id = ImportThread ->
  exists f', importDatabase thread_id true f = Returned f'.
Proof.
  intros [->| ->]; unfold importDatabase; cbn; eexists; reflexivity.
Qed.

Lemma catalog_filters_given f :
  getObjectFilters (pd_filter_wgt (inputs f)) <> [] ->
  exists flt,
    catalog_filters f = Some flt
    /\ match_signature flt
       = (if gen_filters_from_log_chk f then true
          else isMatchSignature (pd_filter_wgt (inputs f))).
Proof.
  unfold catalog_filters. cbv zeta.
  destruct (getObjectFilters (pd_filter_wgt (inputs f))); [congruence|].
  intros _. eexists. split; reflexivity.
Qed.

(** C1.  An import of a form with partial diff filters hands filters to its
    catalog, and a search of the model hands a search attribute to the model.
    When the box of the filters from the change log is checked, the matching
    mode of the former is signature matching and the attribute of the latter
    is the signature, whatever the filter widget says; when it is not checked,
    both follow the mode chosen in the filter widget. *)
Theorem changelog_filters_force_signature_matching :
  forall f thread_id,
    thread_id = SrcImportThread \/ thread_id = ImportThread ->
    getObjectFilters (pd_filter_wgt (inputs f)) <> [] ->
    let mode :=
      if gen_filters_from_log_chk f then true
      else isMatchSignature (pd_filter_wgt (inputs f)) in
    (exists f' flt,
        importDatabase thread_id true f = Returned f'
        /\ catalog_of thread_id f' = Some flt
        /\ match_signature flt = mode)
    /\ (forall m,
           src_model_rb (inputs f) = true ->
           loaded_model (inputs f) = Some m ->
           let flt := getObjectFilters (pd_filter_wgt (inputs f)) in
           let attr := if mode then AttrSignature else AttrName in
           applyPartialDiffFilters f
           = Some (set_filtered_objs (findObjects m flt attr) f,
                   FindObjects flt attr)).
Proof.
  intros f thread_id Id NE mode. split.
  - destruct (importDatabase_returns thread_id f Id) as [f' R].
    destruct (catalog_filters_given f NE) as (flt & C & M).
    exists f', flt. split; [exact R|]. split; [|exact M].
    now rewrite (importDatabase_catalog _ _ _ R).
  - intros m Src L flt attr. subst flt attr mode.
    unfold applyPartialDiffFilters. cbv zeta. rewrite Src, L.
    destruct (gen_filters_from_log_chk f),
      (isMatchSignature (pd_filter_wgt (inputs f))); reflexivity.
Qed.

Lemma changelog_filters_force_signature_matching_witness :
  gen_filters_from_log_chk changelog_form = true
  /\ isMatchSignature (pd_filter_wgt (inputs changelog_form)) = false
  /\ (exists f' flt,
         importDatabase ImportThread true changelog_form = Returned f'
         /\ catalog_of ImportThread f' = Some flt
         /\ match_signature flt = true)
  /\ (forall m,
         src_model_rb (inputs changelog_form) = true ->
         loaded_model (inputs changelog_form) = Some m ->
         applyPartialDiffFilters changelog_form
         = Some (set_filtered_objs
                   (findObjects m ["table:public.t:wildcard"] AttrSignature)
                   changelog_form,
                 FindObjects ["table:public.t:wildcard"] AttrSignature)).
Proof.
  split; [reflexivity|]. split; [reflexivity|].
  apply (changelog_filters_force_signature_matching changelog_form
           ImportThread); [right; reflexivity|discriminate].
Defined.

(** The filter widget of [changelog_form] matches by name, the box of the
    change log is checked: the import and the search match by signature. *)
Example changelog_form_matches_by_signature :
  isMatchSignature (pd_filter_wgt (inputs changelog_form)) = false
  /\ option_map match_signature
       (catalog_of ImportThread
          (state_of (importDatabase ImportThread true changelog_form)))
     = Some true
  /\ option_map snd (applyPartialDiffFilters changelog_form)
     = Some (FindObjects ["table:public.t:wildcard"] AttrSignature).
Proof. repeat split. Qed.

(** *** Closing the form *)

Lemma running_cancel_worker {H} (cancel : H -> H) w :
  running (cancel_worker cancel w) = running w.
Proof.
  destruct w as [[t h]|]; [|reflexivity]. now destruct t.
Qed.

Lemma isThreadsRunning_cancelOperation b f :
  isThreadsRunning (cancelOperation b f) = isThreadsRunning f.
Proof.
  unfold isThreadsRunning, cancelOperation.
  destruct b; cbn; now rewrite !running_cancel_worker.
Qed.

Lemma quit_event_loop_running f :
  isThreadsRunning f = true -> quit_event_loop f = f.
Proof. unfold quit_event_loop. now intros ->. Qed.

Lemma quit_event_loop_idle f :
  isThreadsRunning f = false ->
  quit_event_loop f = set_event_loop_running false f.
Proof. unfold quit_event_loop. now intros ->. Qed.

(** C9.  While one of the four threads runs, a request to close the form is
    ignored and nothing changes, the event loop included.  When none runs,
    the request is accepted and the event loop is left, after the operation
    was cancelled if the process was paused.  So the event loop is left only
    when no thread runs. *)
Theorem close_waits_for_the_threads :
  forall f,
    (isThreadsRunning f = true -> closeEvent f = (f, false))
    /\ (isThreadsRunning f = false ->
        closeEvent f
        = (set_event_loop_running false
             (if process_paused f then cancelOperation true f else f), true))
    /\ (event_loop_running f = true ->
        event_loop_running (fst (closeEvent f)) = false ->
        isThreadsRunning f = false).
Proof.
  intros f. unfold closeEvent. repeat split.
  - intros H. rewrite H. now rewrite quit_event_loop_running.
  - intros H. rewrite H. destruct (process_paused f).
    + rewrite quit_event_loop_idle; [reflexivity|].
      now rewrite isThreadsRunning_cancelOperation.
    + now rewrite quit_event_loop_idle.
  - destruct (isThreadsRunning f) eqn:H; [|reflexivity].
    rewrite quit_event_loop_running by assumption. cbn [fst]. congruence.
Qed.

(** The diff of [diffing_form] runs, and the form stays open; nothing runs in
    [sample_form], and it closes. *)
Example close_of_sample_forms :
  closeEvent diffing_form = (diffing_form, false)
  /\ snd (closeEvent sample_form) = true
  /\ event_loop_running (fst (closeEvent sample_form)) = false.
Proof. vm_compute. repeat split. Qed.

End SlotFacts.

(** ** The export *)

Module ExportFacts.
Import QStr Qt DiffForm Samples SlotFacts.

Lemma export_started_same f f' :
  export_w f' = export_w f -> export_started f' = export_started f.
Proof. unfold export_started. now intros ->. Qed.

Lemma export_started_cancelled f f' :
  export_w f' = cancel_worker cancelExport (export_w f) ->
  export_started f' = export_started f.
Proof.
  unfold export_started. intros ->.
  destruct (export_w f) as [[t [s l p]]|]; [|reflexivity].
  destruct t, s; reflexivity.
Qed.

Lemma export_w_cancelOperation b f :
  export_w (cancelOperation b f) = cancel_worker cancelExport (export_w f).
Proof. destruct b; reflexivity. Qed.

Lemma export_w_finishDiff f :
  export_w (finishDiff f) = cancel_worker cancelExport (export_w f).
Proof. reflexivity. Qed.

Lemma export_w_progress_items p m t c f :
  export_w (progress_items p m t c f) = export_w f.
Proof.
  unfold progress_items, export_progress_item.
  repeat match goal with
         | |- context [if ?c then _ else _] => destruct c
         end; reflexivity.
Qed.

Lemma export_w_updateProgress p m t c f :
  export_w (updateProgress p m t c f) = export_w f.
Proof.
  unfold updateProgress, raise_step_pb.
  match goal with |- context [if ?c then _ else _] => destruct c end;
    exact (export_w_progress_items p (Formatted m) t c f).
Qed.

Lemma export_w_importDatabase ok f :
  export_w (state_of (importDatabase ImportThread ok f)) = export_w f.
Proof. unfold importDatabase. now destruct ok. Qed.

Lemma export_w_handleImportFinished e ok f r :
  handleImportFinished e ok f = Some r -> export_w (state_of r) = export_w f.
Proof.
  unfold handleImportFinished.
  repeat match goal with
         | |- context [if ?c then _ else _] => destruct c
         end; intros H; inversion H; subst; clear H;
    [now rewrite export_w_importDatabase|reflexivity].
Qed.

(** *** An empty diff *)

Lemma sqlcode_txt_finishDiff f : sqlcode_txt (finishDiff f) = sqlcode_txt f.
Proof. reflexivity. Qed.

Lemma demo_truncate_empty f :
  isEmpty (sqlcode_txt f) = true -> demo_truncate f = f.
Proof.
  intros E. unfold demo_truncate. rewrite E. now rewrite andb_false_r.
Qed.

Lemma conclude_diff_empty msgbox save_ok f :
  isEmpty (sqlcode_txt f) = true ->
  conclude_diff msgbox save_ok f
  = Returned (set_sqlcode_txt no_differences (finishDiff f)).
Proof.
  intros E. unfold conclude_diff, saveDiffToFile, note_no_differences.
  rewrite E. destruct (store_in_file_rb (inputs f)); cbn [negb];
    now rewrite sqlcode_txt_finishDiff, E.
Qed.

Lemma handleDiffFinished_empty f msgbox save_ok :
  is_some (diff_w f) = true ->
  handleDiffFinished "" msgbox save_ok f
  = Some (Returned (set_sqlcode_txt no_differences
                      (finishDiff (take_diff "" f)))).
Proof.
  intros H. unfold handleDiffFinished. rewrite H.
  rewrite conclude_diff_empty; [reflexivity|].
  unfold take_diff. now rewrite demo_truncate_empty.
Qed.

(** C8.  When the diff ends with an empty script, the export is not started,
    whatever the mode: no export thread is created, the export worker (if one
    is left from before) is at most cancelled, the run ends at once as a
    finished diff, and the preview shows the note that no differences were
    detected. *)
Theorem empty_diff_skips_the_export :
  forall f msgbox save_ok,
    is_some (diff_w f) = true ->
    exists f',
      handleDiffFinished "" msgbox save_ok f = Some (Returned f')
      /\ sqlcode_txt f' = no_differences
      /\ export_w f' = cancel_worker cancelExport (export_w f)
      /\ (export_w f = None -> export_w f' = None)
      /\ export_started f' = export_started f
      /\ apply_conns f' = apply_conns f
      /\ step_lbl f' = DiffEnded
      /\ step_pb f' = setValue 100 (step_pb f)
      /\ process_paused f' = false
      /\ cancel_btn f' = false
      /\ close_btn f' = true.
Proof.
  intros f msgbox save_ok H.
  eexists. split; [exact (handleDiffFinished_empty f msgbox save_ok H)|].
  assert (X : export_w (take_diff "" f) = export_w f).
  { unfold take_diff. now rewrite demo_truncate_empty. }
  assert (Y : step_pb (take_diff "" f) = step_pb f).
  { unfold take_diff. now rewrite demo_truncate_empty. }
  assert (Z : apply_conns (take_diff "" f) = apply_conns f).
  { unfold take_diff. now rewrite demo_truncate_empty. }
  repeat split.
  - now rewrite <- X.
  - intros E. rewrite <- X in E.
    change (cancel_worker cancelExport (export_w (take_diff "" f)) = None).
    now rewrite E.
  - apply export_started_cancelled. now rewrite <- X.
  - now rewrite <- Z.
  - now rewrite <- Y.
Qed.

Lemma empty_diff_skips_the_export_witness :
  exists f',
    handleDiffFinished "" apply_diff true diffing_form = Some (Returned f')
    /\ sqlcode_txt f' = no_differences
    /\ export_w f' = cancel_worker cancelExport (export_w diffing_form)
    /\ (export_w diffing_form = None -> export_w f' = None)
    /\ export_started f' = export_started diffing_form
    /\ apply_conns f' = apply_conns diffing_form
    /\ step_lbl f' = DiffEnded
    /\ step_pb f' = setValue 100 (step_pb diffing_form)
    /\ process_paused f' = false
    /\ cancel_btn f' = false
    /\ close_btn f' = true.
Proof.
  exact (empty_diff_skips_the_export diffing_form apply_diff true eq_refl).
Defined.

(** *** The list of ignored errors *)


End ExportFacts.

(** ** Applying the script needs the word of the user *)

Module ApplyFacts.
Import QStr Qt DiffForm Samples SlotFacts ExportFacts.

Lemma Some_eq {A} (a b : A) : Some a = Some b -> a = b.
Proof. congruence. Qed.

Ltac some_inv H := apply Some_eq in H; subst.

Lemma export_started_set_status w s f :
  w <> ExportW -> export_started (set_status w s f) = export_started f.
Proof. destruct w; intros H; try reflexivity. congruence. Qed.

Lemma export_started_on_thread_of w g f :
  export_started (on_thread_of w g f) = export_started f.
Proof.
  destruct w; try reflexivity.
  unfold export_started. cbn. now destruct (export_w f).
Qed.

Lemma export_started_cancelOperation b f :
  export_started (cancelOperation b f) = export_started f.
Proof. apply export_started_cancelled, export_w_cancelOperation. Qed.

Lemma export_started_finishDiff f :
  export_started (finishDiff f) = export_started f.
Proof. apply export_started_cancelled, export_w_finishDiff. Qed.

Lemma export_started_quit_event_loop f :
  export_started (quit_event_loop f) = export_started f.
Proof. unfold quit_event_loop. now destruct (negb (isThreadsRunning f)). Qed.

Lemma export_started_closeEvent f :
  export_started (fst (closeEvent f)) = export_started f.
Proof.
  unfold closeEvent.
  destruct (isThreadsRunning f), (process_paused f); cbn [fst];
    rewrite export_started_quit_event_loop;
    try reflexivity; apply export_started_cancelOperation.
Qed.

Lemma has_status_started s f :
  has_status ExportW (Some s) f = true -> s <> Idle -> export_started f = true.
Proof.
  unfold has_status, export_started. cbn.
  destruct (export_w f) as [[t [st l p]]|]; cbn; [|discriminate].
  destruct st, s; try discriminate; congruence.
Qed.

Lemma export_started_exportDiff confirm msgbox f :
  export_started (exportDiff confirm msgbox f)
  = negb confirm || is_accepted (result msgbox).
Proof.
  unfold exportDiff.
  destruct (negb confirm || is_accepted (result msgbox)).
  - unfold export_started. cbn.
    now destruct (ignore_error_codes_chk (inputs f)).
  - destruct (isCancelled msgbox); reflexivity.
Qed.

Lemma export_started_note_no_differences f :
  export_started (note_no_differences f) = export_started f.
Proof. unfold note_no_differences. now destruct (isEmpty (sqlcode_txt f)). Qed.

Lemma export_started_conclude_diff msgbox ok f :
  is_accepted (result msgbox) = false ->
  export_started (state_of (conclude_diff msgbox ok f)) = true ->
  export_started f = true.
Proof.
  intros Hm. unfold conclude_diff, saveDiffToFile.
  destruct (store_in_file_rb (inputs f)).
  - destruct (negb (isEmpty (sqlcode_txt f))).
    + destruct ok; cbn [state_of].
      * rewrite export_started_note_no_differences, export_started_finishDiff.
        exact (fun H => H).
      * exact (fun H => H).
    + cbn [state_of].
      rewrite export_started_note_no_differences, export_started_finishDiff.
      exact (fun H => H).
  - destruct (negb (isEmpty (sqlcode_txt f))); cbn [state_of];
      rewrite export_started_note_no_differences.
    + rewrite export_started_exportDiff, Hm. discriminate.
    + rewrite export_started_finishDiff. exact (fun H => H).
Qed.

Lemma export_w_demo_truncate f : export_w (demo_truncate f) = export_w f.
Proof. unfold demo_truncate. now destruct (_ && _). Qed.

Lemma export_started_handleDiffFinished d msgbox ok f r :
  handleDiffFinished d msgbox ok f = Some r ->
  is_accepted (result msgbox) = false ->
  export_started (state_of r) = true -> export_started f = true.
Proof.
  unfold handleDiffFinished.
  destruct (is_some (diff_w f)); [|discriminate].
  intros H Hm Hs.
  assert (R : r = conclude_diff msgbox ok (take_diff d f)) by congruence.
  subst r. clear H.
  apply export_started_conclude_diff in Hs; [|exact Hm].
  revert Hs. unfold export_started, take_diff. cbn.
  now rewrite export_w_demo_truncate.
Qed.

Lemma export_started_handleImportFinished e ok f r :
  handleImportFinished e ok f = Some r ->
  export_started (state_of r) = export_started f.
Proof.
  intros H. apply export_started_same.
  now apply (export_w_handleImportFinished e ok).
Qed.

Lemma export_started_loadDiffInSQLTool ok f :
  export_started (state_of (loadDiffInSQLTool ok f)) = export_started f.
Proof.
  unfold loadDiffInSQLTool.
  match goal with |- context [if ?c then _ else _] => destruct c end;
    cbn [state_of]; rewrite ?export_started_closeEvent;
    apply export_started_cancelOperation.
Qed.

(** An event starts the export only if it is the word of the user. *)
Lemma step_export_started e f f' :
  step e f = Some f' -> export_started f' = true ->
  export_started f = true \/ asks_to_apply e = true.
Proof.
  destruct e; cbn [step asks_to_apply].
  - destruct (has_status w (Some Working) f) eqn:E; [|discriminate].
    intros H; some_inv H. destruct w.
    1-3: rewrite export_started_set_status by discriminate; auto.
    intros _. left. now apply (has_status_started Working).
  - destruct (has_status w (Some Working) f) eqn:E; [|discriminate].
    intros H; some_inv H.
    change (export_started
              (state_of (captureThreadError e (set_status w Aborted f))))
      with (export_started (cancelOperation false (set_status w Aborted f))).
    rewrite export_started_cancelOperation. destruct w.
    1-3: rewrite export_started_set_status by discriminate; auto.
    intros _. left. now apply (has_status_started Working).
  - destruct (is_importer w && has_status w (Some Done) f) eqn:E;
      [|discriminate].
    destruct (handleImportFinished e catalog_ok (set_status w Finished f))
      eqn:R; [|discriminate].
    intros H; some_inv H.
    rewrite (export_started_handleImportFinished _ _ _ _ R).
    destruct w; try discriminate;
      rewrite export_started_set_status by discriminate; auto.
  - destruct (has_status DiffW (Some Done) f) eqn:E; [|discriminate].
    destruct (handleDiffFinished diff_def msgbox save_ok
                (set_status DiffW Finished f)) eqn:R; [|discriminate].
    intros H; some_inv H.
    destruct (is_accepted (result msgbox)) eqn:A; [auto|].
    intros S. left.
    apply (export_started_handleDiffFinished _ _ _ _ _ R A) in S.
    now rewrite export_started_set_status in S by discriminate.
  - destruct (has_status ExportW (Some Done) f) eqn:E; [|discriminate].
    intros _ _. left. now apply (has_status_started Done).
  - intros H; some_inv H. auto.
  - intros H; some_inv H.
    rewrite (export_started_same _ _ (export_w_updateProgress _ _ _ _ f)). auto.
  - destruct (thread_of w f) as [[]|]; try discriminate.
    intros H; some_inv H. rewrite export_started_on_thread_of. auto.
  - destruct (cancel_btn f); [|discriminate].
    intros H; some_inv H. rewrite export_started_cancelOperation. auto.
  - auto.
  - intros H; some_inv H. rewrite export_started_loadDiffInSQLTool. auto.
  - intros H; some_inv H. rewrite export_started_closeEvent. auto.
Qed.

Lemma run_export_started es :
  forall f f',
    run es f = Some f' -> export_started f' = true ->
    export_started f = true \/ existsb asks_to_apply es = true.
Proof.
  induction es as [|e es IH]; intros f f' H S; cbn in H.
  - injection H as ->. auto.
  - destruct (step e f) as [f1|] eqn:E; [|discriminate].
    destruct (IH _ _ H S) as [S1|X].
    + destruct (step_export_started _ _ _ E S1) as [?|A]; [auto|].
      right. cbn. now rewrite A.
    + right. cbn. rewrite X. apply orb_true_r.
Qed.

(** C3.  When the confirmation is answered by Preview diff, the export thread
    is created but not started: the export helper stays idle, the preview
    keeps the script, and the process is paused with the apply button shown.
    In every run that began without a started export, the export helper works
    only after the user answered Apply diff or clicked the apply button. *)
Theorem preview_does_not_apply :
  (forall f msgbox,
      result msgbox = Rejected -> isCancelled msgbox = false ->
      let f' := exportDiff true msgbox f in
      export_w f' = Some new_export_worker
      /\ export_started f' = false
      /\ running (export_w f') = false
      /\ sqlcode_txt f' = sqlcode_txt f
      /\ process_paused f' = true
      /\ apply_on_server_btn_visible f' = true)
  /\ (forall es f f',
         run es f = Some f' ->
         export_started f = false -> export_started f' = true ->
         existsb asks_to_apply es = true).
Proof.
  split.
  - intros f [r c] Hr Hc f'. cbn in Hr, Hc. subst r c f'.
    repeat split.
  - intros es f f' H S0 S.
    destruct (run_export_started es f f' H S) as [X|X]; congruence.
Qed.

(** The diff of [diffing_form] ends with a script; the user looks at the
    preview first and clicks the apply button afterwards. *)
Example preview_then_apply :
  let script := "ALTER TABLE t ADD COLUMN b text;" in
  option_map export_started
    (run [Completes DiffW; DiffFinished script preview_diff true] diffing_form)
  = Some false
  /\ option_map sqlcode_txt
       (run [Completes DiffW; DiffFinished script preview_diff true]
          diffing_form)
     = Some script
  /\ option_map export_started
       (run [Completes DiffW; DiffFinished script preview_diff true;
             ApplyOnServerClicked] diffing_form)
     = Some true.
Proof. vm_compute. repeat split. Qed.

End ApplyFacts.

(** ** The log of ignored errors *)

Module IgnoredFacts.
Import QStr Qt DiffForm Samples Applier.

Lemma handleErrorIgnored_tree c m cmd f :
  output_trw (handleErrorIgnored c m cmd f)
  = (output_trw f
     ++ log_entries (export_item f) (List.length (output_trw f))
          [mkIgnored c m cmd])%list.
Proof.
  unfold handleErrorIgnored, createOutputTreeItem. cbn.
  rewrite <- !app_assoc. reflexivity.
Qed.

Lemma handleErrorIgnored_export_item c m cmd f :
  export_item (handleErrorIgnored c m cmd f) = export_item f.
Proof. reflexivity. Qed.

Lemma report_ignored_export_w errs :
  forall f,
    export_w (report_ignored errs f) = export_w f
    /\ isThreadsRunning (report_ignored errs f) = isThreadsRunning f
    /\ export_item (report_ignored errs f) = export_item f.
Proof.
  unfold report_ignored.
  induction errs as [|e errs IH]; intros f; cbn [fold_left]; [auto|].
  destruct (IH (handleErrorIgnored (err_code e) (err_msg e) (err_cmd e) f))
    as (-> & -> & ->).
  repeat split.
Qed.

Lemma report_ignored_tree errs :
  forall f,
    output_trw (report_ignored errs f)
    = (output_trw f
       ++ log_entries (export_item f) (List.length (output_trw f)) errs)%list.
Proof.
  unfold report_ignored.
  induction errs as [|e errs IH]; intros f; cbn [fold_left log_entries].
  - now rewrite app_nil_r.
  - rewrite IH, handleErrorIgnored_tree, handleErrorIgnored_export_item.
    cbn [log_entries]. rewrite <- app_assoc, length_app. cbn [List.length app].
    reflexivity.
Qed.

Lemma log_entries_count parent errs :
  forall pos,
    List.length (filter is_ignored_entry (log_entries parent pos errs))
    = List.length errs.
Proof.
  induction errs as [|e errs IH]; intros pos; cbn; [reflexivity|].
  now rewrite IH.
Qed.

Lemma reported_ignored_of ignorable script :
  reported (exportToDBMS ignorable script)
  = ignored_of ignorable (executed (exportToDBMS ignorable script)).
Proof.
  induction script as [|s script IH]; cbn; [reflexivity|].
  destruct (answer s) as [|code msg] eqn:A; cbn; rewrite ?A.
  - exact IH.
  - destruct (ignorable code) eqn:I; cbn; rewrite A, I; [|reflexivity].
    now rewrite IH.
Qed.

(** A part of the script without a fatal error is executed to its end, and
    the rest of the script follows. *)
Lemma exportToDBMS_app ignorable pre post :
  no_fatal ignorable pre = true ->
  executed (exportToDBMS ignorable (pre ++ post))
  = (pre ++ executed (exportToDBMS ignorable post))%list
  /\ reported (exportToDBMS ignorable (pre ++ post))
     = (ignored_of ignorable pre
        ++ reported (exportToDBMS ignorable post))%list.
Proof.
  induction pre as [|s pre IH]; cbn; [auto|].
  destruct (answer s) as [|code msg]; cbn.
  - intros H. destruct (IH H) as [-> ->]. auto.
  - destruct (ignorable code); cbn; [|discriminate].
    intros H. destruct (IH H) as [-> ->]. auto.
Qed.

(** C7.  The applier reports every error it ignores once, and the form writes
    one entry for each report: an item below the item of the export with the
    error code, and below that item the message and the command.  The form
    does not stop the export on such a report, and the applier goes on with
    the statements that follow the failed one. *)
Theorem ignored_errors_are_logged_once :
  forall ignorable script f,
    let r := exportToDBMS ignorable script in
    let f' := report_ignored (reported r) f in
    let entries :=
      log_entries (export_item f) (List.length (output_trw f)) (reported r) in
    output_trw f' = (output_trw f ++ entries)%list
    /\ List.length (filter is_ignored_entry entries)
       = List.length (reported r)
    /\ reported r = ignored_of ignorable (executed r)
    /\ export_w f' = export_w f
    /\ isThreadsRunning f' = isThreadsRunning f
    /\ (forall pre s post code msg,
           script = (pre ++ s :: post)%list ->
           no_fatal ignorable pre = true ->
           answer s = Refused code msg -> ignorable code = true ->
           executed r
           = (pre ++ s :: executed (exportToDBMS ignorable post))%list
           /\ In (mkIgnored code msg (cmd s)) (reported r)).
Proof.
  intros ignorable script f r f' entries. subst f' entries.
  split; [apply report_ignored_tree|].
  split; [apply log_entries_count|].
  split; [apply reported_ignored_of|].
  destruct (report_ignored_export_w (reported r) f) as (E1 & E2 & _).
  split; [exact E1|]. split; [exact E2|].
  intros pre s post code msg -> Hpre A I. subst r.
  destruct (exportToDBMS_app ignorable pre (s :: post) Hpre) as [-> ->].
  cbn. rewrite A, I. cbn. split; [reflexivity|].
  apply in_or_app. right. now left.
Qed.

(** The second statement of [sample_script] fails with an ignored code: all
    three statements are executed, and the tree gets one entry of three
    items. *)
Example sample_script_is_applied_to_its_end :
  let r := exportToDBMS ignore_42P07 sample_script in
  executed r = sample_script
  /\ ended r = ScriptApplied
  /\ output_trw (report_ignored (reported r) sample_form)
     = [mkItem (ErrorIgnored "42P07") None;
        mkItem (Formatted "relation b already exists") (Some 0);
        mkItem (Plain "CREATE TABLE b ();") (Some 0)].
Proof. vm_compute. repeat split. Qed.

(** *** The codes that are ignored *)



Section BuiltInDefault.

Variable duplicate_object : bool -> string -> bool.


End BuiltInDefault.


(** The export helper of [sample_form] applies [duplicates_script] to its
    end: the first error is of the built-in default, the second one was given
    by the user. *)
Example duplicates_script_is_applied_to_its_end :
  option_map
    (fun w => ended (applies sample_duplicate (helper w) duplicates_script))
    (export_w (exportDiff false no_answer sample_form))
  = Some ScriptApplied.
Proof. vm_compute. reflexivity. Qed.

End IgnoredFacts.

(** ** The order of the phases and the step bar *)

Module RunFacts.
Import QStr Qt DiffForm Samples SlotFacts ExportFacts ApplyFacts.

(** *** Workers that stay where they are *)

Lemma kept_refl w f : kept w f f.
Proof. now repeat split. Qed.

Lemma kept_trans w f g h : kept w f g -> kept w g h -> kept w f h.
Proof.
  intros (A1 & A2 & A3) (B1 & B2 & B3). repeat split.
  - now rewrite B1.
  - now rewrite B2.
  - auto.
Qed.

Lemma kept_same w f f' :
  status_of w f' = status_of w f -> thread_of w f' = thread_of w f ->
  kept w f f'.
Proof.
  intros A B. unfold kept, present, finished, in_loop, has_status.
  now rewrite A, B.
Qed.

Lemma same_phase_refl f : same_phase f f.
Proof. split; [intros w; apply kept_refl|reflexivity]. Qed.

Lemma same_phase_trans f g h :
  same_phase f g -> same_phase g h -> same_phase f h.
Proof.
  intros [A1 A2] [B1 B2]. split.
  - intros w. exact (kept_trans _ _ _ _ (A1 w) (B1 w)).
  - congruence.
Qed.

Lemma same_sources_refl f : same_sources f f.
Proof. intros w _. apply kept_refl. Qed.

Lemma same_sources_trans f g h :
  same_sources f g -> same_sources g h -> same_sources f h.
Proof. intros A B w H. exact (kept_trans _ _ _ _ (A w H) (B w H)). Qed.

Lemma same_phase_sources f f' : same_phase f f' -> same_sources f f'.
Proof. intros [A _] w _. apply A. Qed.

(** Forms with the same workers and the same progress of the diff. *)
Lemma same_workers f f' :
  src_import_w f' = src_import_w f -> import_w f' = import_w f ->
  diff_w f' = diff_w f -> export_w f' = export_w f ->
  diff_progress f' = diff_progress f ->
  same_phase f f'.
Proof.
  intros A B C D E. split; [|assumption].
  intros w. apply kept_same; destruct w; cbn; congruence.
Qed.

Lemma same_source_workers f f' :
  src_import_w f' = src_import_w f -> import_w f' = import_w f ->
  diff_w f' = diff_w f ->
  same_sources f f'.
Proof.
  intros A B C w H. apply kept_same; destruct w; cbn; congruence.
Qed.

Ltac phase_observers :=
  unfold kept, present, finished, in_loop, has_status, status_of, thread_of.

Ltac cancelled_worker :=
  match goal with
  | |- context [cancel_worker _ ?x] => destruct x as [[[] [[] ? ?]]|]
  end.

Lemma kept_cancelOperation b w f : kept w f (cancelOperation b f).
Proof.
  phase_observers.
  destruct b, w; cbn; cancelled_worker; cbn; repeat split; auto.
Qed.

Lemma same_phase_cancelOperation b f : same_phase f (cancelOperation b f).
Proof.
  split; [intros w; apply kept_cancelOperation|now destruct b].
Qed.

Lemma step_pb_cancelOperation b f : step_pb (cancelOperation b f) = step_pb f.
Proof. now destruct b. Qed.

Lemma same_phase_finishDiff f : same_phase f (finishDiff f).
Proof.
  apply (same_phase_trans _ (cancelOperation false f));
    [apply same_phase_cancelOperation|].
  now apply same_workers.
Qed.

Lemma step_pb_finishDiff f :
  step_pb (finishDiff f) = setValue 100 (step_pb f).
Proof. reflexivity. Qed.

Lemma same_phase_captureThreadError e f :
  same_phase f (state_of (captureThreadError e f)).
Proof.
  apply (same_phase_trans _ (cancelOperation false f));
    [apply same_phase_cancelOperation|].
  now apply same_workers.
Qed.

Lemma step_pb_captureThreadError e f :
  step_pb (state_of (captureThreadError e f)) = step_pb f.
Proof. reflexivity. Qed.

Lemma same_phase_progress_items p m t c f :
  same_phase f (progress_items p m t c f).
Proof.
  unfold progress_items, export_progress_item.
  repeat match goal with
         | |- context [if ?c then _ else _] => destruct c
         end; now apply same_workers.
Qed.

Lemma step_pb_progress_items p m t c f :
  step_pb (progress_items p m t c f) = step_pb f.
Proof.
  unfold progress_items, export_progress_item.
  repeat match goal with
         | |- context [if ?c then _ else _] => destruct c
         end; reflexivity.
Qed.

Lemma same_phase_updateProgress p m t c f :
  same_phase f (updateProgress p m t c f).
Proof.
  apply (same_phase_trans _ (progress_items p (Formatted m) t c f));
    [apply same_phase_progress_items|].
  unfold updateProgress, raise_step_pb.
  match goal with |- context [if ?c then _ else _] => destruct c end;
    now apply same_workers.
Qed.

Lemma same_phase_handleErrorIgnored c m cmd f :
  same_phase f (handleErrorIgnored c m cmd f).
Proof. now apply same_workers. Qed.

Lemma same_phase_quit_event_loop f : same_phase f (quit_event_loop f).
Proof.
  unfold quit_event_loop.
  destruct (negb (isThreadsRunning f)); now apply same_workers.
Qed.

Lemma step_pb_quit_event_loop f : step_pb (quit_event_loop f) = step_pb f.
Proof. unfold quit_event_loop. now destruct (negb (isThreadsRunning f)). Qed.

Lemma same_phase_closeEvent f : same_phase f (fst (closeEvent f)).
Proof.
  unfold closeEvent.
  destruct (isThreadsRunning f), (process_paused f); cbn [fst];
    try apply same_phase_quit_event_loop.
  eapply same_phase_trans;
    [apply (same_phase_cancelOperation true)|apply same_phase_quit_event_loop].
Qed.

Lemma step_pb_closeEvent f : step_pb (fst (closeEvent f)) = step_pb f.
Proof.
  unfold closeEvent.
  destruct (isThreadsRunning f), (process_paused f); cbn [fst];
    rewrite step_pb_quit_event_loop; reflexivity.
Qed.

Lemma same_phase_loadDiffInSQLTool ok f :
  same_phase f (state_of (loadDiffInSQLTool ok f)).
Proof.
  unfold loadDiffInSQLTool.
  match goal with |- context [if ?c then _ else _] => destruct c end;
    cbn [state_of].
  - apply same_phase_cancelOperation.
  - eapply same_phase_trans;
      [apply (same_phase_cancelOperation true)|apply same_phase_closeEvent].
Qed.

Lemma step_pb_loadDiffInSQLTool ok f :
  step_pb (state_of (loadDiffInSQLTool ok f)) = step_pb f.
Proof.
  unfold loadDiffInSQLTool.
  match goal with |- context [if ?c then _ else _] => destruct c end;
    cbn [state_of]; rewrite ?step_pb_closeEvent;
    apply step_pb_cancelOperation.
Qed.

(** The thread of a worker leaves its loop. *)
Lemma same_phase_exited w f : same_phase f (on_thread_of w exited f).
Proof.
  split; [|now destruct w].
  intros w'. phase_observers.
  destruct w, w'; cbn; try (repeat split; auto; fail);
    match goal with
    | |- context [option_map (on_thread exited) ?x] =>
        destruct x as [[[] ?]|]
    end; cbn; repeat split; auto.
Qed.

Lemma step_pb_on_thread_of w g f : step_pb (on_thread_of w g f) = step_pb f.
Proof. now destruct w. Qed.

(** The status of a helper changes. *)
Lemma kept_set_status_other w w' s f :
  w' <> w -> kept w' f (set_status w s f).
Proof.
  intros H. apply kept_same; destruct w, w'; try congruence; reflexivity.
Qed.

Lemma present_set_status w w' s f :
  present w' (set_status w s f) = present w' f.
Proof.
  unfold present, status_of.
  destruct w, w'; cbn; try reflexivity;
    match goal with
    | |- context [option_map (on_helper _) ?x] => now destruct x
    end.
Qed.

Lemma thread_of_set_status w w' s f :
  thread_of w' (set_status w s f) = thread_of w' f.
Proof.
  unfold thread_of.
  destruct w, w'; cbn; try reflexivity;
    match goal with
    | |- context [option_map (on_helper _) ?x] => now destruct x
    end.
Qed.

Lemma in_loop_set_status w w' s f :
  in_loop w' (set_status w s f) = in_loop w' f.
Proof. unfold in_loop. now rewrite thread_of_set_status. Qed.

Lemma status_of_set_status w s f :
  present w f = true -> status_of w (set_status w s f) = Some s.
Proof.
  unfold present, status_of.
  destruct w; cbn;
    match goal with
    | |- context [option_map (on_helper _) ?x] => now destruct x
    end.
Qed.

Lemma has_status_present w s f :
  has_status w (Some s) f = true -> present w f = true.
Proof.
  unfold has_status, present. now destruct (status_of w f).
Qed.

Lemma has_status_eq w s f :
  has_status w (Some s) f = true -> status_of w f = Some s.
Proof.
  unfold has_status.
  destruct (status_of w f) as [[]|], s; congruence.
Qed.

(** A helper goes from working to another state that is not the finished
    one. *)
Lemma same_phase_set_status w s f :
  has_status w (Some Working) f = true -> s <> Finished ->
  same_phase f (set_status w s f).
Proof.
  intros H Hs. split; [|now destruct w].
  intros w'. repeat split.
  - apply present_set_status.
  - destruct w, w'; try (apply kept_set_status_other; congruence);
      unfold finished, has_status;
      rewrite status_of_set_status by (eapply has_status_present; eassumption);
      rewrite (has_status_eq _ _ _ H); now destruct s.
  - now rewrite in_loop_set_status.
Qed.

Lemma step_pb_set_status w s f : step_pb (set_status w s f) = step_pb f.
Proof. now destruct w. Qed.

Lemma diff_progress_set_status w s f :
  diff_progress (set_status w s f) = diff_progress f.
Proof. now destruct w. Qed.

(** *** The order of the phases *)

Lemma present_status w f f' :
  status_of w f' = status_of w f -> present w f' = present w f.
Proof. unfold present. now intros ->. Qed.

Lemma finished_status w f f' :
  status_of w f' = status_of w f -> finished w f' = finished w f.
Proof. unfold finished, has_status. now intros ->. Qed.

Lemma src_settled_status f f' :
  status_of SrcImportW f' = status_of SrcImportW f ->
  src_settled f' = src_settled f.
Proof.
  intros H. unfold src_settled.
  now rewrite (present_status _ _ _ H), (finished_status _ _ _ H).
Qed.

Lemma in_loop_thread w f f' :
  thread_of w f' = thread_of w f -> in_loop w f' = in_loop w f.
Proof. unfold in_loop. now intros ->. Qed.

Lemma src_settled_kept f f' :
  kept SrcImportW f f' -> src_settled f' = src_settled f.
Proof. intros (A & B & _). unfold src_settled. now rewrite A, B. Qed.

Lemma not_in_loop_kept w f f' :
  kept w f f' -> in_loop w f = false -> in_loop w f' = false.
Proof.
  intros (_ & _ & A) H. destruct (in_loop w f') eqn:E; [|reflexivity].
  rewrite A in H by reflexivity. discriminate.
Qed.

Lemma order_inv_kept f f' :
  kept SrcImportW f f' -> kept ImportW f f' ->
  present DiffW f' = present DiffW f ->
  order_inv f -> order_inv f'.
Proof.
  intros S1 S2 S3 [I D]. split.
  - destruct S2 as (-> & _ & _). intros H. destruct (I H) as [X Y].
    rewrite (src_settled_kept _ _ S1). split; [assumption|].
    now apply (not_in_loop_kept _ _ _ S1).
  - rewrite S3. intros H. destruct (D H) as (X & Y & Z).
    rewrite (src_settled_kept _ _ S1). split; [assumption|]. split.
    + destruct S2 as (_ & -> & _). assumption.
    + now apply (not_in_loop_kept _ _ _ S2).
Qed.

Lemma order_inv_sources f f' :
  same_sources f f' -> order_inv f -> order_inv f'.
Proof.
  intros S. apply order_inv_kept; apply S; discriminate.
Qed.

Lemma running_src_present f :
  running (src_import_w f) = true -> present SrcImportW f = true.
Proof. unfold present, status_of. now destruct (src_import_w f). Qed.

Lemma import_w_present f :
  is_some (import_w f) = present ImportW f.
Proof. unfold present, status_of. now destruct (import_w f). Qed.


Lemma export_w_present f :
  is_some (export_w f) = present ExportW f.
Proof. unfold present, status_of. now destruct (export_w f). Qed.

(** A helper whose finished signal is queued is neither absent nor
    finished. *)
Lemma done_not_settled f :
  has_status SrcImportW (Some Done) f = true -> src_settled f = false.
Proof.
  unfold src_settled, present, finished, has_status.
  now destruct (status_of SrcImportW f) as [[]|].
Qed.

Lemma done_not_finished w f :
  has_status w (Some Done) f = true -> finished w f = false.
Proof.
  unfold finished, has_status. now destruct (status_of w f) as [[]|].
Qed.

Lemma finished_set w f :
  present w f = true -> finished w (set_status w Finished f) = true.
Proof.
  intros H. unfold finished, has_status.
  now rewrite status_of_set_status.
Qed.

Lemma status_of_set_status_other w w' s f :
  w' <> w -> status_of w' (set_status w s f) = status_of w' f.
Proof. intros H. destruct w, w'; try congruence; reflexivity. Qed.

(** No import ends while the diff exists. *)
Lemma import_ends_before_diff w f :
  order_inv f -> is_importer w = true -> has_status w (Some Done) f = true ->
  present DiffW f = false.
Proof.
  intros [_ D] W H. destruct (present DiffW f) eqn:P; [|reflexivity].
  destruct (D eq_refl) as (X & Y & _). destruct w; try discriminate.
  - now rewrite done_not_settled in X.
  - now rewrite done_not_finished in Y.
Qed.

(** [importDatabase] for the target. *)
Lemma launch_import ok f :
  let f' :=
    state_of
      (importDatabase ImportThread ok
         (on_src_import_w (option_map (on_thread quit))
            (set_curr_step (curr_step f + 1)%Z f))) in
  status_of SrcImportW f' = status_of SrcImportW f
  /\ in_loop SrcImportW f' = false
  /\ present ImportW f' = true
  /\ diff_w f' = diff_w f
  /\ export_w f' = export_w f
  /\ step_pb f' = step_pb f
  /\ diff_progress f' = diff_progress f.
Proof.
  unfold importDatabase, in_loop, present, status_of, thread_of.
  destruct ok; cbn; destruct (src_import_w f) as [[[] ?]|]; repeat split.
Qed.

Lemma launch_diff f :
  let f' :=
    diffModels
      (on_import_w (option_map (on_thread quit))
         (set_curr_step (curr_step f + 1)%Z f)) in
  src_import_w f' = src_import_w f
  /\ status_of ImportW f' = status_of ImportW f
  /\ in_loop ImportW f' = false
  /\ status_of DiffW f' = Some Working
  /\ export_w f' = export_w f
  /\ step_pb f' = step_pb f
  /\ diff_progress f' = value (step_pb f).
Proof.
  unfold diffModels, in_loop, status_of, thread_of.
  cbn; destruct (import_w f) as [[[] ?]|]; repeat split.
Qed.

Lemma handleImportFinished_cases e ok f r :
  handleImportFinished e ok f = Some r ->
  (running (src_import_w f) = true
   /\ r = importDatabase ImportThread ok
            (on_src_import_w (option_map (on_thread quit))
               (set_curr_step (curr_step f + 1)%Z f)))
  \/ (running (src_import_w f) = false
      /\ present ImportW f = true
      /\ r = Returned
               (diffModels
                  (on_import_w (option_map (on_thread quit))
                     (set_curr_step (curr_step f + 1)%Z f)))).
Proof.
  unfold handleImportFinished. cbn.
  destruct (running (src_import_w f)).
  - destruct (is_some (src_import_item f)); [|discriminate].
    intros H. left. split; [reflexivity|congruence].
  - rewrite import_w_present. destruct (present ImportW f); [|discriminate].
    intros H. right. repeat split. congruence.
Qed.

(** The finished signal of an import reaches the form: the target import or
    the diff is launched, in the order of the phases. *)
Lemma ImportFinished_effect w e ok f f' :
  order_inv f -> step (ImportFinished w e ok) f = Some f' ->
  present DiffW f = false
  /\ step_pb f' = step_pb f
  /\ present ExportW f' = present ExportW f
  /\ present SrcImportW f' = present SrcImportW f
  /\ order_inv f'
  /\ finished DiffW f' = false
  /\ (present DiffW f' = true -> diff_progress f' = value (step_pb f)).
Proof.
  intros O. cbn [step].
  destruct (is_importer w && has_status w (Some Done) f) eqn:E;
    [|discriminate].
  apply andb_prop in E. destruct E as [W H].
  assert (A := import_ends_before_diff w f O W H).
  assert (P := has_status_present _ _ _ H).
  set (f1 := set_status w Finished f).
  assert (ND : status_of DiffW f1 = None).
  { unfold f1. rewrite status_of_set_status_other by (now destruct w).
    unfold present in A. now destruct (status_of DiffW f). }
  assert (XE : status_of ExportW f1 = status_of ExportW f).
  { unfold f1. apply status_of_set_status_other. now destruct w. }
  assert (B1 : step_pb f1 = step_pb f) by apply step_pb_set_status.
  destruct (handleImportFinished e ok f1) as [r|] eqn:R; [|discriminate].
  intros X. apply Some_eq in X. subst f'.
  destruct (handleImportFinished_cases _ _ _ _ R) as [[Run ->]|(Run & PI & ->)].
  - destruct (launch_import ok f1) as (S & L & I & D & X & B & G).
    cbv zeta in S, L, I, D, X, B, G.
    assert (PS : present SrcImportW f1 = present SrcImportW f)
      by apply present_set_status.
    assert (SS : src_settled f1 = true).
    { destruct w; try discriminate.
      - unfold src_settled. unfold f1. rewrite finished_set by assumption.
        apply orb_true_r.
      - unfold f1.
        rewrite (src_settled_status f (set_status ImportW Finished f))
          by (now apply status_of_set_status_other).
        now apply (inv_import f O). }
    split; [assumption|]. split; [congruence|].
    split.
    { unfold present at 1. unfold status_of. rewrite X.
      exact (present_status ExportW f f1 XE). }
    split; [now rewrite (present_status _ _ _ S)|].
    assert (PD : forall g, diff_w g = diff_w f1 -> present DiffW g = false).
    { intros g Hg. unfold present, status_of. rewrite Hg.
      fold (status_of DiffW f1). now rewrite ND. }
    split; [|split].
    + split.
      * intros _. split; [|assumption].
        now rewrite (src_settled_status _ _ S).
      * rewrite (PD _ D). discriminate.
    + unfold finished, has_status, status_of. rewrite D.
      fold (status_of DiffW f1). now rewrite ND.
    + rewrite (PD _ D). discriminate.
  - destruct (launch_diff f1) as (S & SI & L & D & X & B & G).
    cbv zeta in S, SI, L, D, X, B, G.
    assert (PI0 : present ImportW f = true)
      by (now rewrite <- (present_set_status w ImportW Finished f)).
    destruct (inv_import f O PI0) as [SS LS].
    destruct w; try discriminate; [now rewrite done_not_settled in SS|].
    assert (S0 : src_import_w f1 = src_import_w f) by reflexivity.
    rewrite S0 in S.
    assert (KS : status_of SrcImportW
                   (diffModels
                      (on_import_w (option_map (on_thread quit))
                         (set_curr_step (curr_step f1 + 1)%Z f1)))
                 = status_of SrcImportW f)
      by (unfold status_of; now rewrite S).
    assert (KT : thread_of SrcImportW
                   (diffModels
                      (on_import_w (option_map (on_thread quit))
                         (set_curr_step (curr_step f1 + 1)%Z f1)))
                 = thread_of SrcImportW f)
      by (unfold thread_of; now rewrite S).
    cbn [state_of].
    split; [assumption|]. split; [congruence|].
    split.
    { unfold present at 1. unfold status_of. rewrite X.
      exact (present_status ExportW f f1 XE). }
    split; [now rewrite (present_status _ _ _ KS)|].
    assert (FI : finished ImportW
                   (diffModels
                      (on_import_w (option_map (on_thread quit))
                         (set_curr_step (curr_step f1 + 1)%Z f1))) = true).
    { rewrite (finished_status _ _ _ SI). now apply finished_set. }
    split; [|split].
    + split.
      * intros _. rewrite (src_settled_status _ _ KS).
        now rewrite (in_loop_thread _ _ _ KT).
      * intros _. rewrite (src_settled_status _ _ KS). auto.
    + unfold finished, has_status. now rewrite D.
    + intros _. congruence.
Qed.

(** *** The step bar *)

Lemma setValue_percent v pb : percent_bar pb -> percent_bar (setValue v pb).
Proof.
  unfold percent_bar, setValue. intros [A B].
  match goal with |- context [if ?c then _ else _] => destruct c end; auto.
Qed.

Lemma setValue_value v pb :
  percent_bar pb -> (0 <= v <= 100)%Z -> value (setValue v pb) = v.
Proof.
  unfold percent_bar, setValue. intros [A B] H. rewrite A, B.
  destruct (v =? value pb)%Z eqn:E; [apply Z.eqb_eq in E; now cbn|].
  replace (100 <? v)%Z with false by (symmetry; apply Z.ltb_ge; lia).
  replace (v <? 0)%Z with false by (symmetry; apply Z.ltb_ge; lia).
  reflexivity.
Qed.

(** A value out of the range is not taken. *)
Lemma setValue_range v pb :
  percent_bar pb -> (0 <= value pb <= 100)%Z ->
  (0 <= value (setValue v pb) <= 100)%Z.
Proof.
  unfold percent_bar, setValue. intros [A B] H. rewrite A, B.
  destruct (v =? value pb)%Z; [assumption|].
  destruct (100 <? v)%Z eqn:E1; [assumption|].
  destruct (v <? 0)%Z eqn:E2; [assumption|].
  apply Z.ltb_ge in E1, E2. cbn. lia.
Qed.

(** The bar is set to a value that is in the range and not below the one it
    shows. *)
Lemma setValue_up v pb :
  percent_bar pb -> (0 <= value pb <= v)%Z -> (v <= 100)%Z ->
  percent_bar (setValue v pb)
  /\ value (setValue v pb) = v.
Proof.
  intros P H V. split; [now apply setValue_percent|].
  apply setValue_value; [assumption|lia].
Qed.

(** *** The end of the diff *)

Lemma same_sources_take_diff d f : same_sources f (take_diff d f).
Proof.
  intros w H. destruct w; try congruence.
  1-2: apply kept_same; unfold take_diff, demo_truncate;
    match goal with |- context [if ?c then _ else _] => destruct c end;
    reflexivity.
  unfold kept, present, finished, in_loop, has_status, status_of, thread_of.
  unfold take_diff, demo_truncate.
  match goal with |- context [if ?c then _ else _] => destruct c end;
    cbn; destruct (diff_w f) as [[[] ?]|]; repeat split; auto.
Qed.

Lemma step_pb_take_diff d f : step_pb (take_diff d f) = step_pb f.
Proof.
  unfold take_diff, demo_truncate.
  match goal with |- context [if ?c then _ else _] => now destruct c end.
Qed.

Lemma same_sources_createThread_export f :
  same_sources f (createThread ExportThread f).
Proof. now apply same_source_workers. Qed.

Lemma same_sources_exportDiff confirm msgbox f :
  same_sources f (exportDiff confirm msgbox f).
Proof.
  unfold exportDiff.
  destruct (negb confirm || is_accepted (result msgbox)).
  - now apply same_source_workers.
  - destruct (isCancelled msgbox).
    + eapply same_sources_trans; [apply same_sources_createThread_export|].
      apply same_phase_sources, same_phase_cancelOperation.
    + now apply same_source_workers.
Qed.

Lemma step_pb_exportDiff confirm msgbox f :
  step_pb (exportDiff confirm msgbox f) = step_pb f.
Proof.
  unfold exportDiff.
  destruct (negb confirm || is_accepted (result msgbox)); [reflexivity|].
  destruct (isCancelled msgbox); [|reflexivity].
  now rewrite step_pb_cancelOperation.
Qed.

Lemma present_exportDiff confirm msgbox f :
  present ExportW (exportDiff confirm msgbox f) = true.
Proof.
  unfold exportDiff.
  destruct (negb confirm || is_accepted (result msgbox)); [reflexivity|].
  destruct (isCancelled msgbox); [|reflexivity].
  now destruct (kept_cancelOperation true ExportW
                  (createThread ExportThread f)) as (-> & _).
Qed.

Lemma same_sources_saveDiffToFile ok f :
  same_sources f (state_of (saveDiffToFile ok f)).
Proof.
  unfold saveDiffToFile.
  destruct (negb (isEmpty (sqlcode_txt f)));
    [|apply same_phase_sources, same_phase_finishDiff].
  destruct ok; cbn [state_of]; [|now apply same_source_workers].
  eapply same_sources_trans;
    [|apply same_phase_sources, same_phase_finishDiff].
  now apply same_source_workers.
Qed.

Lemma same_sources_note_no_differences f :
  same_sources f (note_no_differences f).
Proof.
  unfold note_no_differences.
  destruct (isEmpty (sqlcode_txt f)); now apply same_source_workers.
Qed.

Lemma step_pb_note_no_differences f :
  step_pb (note_no_differences f) = step_pb f.
Proof.
  unfold note_no_differences. now destruct (isEmpty (sqlcode_txt f)).
Qed.

Lemma same_sources_conclude_diff msgbox ok f :
  same_sources f (state_of (conclude_diff msgbox ok f)).
Proof.
  unfold conclude_diff.
  destruct (store_in_file_rb (inputs f)).
  - assert (S := same_sources_saveDiffToFile ok f).
    destruct (saveDiffToFile ok f) as [g|g]; cbn [state_of] in *;
      [|assumption].
    eapply same_sources_trans; [exact S|].
    apply same_sources_note_no_differences.
  - destruct (negb (isEmpty (sqlcode_txt f))); cbn [state_of].
    + eapply same_sources_trans; [apply same_sources_exportDiff|].
      apply same_sources_note_no_differences.
    + eapply same_sources_trans;
        [apply same_phase_sources, same_phase_finishDiff|].
      apply same_sources_note_no_differences.
Qed.

(** The bar at the end of the diff: it goes to 90 when the script is saved
    and to 100 when the run is over, and stays where it is when the script is
    to be applied. *)
Lemma finishDiff_bar f :
  percent_bar (step_pb f) -> (0 <= value (step_pb f) <= 100)%Z ->
  percent_bar (step_pb (finishDiff f))
  /\ value (step_pb (finishDiff f)) = 100%Z.
Proof.
  intros P H. rewrite step_pb_finishDiff. apply setValue_up; [assumption|lia..].
Qed.

Lemma saveDiffToFile_bar ok f :
  percent_bar (step_pb f) -> (0 <= value (step_pb f) <= 90)%Z ->
  percent_bar (step_pb (state_of (saveDiffToFile ok f)))
  /\ (value (step_pb f) <= value (step_pb (state_of (saveDiffToFile ok f)))
      <= 100)%Z.
Proof.
  intros P H. unfold saveDiffToFile.
  destruct (negb (isEmpty (sqlcode_txt f))); cbn [state_of].
  - destruct (setValue_up 90 (step_pb f) P) as [P' V]; [lia..|].
    destruct ok; cbn [state_of].
    + match goal with
      | |- context [finishDiff ?g] =>
          destruct (finishDiff_bar g) as [Q W]; [exact P'|cbn; lia|]
      end.
      split; [exact Q|]. rewrite W. lia.
    + cbn. split; [exact P'|]. rewrite V. lia.
  - destruct (finishDiff_bar f) as [Q W]; [assumption|lia|].
    split; [exact Q|]. rewrite W. lia.
Qed.

Lemma conclude_diff_bar msgbox ok f :
  percent_bar (step_pb f) -> (0 <= value (step_pb f) <= 90)%Z ->
  percent_bar (step_pb (state_of (conclude_diff msgbox ok f)))
  /\ (value (step_pb f)
      <= value (step_pb (state_of (conclude_diff msgbox ok f))) <= 100)%Z.
Proof.
  intros P H. unfold conclude_diff.
  destruct (store_in_file_rb (inputs f)).
  - assert (S := saveDiffToFile_bar ok f P H).
    destruct (saveDiffToFile ok f) as [g|g]; cbn [state_of] in *;
      rewrite ?step_pb_note_no_differences; exact S.
  - destruct (negb (isEmpty (sqlcode_txt f))); cbn [state_of];
      rewrite step_pb_note_no_differences.
    + rewrite step_pb_exportDiff. split; [assumption|lia].
    + destruct (finishDiff_bar f) as [Q W]; [assumption|lia|].
      split; [exact Q|]. rewrite W. lia.
Qed.

(** The finished signal of the diff reaches the form. *)
Lemma DiffFinished_effect d msgbox ok f f' :
  step (DiffFinished d msgbox ok) f = Some f' ->
  finished DiffW f = false
  /\ kept SrcImportW f f' /\ kept ImportW f f'
  /\ present DiffW f' = present DiffW f
  /\ finished DiffW f' = true
  /\ (percent_bar (step_pb f) -> (0 <= value (step_pb f) <= 90)%Z ->
      percent_bar (step_pb f')
      /\ (value (step_pb f) <= value (step_pb f') <= 100)%Z).
Proof.
  cbn [step].
  destruct (has_status DiffW (Some Done) f) eqn:H; [|discriminate].
  set (f1 := set_status DiffW Finished f).
  unfold handleDiffFinished.
  destruct (is_some (diff_w f1)); [|discriminate].
  cbn [option_map]. intros X. apply Some_eq in X. subst f'.
  assert (S : same_sources f1
                (state_of (conclude_diff msgbox ok (take_diff d f1)))).
  { eapply same_sources_trans; [apply same_sources_take_diff|].
    apply same_sources_conclude_diff. }
  assert (P := has_status_present _ _ _ H).
  split; [now apply done_not_finished|].
  split; [|split; [|split; [|split]]].
  - eapply kept_trans; [|apply S; discriminate].
    apply kept_set_status_other. discriminate.
  - eapply kept_trans; [|apply S; discriminate].
    apply kept_set_status_other. discriminate.
  - destruct (S DiffW) as (-> & _); [discriminate|].
    apply present_set_status.
  - destruct (S DiffW) as (_ & -> & _); [discriminate|].
    now apply finished_set.
  - intros Q V.
    assert (B : step_pb (take_diff d f1) = step_pb f)
      by (rewrite step_pb_take_diff; apply step_pb_set_status).
    rewrite <- B in Q, V |- *.
    now apply conclude_diff_bar.
Qed.

(** *** The export *)

Lemma same_sources_apply_lambda f f' :
  apply_lambda f = Some f' ->
  present ExportW f = true /\ present ExportW f' = true
  /\ same_sources f f' /\ step_pb f' = step_pb f.
Proof.
  unfold apply_lambda.
  change (export_w (set_apply_on_server_btn false f)) with (export_w f).
  destruct (export_w f) as [w|] eqn:E; [|discriminate].
  intros X. apply Some_eq in X. subst f'.
  assert (P : present ExportW f = true)
    by (unfold present, status_of; now rewrite E).
  split; [assumption|].
  destruct (negb (isRunning (thread w))).
  - split; [apply present_exportDiff|]. split.
    + eapply same_sources_trans; [|apply same_sources_exportDiff].
      now apply same_source_workers.
    + now rewrite step_pb_exportDiff.
  - split; [|split]; [|now apply same_source_workers|reflexivity].
    unfold present, status_of. cbn. now rewrite E.
Qed.

Lemma same_sources_emit_clicked n :
  forall f f',
    emit_clicked n f = Some f' ->
    f' = f
    \/ (present ExportW f = true /\ present ExportW f' = true
        /\ same_sources f f' /\ step_pb f' = step_pb f).
Proof.
  induction n as [|n IH]; intros f f'; cbn [emit_clicked].
  - intros X. apply Some_eq in X. now left.
  - destruct (apply_lambda f) as [g|] eqn:E; [|discriminate].
    intros X. right.
    destruct (same_sources_apply_lambda _ _ E) as (A & A' & B & C).
    destruct (IH _ _ X) as [->|(A1 & A2 & B1 & C1)]; [auto|].
    split; [assumption|]. split; [assumption|]. split; [|congruence].
    eapply same_sources_trans; eassumption.
Qed.

Lemma ExportFinished_effect list_ok f f' :
  step (ExportFinished list_ok) f = Some f' ->
  present ExportW f = true /\ present ExportW f' = true
  /\ same_sources f f'
  /\ (percent_bar (step_pb f) -> (0 <= value (step_pb f) <= 100)%Z ->
      percent_bar (step_pb f')
      /\ (value (step_pb f) <= value (step_pb f') <= 100)%Z).
Proof.
  cbn [step].
  destruct (has_status ExportW (Some Done) f) eqn:H; [|discriminate].
  assert (P := has_status_present _ _ _ H).
  set (f1 := set_status ExportW Finished f).
  assert (S1 : same_sources f f1)
    by (intros w Hw; now apply kept_set_status_other).
  assert (P1 : present ExportW f1 = true)
    by (unfold f1; now rewrite present_set_status).
  assert (B1 : step_pb f1 = step_pb f) by apply step_pb_set_status.
  clearbody f1. unfold handleExportFinished.
  destruct (is_some (export_w f1)); [|discriminate].
  set (f2 := on_export_w _ f1).
  assert (S2 : same_sources f1 f2) by (now apply same_source_workers).
  assert (P2 : present ExportW f2 = true).
  { revert P1. unfold present, status_of, f2. cbn.
    now destruct (export_w f1). }
  assert (B2 : step_pb f2 = step_pb f) by (now rewrite <- B1).
  cbn [option_map]. intros X. apply Some_eq in X. subst f'.
  split; [assumption|].
  destruct list_ok; cbn [state_of].
  - split; [|split].
    + destruct (same_phase_finishDiff f2) as [K _].
      now destruct (K ExportW) as (-> & _).
    + eapply same_sources_trans; [exact S1|].
      eapply same_sources_trans; [exact S2|].
      apply same_phase_sources, same_phase_finishDiff.
    + intros Q V.
      destruct (finishDiff_bar f2) as [Q' W]; [now rewrite B2..|].
      split; [exact Q'|]. rewrite W. lia.
  - split; [assumption|]. split.
    + eapply same_sources_trans; eassumption.
    + intros Q V. rewrite B2. split; [assumption|lia].
Qed.

(** *** Progress *)

Lemma step_pb_updateProgress p m t c f :
  step_pb (updateProgress p m t c f)
  = if (value (step_pb f) <? progress_aux_of p f)%Z
    then setValue (progress_aux_of p f) (step_pb f) else step_pb f.
Proof.
  unfold updateProgress, raise_step_pb.
  rewrite step_pb_progress_items.
  destruct (value (step_pb f) <? progress_aux_of p f)%Z; cbn;
    now rewrite ?step_pb_progress_items.
Qed.

Lemma setValue_cases v pb :
  setValue v pb = pb \/ value (setValue v pb) = v.
Proof.
  unfold setValue.
  match goal with |- context [if ?c then _ else _] => destruct c end; auto.
Qed.

(** A progress update moves the bar only upwards, and only to the share that
    the running phase has reached. *)
Lemma updateProgress_raises p m t c f :
  (value (step_pb f) <= value (step_pb (updateProgress p m t c f)))%Z
  /\ (value (step_pb (updateProgress p m t c f)) <> value (step_pb f) ->
      value (step_pb (updateProgress p m t c f)) = progress_aux_of p f
      /\ (value (step_pb f) < progress_aux_of p f)%Z).
Proof.
  rewrite step_pb_updateProgress.
  destruct (value (step_pb f) <? progress_aux_of p f)%Z eqn:E.
  - apply Z.ltb_lt in E.
    destruct (setValue_cases (progress_aux_of p f) (step_pb f)) as [->| ->].
    + split; [lia|congruence].
    + split; [lia|auto].
  - split; [lia|congruence].
Qed.

Lemma running_diff_present f :
  running (diff_w f) = true -> present DiffW f = true.
Proof. unfold present, status_of. now destruct (diff_w f). Qed.

Lemma running_export_present f :
  running (export_w f) = true -> present ExportW f = true.
Proof. unfold present, status_of. now destruct (export_w f). Qed.

Lemma quot_percent p d q :
  (0 <= p <= 100)%Z -> (0 < d)%Z -> (100 < d * (q + 1))%Z ->
  (0 <= Z.quot p d <= q)%Z.
Proof.
  intros H D Q. split; [apply Z.quot_pos; lia|].
  apply Z.lt_succ_r. apply Z.quot_lt_upper_bound; lia.
Qed.

(** Before the diff has finished, the share of the running phase is at most
    73, and at most 40 before the diff exists. *)
Lemma progress_aux_bound p f :
  (0 <= p <= 100)%Z -> bar_inv f -> finished DiffW f = false ->
  (progress_aux_of p f <= 73)%Z
  /\ (present DiffW f = false -> (progress_aux_of p f <= 40)%Z).
Proof.
  intros H [_ B] F. destruct (B F) as (NE & V & D & ND).
  assert (Q5 := quot_percent p 5 20 H). assert (Q4 := quot_percent p 4 25 H).
  assert (Q3 := quot_percent p 3 33 H).
  unfold progress_aux_of.
  destruct (running (src_import_w f)); [lia|].
  destruct (running (import_w f));
    [destruct (src_model_rb (inputs f)); lia|].
  destruct (running (diff_w f)) eqn:RD.
  - apply running_diff_present in RD. specialize (D RD). split; [lia|].
    congruence.
  - destruct (running (export_w f)) eqn:RE; [|lia].
    apply running_export_present in RE. congruence.
Qed.

(** *** One event *)

Lemma bar_inv_same_phase f f' :
  same_phase f f' -> step_pb f' = step_pb f -> bar_inv f -> bar_inv f'.
Proof.
  intros [K G] B [R I]. split; rewrite B; [assumption|].
  destruct (K DiffW) as (-> & -> & _). destruct (K ExportW) as (-> & _).
  now rewrite G.
Qed.

Lemma step_quiet e f f' :
  quiet e = true -> step e f = Some f' ->
  same_phase f f' /\ step_pb f' = step_pb f.
Proof.
  destruct e; try discriminate; intros _; cbn [step].
  - destruct (has_status w (Some Working) f) eqn:E; [|discriminate].
    intros X. apply Some_eq in X. subst f'.
    split; [now apply same_phase_set_status|apply step_pb_set_status].
  - destruct (has_status w (Some Working) f) eqn:E; [|discriminate].
    intros X. apply Some_eq in X. subst f'. split.
    + eapply same_phase_trans; [|apply same_phase_captureThreadError].
      now apply same_phase_set_status.
    + rewrite step_pb_captureThreadError. apply step_pb_set_status.
  - intros X. apply Some_eq in X. subst f'.
    split; [apply same_phase_handleErrorIgnored|reflexivity].
  - destruct (thread_of w f) as [[]|]; try discriminate.
    intros X. apply Some_eq in X. subst f'.
    split; [apply same_phase_exited|apply step_pb_on_thread_of].
  - destruct (cancel_btn f); [|discriminate].
    intros X. apply Some_eq in X. subst f'.
    split; [apply same_phase_cancelOperation|apply step_pb_cancelOperation].
  - intros X. apply Some_eq in X. subst f'.
    split; [apply same_phase_loadDiffInSQLTool|apply step_pb_loadDiffInSQLTool].
  - intros X. apply Some_eq in X. subst f'.
    split; [apply same_phase_closeEvent|apply step_pb_closeEvent].
Qed.

Lemma ApplyOnServerClicked_effect f f' :
  step ApplyOnServerClicked f = Some f' ->
  f' = f
  \/ (present ExportW f = true /\ present ExportW f' = true
      /\ same_sources f f' /\ step_pb f' = step_pb f).
Proof.
  cbn [step].
  destruct (apply_on_server_btn f && apply_on_server_btn_visible f);
    [|discriminate].
  apply same_sources_emit_clicked.
Qed.

(** Every event keeps the order of the phases, and none creates or destroys
    the worker of the source import. *)
Lemma step_order e f f' :
  order_inv f -> step e f = Some f' ->
  order_inv f' /\ present SrcImportW f' = present SrcImportW f.
Proof.
  intros O H.
  assert (S : same_sources f f' ->
              order_inv f' /\ present SrcImportW f' = present SrcImportW f).
  { intros S. split; [now apply (order_inv_sources f)|].
    now destruct (S SrcImportW) as (-> & _). }
  destruct (quiet e) eqn:Q.
  { apply S, same_phase_sources. now apply (step_quiet e). }
  destruct e; try discriminate.
  - now destruct (ImportFinished_effect _ _ _ _ _ O H) as (_ & _ & _ & ? & ? & _).
  - destruct (DiffFinished_effect _ _ _ _ _ H) as (_ & K1 & K2 & K3 & _).
    split; [now apply (order_inv_kept f)|]. now destruct K1 as (-> & _).
  - now destruct (ExportFinished_effect _ _ _ H) as (_ & _ & ? & _); apply S.
  - injection H as <-. apply S, same_phase_sources, same_phase_updateProgress.
  - destruct (ApplyOnServerClicked_effect _ _ H) as [->|(_ & _ & ? & _)];
      [|now apply S].
    apply S, same_sources_refl.
Qed.

Lemma absent_not_finished w f : present w f = false -> finished w f = false.
Proof.
  unfold present, finished, has_status. now destruct (status_of w f) as [[]|].
Qed.

Lemma absent_not_in_loop w f : present w f = false -> in_loop w f = false.
Proof.
  unfold present, in_loop, status_of, thread_of.
  destruct w;
    match goal with
    | |- context [option_map _ ?x] => now destruct x
    end.
Qed.

(** Every event keeps the bar within its bounds and moves it upwards, if at
    all, as long as the helpers report percentages. *)
Lemma step_bar e f f' :
  order_inv f -> bar_inv f -> progress_in_range e = true ->
  step e f = Some f' ->
  bar_inv f' /\ (value (step_pb f) <= value (step_pb f'))%Z.
Proof.
  intros O B R H.
  destruct (quiet e) eqn:Q.
  { destruct (step_quiet e f f' Q H) as [S P].
    split; [now apply (bar_inv_same_phase f)|rewrite P; lia]. }
  destruct B as [[BP BV] BD].
  destruct e; try discriminate.
  - destruct (ImportFinished_effect _ _ _ _ _ O H)
      as (ND & P & PE & _ & _ & NF & G).
    destruct (BD (absent_not_finished _ _ ND)) as (NE & V & _ & V40).
    specialize (V40 ND).
    split; [|rewrite P; lia].
    split; rewrite P; [auto|]. intros _. rewrite PE.
    split; [assumption|]. split; [lia|]. split; [|auto].
    intros PD. rewrite (G PD). lia.
  - destruct (DiffFinished_effect _ _ _ _ _ H) as (NF & _ & _ & _ & F & Bar).
    destruct (BD NF) as (_ & V & _).
    destruct Bar as [P' V']; [assumption|lia|].
    split; [|lia]. split; [split; [assumption|lia]|]. congruence.
  - destruct (ExportFinished_effect _ _ _ H) as (PE & _ & S & Bar).
    destruct Bar as [P' V']; [assumption..|].
    split; [|lia]. split; [split; [assumption|lia]|].
    destruct (S DiffW) as (_ & -> & _); [discriminate|].
    intros NF. destruct (BD NF) as (NE & _). congruence.
  - injection H as <-. cbn in R. apply andb_prop in R. destruct R as [R1 R2].
    apply Z.leb_le in R1, R2.
    destruct (updateProgress_raises progress msg obj_type cmd f) as [Up Aux].
    split; [|assumption].
    destruct (same_phase_updateProgress progress msg obj_type cmd f) as [K G].
    assert (Range : percent_bar
                      (step_pb (updateProgress progress msg obj_type cmd f))
                    /\ (0 <= value
                               (step_pb
                                  (updateProgress progress msg obj_type cmd f))
                        <= 100)%Z).
    { rewrite step_pb_updateProgress.
      match goal with |- context [if ?c then _ else _] => destruct c end;
        [|auto].
      split; [now apply setValue_percent|now apply setValue_range]. }
    split; [exact Range|].
    destruct (K DiffW) as (-> & -> & _). destruct (K ExportW) as (-> & _).
    rewrite G. intros NF. destruct (BD NF) as (NE & V & D & V40).
    destruct (progress_aux_bound progress f) as [A73 A40];
      [lia|split; auto|assumption|].
    split; [assumption|].
    destruct (Z.eq_dec
                (value (step_pb (updateProgress progress msg obj_type cmd f)))
                (value (step_pb f))) as [E|E].
    + rewrite E. auto.
    + destruct (Aux E) as [-> _]. split; [assumption|]. split; auto.
  - destruct (ApplyOnServerClicked_effect _ _ H) as [->|(PE & PE' & S & P)].
    { split; [split; auto|lia]. }
    split; [|rewrite P; lia].
    split; rewrite P; [auto|].
    destruct (S DiffW) as (_ & -> & _); [discriminate|].
    intros NF. destruct (BD NF) as (NE & _). congruence.
Qed.

(** *** The start of a run *)

Lemma destroyThread_fields id f :
  inputs (destroyThread id f) = inputs f
  /\ step_pb (destroyThread id f) = step_pb f
  /\ (src_import_w f = None -> src_import_w (destroyThread id f) = None)
  /\ (import_w f = None -> import_w (destroyThread id f) = None)
  /\ (diff_w f = None -> diff_w (destroyThread id f) = None)
  /\ (export_w f = None -> export_w (destroyThread id f) = None).
Proof.
  unfold destroyThread.
  repeat match goal with
         | |- context [if ?c then _ else _] => destruct c
         end; repeat split; auto.
Qed.

Lemma destroyThread_src f :
  src_import_w (destroyThread SrcImportThread f) = None.
Proof.
  unfold destroyThread. cbn [Nat.eqb SrcImportThread ImportThread DiffThread
                               andb].
  destruct (src_import_w f) eqn:E; cbn [is_some]; [reflexivity|].
  now destruct (is_some (export_w f)).
Qed.

Lemma destroyThread_import f :
  import_w (destroyThread ImportThread f) = None.
Proof.
  unfold destroyThread. cbn [Nat.eqb SrcImportThread ImportThread DiffThread
                               andb].
  destruct (import_w f) eqn:E; cbn [is_some]; [reflexivity|].
  now destruct (is_some (export_w f)).
Qed.

Lemma destroyThread_diff f :
  diff_w (destroyThread DiffThread f) = None.
Proof.
  unfold destroyThread. cbn [Nat.eqb SrcImportThread ImportThread DiffThread
                               andb].
  destruct (diff_w f) eqn:E; cbn [is_some]; [reflexivity|].
  now destruct (is_some (export_w f)).
Qed.

Lemma destroyThread_export f :
  export_w (destroyThread ExportThread f) = None.
Proof.
  unfold destroyThread. cbn [Nat.eqb SrcImportThread ImportThread DiffThread
                               ExportThread andb].
  now destruct (export_w f) eqn:E.
Qed.

(** [generateDiff] destroys the four workers before it starts. *)
Lemma destroy_all f :
  let g :=
    destroyThread ExportThread
      (destroyThread DiffThread
         (destroyThread ImportThread (destroyThread SrcImportThread f))) in
  src_import_w g = None /\ import_w g = None /\ diff_w g = None
  /\ export_w g = None /\ inputs g = inputs f /\ step_pb g = step_pb f.
Proof.
  set (g1 := destroyThread SrcImportThread f).
  set (g2 := destroyThread ImportThread g1).
  set (g3 := destroyThread DiffThread g2).
  destruct (destroyThread_fields SrcImportThread f) as (I1 & P1 & _).
  destruct (destroyThread_fields ImportThread g1) as (I2 & P2 & S2 & _).
  destruct (destroyThread_fields DiffThread g2) as (I3 & P3 & S3 & M3 & _).
  destruct (destroyThread_fields ExportThread g3)
    as (I4 & P4 & S4 & M4 & D4 & _).
  assert (A1 := destroyThread_src f). assert (A2 := destroyThread_import g1).
  assert (A3 := destroyThread_diff g2). assert (A4 := destroyThread_export g3).
  fold g1 in I1, P1, A1. fold g2 in I2, P2, S2, A2.
  fold g3 in I3, P3, S3, M3, A3.
  cbv zeta. repeat split; auto; congruence.
Qed.

Lemma prepare_run_start msgbox f :
  src_import_w (prepare_run msgbox f) = None
  /\ import_w (prepare_run msgbox f) = None
  /\ diff_w (prepare_run msgbox f) = None
  /\ export_w (prepare_run msgbox f) = None
  /\ inputs (prepare_run msgbox f) = inputs f
  /\ step_pb (prepare_run msgbox f) = setValue 0 (step_pb f).
Proof.
  unfold prepare_run. cbv zeta.
  set (g0 := if asks f && is_accepted (result msgbox)
             then on_options (option_step CheckThemAndDiff) f else f).
  assert (I0 : inputs g0 = inputs f)
    by (unfold g0; now destruct (asks f && is_accepted (result msgbox))).
  assert (P0 : step_pb g0 = step_pb f)
    by (unfold g0; now destruct (asks f && is_accepted (result msgbox))).
  destruct (destroy_all g0) as (A & B & C & D & I & P).
  cbv zeta in A, B, C, D, I, P.
  set (g := destroyThread ExportThread _) in *. clearbody g. clearbody g0.
  change (inputs (set_curr_step 1%Z (clearOutput g))) with (inputs g).
  destruct (low_verbosity (inputs g)); cbn; rewrite A, B, C, D;
    repeat split; congruence.
Qed.

(** The state that [generateDiff] leaves: the worker of the first import and
    no other, and the bar at zero. *)
Lemma generateDiff_start msgbox ok f0 :
  proceeds msgbox f0 = true ->
  present SrcImportW (state_of (generateDiff msgbox ok f0))
  = src_database_rb (inputs f0)
  /\ present ImportW (state_of (generateDiff msgbox ok f0))
     = negb (src_database_rb (inputs f0))
  /\ present DiffW (state_of (generateDiff msgbox ok f0)) = false
  /\ present ExportW (state_of (generateDiff msgbox ok f0)) = false
  /\ step_pb (state_of (generateDiff msgbox ok f0)) = setValue 0 (step_pb f0).
Proof.
  intros H. unfold generateDiff. rewrite H. cbn [negb]. cbv zeta.
  destruct (prepare_run_start msgbox f0) as (A & B & C & D & I & P).
  rewrite I. set (g := prepare_run msgbox f0) in *. clearbody g.
  unfold present, status_of.
  destruct (src_database_rb (inputs f0)); unfold importDatabase;
    destruct ok; cbn; rewrite ?A, ?B, ?C, ?D; repeat split; assumption.
Qed.

Lemma order_inv_start msgbox ok f0 :
  proceeds msgbox f0 = true ->
  order_inv (state_of (generateDiff msgbox ok f0)).
Proof.
  intros H.
  destruct (generateDiff_start msgbox ok f0 H) as (S & I & D & _).
  split.
  - rewrite I. intros N. unfold src_settled. rewrite absent_not_in_loop.
    + split; [|reflexivity]. rewrite S.
      now destruct (src_database_rb (inputs f0)).
    + rewrite S. now destruct (src_database_rb (inputs f0)).
  - rewrite D. discriminate.
Qed.

Lemma bar_inv_start msgbox ok f0 :
  percent_bar (step_pb f0) -> proceeds msgbox f0 = true ->
  bar_inv (state_of (generateDiff msgbox ok f0)).
Proof.
  intros P H.
  destruct (generateDiff_start msgbox ok f0 H) as (_ & _ & D & E & B).
  assert (V : value (setValue 0 (step_pb f0)) = 0%Z)
    by (apply setValue_value; [assumption|lia]).
  split; rewrite B.
  - split; [now apply setValue_percent|lia].
  - intros _. rewrite D, E, V. repeat split; try lia; discriminate.
Qed.

(** *** Runs *)

Lemma run_order es :
  forall f f',
    order_inv f -> run es f = Some f' ->
    order_inv f' /\ present SrcImportW f' = present SrcImportW f.
Proof.
  induction es as [|e es IH]; intros f f' O H; cbn [run] in H.
  - apply Some_eq in H. subst f'. auto.
  - destruct (step e f) as [g|] eqn:E; [|discriminate].
    destruct (step_order _ _ _ O E) as [O' P].
    destruct (IH _ _ O' H) as [O'' P']. split; [assumption|congruence].
Qed.

Lemma run_bar es :
  forall f f',
    order_inv f -> bar_inv f -> forallb progress_in_range es = true ->
    run es f = Some f' ->
    order_inv f' /\ bar_inv f'
    /\ (value (step_pb f) <= value (step_pb f'))%Z.
Proof.
  induction es as [|e es IH]; intros f f' O B R H; cbn [run] in H.
  - apply Some_eq in H. subst f'. split; [assumption|]. split; [assumption|lia].
  - cbn [forallb] in R. apply andb_prop in R. destruct R as [R1 R2].
    destruct (step e f) as [g|] eqn:E; [|discriminate].
    destruct (step_order _ _ _ O E) as [O' _].
    destruct (step_bar _ _ _ O B R1 E) as [B' V].
    destruct (IH _ _ O' B' R2 H) as (O'' & B'' & V').
    split; [assumption|]. split; [assumption|lia].
Qed.

(** C6.  In a run that compares two databases, at every moment: the worker of
    the source import exists; the two import helpers are never at work
    together; the worker of the target import exists only when the source
    import has finished and its thread was asked to quit; and the worker of
    the diff exists only when both imports have finished and the thread of
    the target import was asked to quit. *)
Theorem importers_run_one_after_the_other :
  forall msgbox catalog_ok f0 es f,
    src_database_rb (inputs f0) = true ->
    proceeds msgbox f0 = true ->
    run es (state_of (generateDiff msgbox catalog_ok f0)) = Some f ->
    present SrcImportW f = true
    /\ working SrcImportW f && working ImportW f = false
    /\ (present ImportW f = true ->
        finished SrcImportW f = true /\ in_loop SrcImportW f = false)
    /\ (present DiffW f = true ->
        finished SrcImportW f = true /\ finished ImportW f = true
        /\ in_loop ImportW f = false).
Proof.
  intros msgbox ok f0 es f Db H R.
  destruct (generateDiff_start msgbox ok f0 H) as (S & _).
  destruct (run_order es _ _ (order_inv_start msgbox ok f0 H) R) as [[I D] P].
  rewrite S, Db in P.
  assert (St : src_settled f = true -> finished SrcImportW f = true)
    by (unfold src_settled; now rewrite P).
  split; [assumption|]. split; [|split].
  - destruct (working ImportW f) eqn:W; [|apply andb_false_r].
    destruct (I (has_status_present _ _ _ W)) as [X _]. apply St in X.
    rewrite andb_true_r. revert X. unfold finished, working, has_status.
    now destruct (status_of SrcImportW f) as [[]|].
  - intros X. destruct (I X). auto.
  - intros X. destruct (D X) as (? & ? & ?). auto.
Qed.

Lemma importers_run_one_after_the_other_witness :
  present SrcImportW db_diffing = true
  /\ working SrcImportW db_diffing && working ImportW db_diffing = false
  /\ (present ImportW db_diffing = true ->
      finished SrcImportW db_diffing = true
      /\ in_loop SrcImportW db_diffing = false)
  /\ (present DiffW db_diffing = true ->
      finished SrcImportW db_diffing = true
      /\ finished ImportW db_diffing = true
      /\ in_loop ImportW db_diffing = false).
Proof.
  apply (importers_run_one_after_the_other no_answer true sample_db_form
           db_run db_diffing);
    [reflexivity|reflexivity|vm_compute; reflexivity].
Defined.

(** In [db_diffing] the diff is at work, and the two imports have finished. *)
Example db_run_reaches_the_diff :
  working DiffW db_diffing = true
  /\ finished SrcImportW db_diffing = true
  /\ finished ImportW db_diffing = true.
Proof. vm_compute. repeat split. Qed.

(** While the source thread has not left its loop, [handleImportFinished]
    takes the finished signal of the target import for the one of the source
    import: it launches the target import once more, and no diff. *)
Example hasty_run_imports_again :
  option_map (working ImportW) (run db_hasty_run (start_of sample_db_form))
  = Some true
  /\ option_map (present DiffW) (run db_hasty_run (start_of sample_db_form))
     = Some false.
Proof. vm_compute. split; reflexivity. Qed.

(** C10.  Along a run in which the helpers report percentages and the step
    bar has the range of a percentage, no event moves the step bar backwards:
    its value after the event is at least its value before, which is at least
    the value at the start of the run.  When the event is a progress update
    that changes the value, the new value is the share that the running phase
    has reached, and it exceeds the old one. *)
Theorem step_bar_never_moves_backwards :
  forall msgbox catalog_ok f0 es e f f',
    percent_bar (step_pb f0) ->
    proceeds msgbox f0 = true ->
    forallb progress_in_range es = true -> progress_in_range e = true ->
    run es (state_of (generateDiff msgbox catalog_ok f0)) = Some f ->
    step e f = Some f' ->
    (value (step_pb (state_of (generateDiff msgbox catalog_ok f0)))
     <= value (step_pb f) <= value (step_pb f'))%Z
    /\ (forall progress msg obj_type cmd,
           e = ProgressUpdated progress msg obj_type cmd ->
           value (step_pb f') <> value (step_pb f) ->
           value (step_pb f') = progress_aux_of progress f
           /\ (value (step_pb f) < progress_aux_of progress f)%Z).
Proof.
  intros msgbox ok f0 es e f f' P H Res Re R E.
  destruct (run_bar es _ _ (order_inv_start msgbox ok f0 H)
              (bar_inv_start msgbox ok f0 P H) Res R) as (O & B & V).
  destruct (step_bar _ _ _ O B Re E) as [_ V'].
  split; [lia|].
  intros progress msg obj_type cmd -> N. cbn [step] in E.
  apply Some_eq in E. subst f'.
  now apply updateProgress_raises.
Qed.

Lemma step_bar_never_moves_backwards_witness :
  (value (step_pb (start_of sample_form))
   <= value (step_pb half_compared)
   <= value (step_pb (state_after [compared] half_compared)))%Z
  /\ (forall progress msg obj_type cmd,
         compared = ProgressUpdated progress msg obj_type cmd ->
         value (step_pb (state_after [compared] half_compared))
         <> value (step_pb half_compared) ->
         value (step_pb (state_after [compared] half_compared))
         = progress_aux_of progress half_compared
         /\ (value (step_pb half_compared)
             < progress_aux_of progress half_compared)%Z).
Proof.
  apply (step_bar_never_moves_backwards no_answer true sample_form model_run
           compared half_compared (state_after [compared] half_compared));
    [split; reflexivity|reflexivity|reflexivity|reflexivity
    |vm_compute; reflexivity|vm_compute; reflexivity].
Defined.

(** The bar of [model_run]: 0 at the start, 41 when the diff is half way (25
    for the import and a third of 50), and 58 when the diff is over. *)
Example bar_of_model_run :
  value (step_pb (start_of sample_form)) = 0%Z
  /\ value (step_pb half_compared) = 41%Z
  /\ value (step_pb (state_after [compared] half_compared)) = 58%Z.
Proof. vm_compute. repeat split. Qed.

End RunFacts.

(** ** The life of the workers *)

Module LifecycleFacts.
Import QStr Qt DiffForm Samples Lifecycle ApplyFacts RunFacts.

Lemma view_present w f : present w f = is_some (view w f).
Proof.
  unfold present, view, status_of, thread_of.
  destruct w;
    match goal with
    | |- context [option_map _ ?x] => now destruct x
    end.
Qed.

Lemma view_working w f :
  working w f = match view w f with Some (_, Working) => true | _ => false end.
Proof.
  unfold working, has_status, view, status_of, thread_of.
  destruct w;
    match goal with
    | |- context [option_map _ ?x] => destruct x as [[? [[] ? ?]]|]
    end; reflexivity.
Qed.

Lemma view_in_loop w f :
  in_loop w f
  = match view w f with Some (ThreadRunning, _) => true | _ => false end.
Proof.
  unfold in_loop, view, status_of, thread_of.
  destruct w;
    match goal with
    | |- context [option_map _ ?x] => destruct x as [[[] ?]|]
    end; reflexivity.
Qed.

Lemma view_thread_running w f :
  thread_running w f
  = match view w f with Some (t, _) => isRunning t | None => false end.
Proof.
  unfold thread_running, view, status_of, thread_of.
  destruct w;
    match goal with
    | |- context [option_map _ ?x] => destruct x as [[[] ?]|]
    end; reflexivity.
Qed.

Lemma isThreadsRunning_workers f :
  isThreadsRunning f
  = thread_running ImportW f || thread_running SrcImportW f
    || thread_running DiffW f || thread_running ExportW f.
Proof.
  unfold isThreadsRunning, thread_running, thread_of, running.
  destruct (import_w f), (src_import_w f), (diff_w f), (export_w f);
    reflexivity.
Qed.

Lemma absent_not_running w f :
  present w f = false -> thread_running w f = false.
Proof.
  rewrite view_present, view_thread_running. now destruct (view w f).
Qed.


Lemma view_createThread_other id f w :
  w <> worker_named id -> view w (createThread id f) = view w f.
Proof.
  unfold worker_named, createThread.
  destruct (Nat.eqb id SrcImportThread); [now destruct w|].
  destruct (Nat.eqb id ImportThread); [now destruct w|].
  destruct (Nat.eqb id DiffThread); now destruct w.
Qed.

Lemma present_worker_fields f :
  present SrcImportW f = is_some (src_import_w f)
  /\ present ImportW f = is_some (import_w f)
  /\ present DiffW f = is_some (diff_w f)
  /\ present ExportW f = is_some (export_w f).
Proof.
  unfold present, status_of.
  destruct (src_import_w f), (import_w f), (diff_w f), (export_w f);
    repeat split.
Qed.

(** *** [destroyThread] *)

Lemma deleted_by_cases id f :
  deleted_by id f
  = if present (worker_named id) f
    then match worker_named id with DiffW => None | w => Some w end
    else if present ExportW f then Some ExportW else None.
Proof.
  destruct (present_worker_fields f) as (P1 & P2 & P3 & P4).
  unfold deleted_by, worker_named.
  destruct id as [|[|[|id]]]; cbn [Nat.eqb SrcImportThread ImportThread
    DiffThread andb]; rewrite ?P1, ?P2, ?P3, ?P4;
    destruct (is_some (src_import_w f)), (is_some (import_w f)),
      (is_some (diff_w f)), (is_some (export_w f)); reflexivity.
Qed.

Lemma destroyThread_full_Some id f f' :
  destroyThread_full id f = Some f' -> f' = destroyThread id f.
Proof.
  unfold destroyThread_full. destruct (deleted_by id f) as [w|].
  - destruct (thread_running w f); [discriminate|]. now intros [= <-].
  - now intros [= <-].
Qed.

Lemma destroyThread_full_None id f :
  destroyThread_full id f = None
  <-> exists w, deleted_by id f = Some w /\ thread_running w f = true.
Proof.
  unfold destroyThread_full. destruct (deleted_by id f) as [w|].
  - destruct (thread_running w f) eqn:R; split.
    + intros _. now exists w.
    + reflexivity.
    + discriminate.
    + intros (w' & E & R'). injection E as <-. congruence.
  - split; [discriminate|]. now intros (w & E & _).
Qed.

(** No thread that [destroyThread] deletes is running: the call returns. *)
Lemma destroyThread_full_idle id f :
  thread_running SrcImportW f = false -> thread_running ImportW f = false ->
  thread_running ExportW f = false ->
  destroyThread_full id f = Some (destroyThread id f).
Proof.
  intros S I E. unfold destroyThread_full.
  destruct (deleted_by id f) as [w|] eqn:D; [|reflexivity].
  rewrite deleted_by_cases in D.
  assert (W : w <> DiffW).
  { intros ->. destruct (present (worker_named id) f).
    - now destruct (worker_named id).
    - now destruct (present ExportW f). }
  destruct w; try congruence; now rewrite ?S, ?I, ?E.
Qed.

Lemma thread_running_fields f :
  thread_running SrcImportW f = running (src_import_w f)
  /\ thread_running ImportW f = running (import_w f)
  /\ thread_running DiffW f = running (diff_w f)
  /\ thread_running ExportW f = running (export_w f).
Proof.
  unfold thread_running, thread_of, running.
  destruct (src_import_w f), (import_w f), (diff_w f), (export_w f);
    repeat split.
Qed.

(** A call of [destroyThread] that returns has deleted no running thread, so
    the threads that run are those that ran before, except that of the diff,
    whose pointer is set to null. *)
Lemma thread_running_destroyThread id f f' w :
  destroyThread_full id f = Some f' -> w <> DiffW ->
  thread_running w f' = thread_running w f.
Proof.
  intros H W. assert (E := destroyThread_full_Some _ _ _ H). subst f'.
  revert H. unfold destroyThread_full, deleted_by, destroyThread.
  destruct (thread_running_fields f) as (R1 & R2 & R3 & R4).
  destruct (Nat.eqb id SrcImportThread && is_some (src_import_w f)) eqn:C1.
  { rewrite R1. destruct (running (src_import_w f)) eqn:Q; [discriminate|].
    intros _. unfold thread_running, thread_of in *.
    destruct w; try reflexivity; try congruence.
    cbn. revert Q. unfold running. now destruct (src_import_w f). }
  destruct (Nat.eqb id ImportThread && is_some (import_w f)) eqn:C2.
  { rewrite R2. destruct (running (import_w f)) eqn:Q; [discriminate|].
    intros _. unfold thread_running, thread_of in *.
    destruct w; try reflexivity; try congruence.
    cbn. revert Q. unfold running. now destruct (import_w f). }
  destruct (Nat.eqb id DiffThread && is_some (diff_w f)) eqn:C3.
  { intros _. unfold thread_running, thread_of.
    destruct w; try reflexivity; congruence. }
  destruct (is_some (export_w f)) eqn:C4; [|reflexivity].
  rewrite R4. destruct (running (export_w f)) eqn:Q; [discriminate|].
  intros _. unfold thread_running, thread_of in *.
  destruct w; try reflexivity; try congruence.
  cbn. revert Q. unfold running. now destruct (export_w f).
Qed.

(** The thread of the worker of the id, or else that of the export, runs: the
    call does not return. *)
Lemma destroyThread_full_running id f :
  worker_named id <> DiffW ->
  thread_running (worker_named id) f = true ->
  destroyThread_full id f = None.
Proof.
  intros W R. apply destroyThread_full_None. exists (worker_named id).
  split; [|exact R]. rewrite deleted_by_cases.
  assert (P : present (worker_named id) f = true).
  { destruct (present (worker_named id) f) eqn:P; [reflexivity|].
    now rewrite (absent_not_running _ _ P) in R. }
  rewrite P. now destruct (worker_named id).
Qed.

(** X1.  [destroyThread] deletes the thread and the helper of one worker at
    most: of the worker named by the id when that one exists and is not the
    diff worker, whose pointers are only set to null; and of the export
    worker when the worker of the id does not exist, since the last branch
    does not look at the id.  When the thread it deletes is still running,
    the program ends there.  Otherwise it returns, and of the workers and the
    widgets of the form only the pointers of that one worker have changed.
    (The last branch also deletes the connection of the export; [Objects]
    follows the objects that are deleted.) *)
Theorem destroyThread_destroys_one_worker :
  forall id f,
    deleted_by id f
    = (if present (worker_named id) f
       then match worker_named id with DiffW => None | w => Some w end
       else if present ExportW f then Some ExportW else None)
    /\ (destroyThread_full id f = None
        <-> exists w, deleted_by id f = Some w /\ thread_running w f = true)
    /\ (forall f',
           destroyThread_full id f = Some f' ->
           present (worker_named id) f' = false
           /\ (worker_named id <> ExportW ->
               present ExportW f'
               = present ExportW f && present (worker_named id) f)
           /\ (forall w, w <> worker_named id -> w <> ExportW ->
               present w f' = present w f)
           /\ (forall w, present w f' = true -> view w f' = view w f)
           /\ (forall w, w <> DiffW ->
               thread_running w f' = thread_running w f)
           /\ without_workers f' = without_workers f).
Proof.
  intros id f. split; [apply deleted_by_cases|].
  split; [apply destroyThread_full_None|].
  intros f' H.
  assert (R := fun w => thread_running_destroyThread id f f' w H).
  apply destroyThread_full_Some in H. subst f'.
  split; [|split; [|split; [|split; [|split; [exact R|]]]]].
  all: clear R.
  all: unfold destroyThread, worker_named, view, present, status_of,
         thread_of, without_workers in *.
  all: destruct id as [|[|[|[|id]]]]; cbn [Nat.eqb SrcImportThread
         ImportThread DiffThread ExportThread andb];
       destruct (src_import_w f) as [a|] eqn:A, (import_w f) as [b|] eqn:B,
         (diff_w f) as [c|] eqn:C, (export_w f) as [d|] eqn:D; cbn;
       rewrite ?A, ?B, ?C, ?D; cbn;
       try reflexivity; try discriminate; try congruence;
       try (intros w; destruct w; cbn; rewrite ?A, ?B, ?C, ?D; cbn;
            intros; congruence).
Qed.

(** Generate is clicked right after Cancel: the thread of the import was asked
    to quit and has not left its loop, and [destroyThread] deletes it. *)
Example destroyThread_after_cancel :
  let f := cancelOperation true (start_of sample_form) in
  generate_btn f = true
  /\ view ImportW f = Some (ThreadQuitting, Canceled)
  /\ destroyThread_full ImportThread f = None.
Proof. vm_compute. repeat split. Qed.

(** *** The destructor *)

Lemma destroyThread_keeps_source id f :
  Nat.eqb id SrcImportThread = false ->
  src_import_w (destroyThread id f) = src_import_w f.
Proof.
  intros H. unfold destroyThread. rewrite H. cbn [andb].
  repeat match goal with
         | |- context [if ?c then _ else _] => destruct c
         end; reflexivity.
Qed.

(** The three calls of the destructor, when each returns. *)
Lemma destructor_Some f f' :
  destructor f = Some f' ->
  f' = destroyThread ExportThread
         (destroyThread DiffThread (destroyThread ImportThread f))
  /\ thread_running ImportW f = false
  /\ thread_running ExportW f = false.
Proof.
  unfold destructor.
  destruct (destroyThread_full ImportThread f) as [g1|] eqn:E1;
    [|discriminate].
  destruct (destroyThread_full DiffThread g1) as [g2|] eqn:E2;
    [|discriminate].
  intros E3.
  assert (R1 := fun w => thread_running_destroyThread _ _ _ w E1).
  assert (R2 := fun w => thread_running_destroyThread _ _ _ w E2).
  assert (X : thread_running ExportW g2 = false).
  { destruct (thread_running ExportW g2) eqn:Q; [|reflexivity].
    rewrite (destroyThread_full_running ExportThread g2) in E3;
      [discriminate|discriminate|exact Q]. }
  assert (I : thread_running ImportW f = false).
  { destruct (thread_running ImportW f) eqn:Q; [|reflexivity].
    rewrite (destroyThread_full_running ImportThread f) in E1;
      [discriminate|discriminate|exact Q]. }
  split.
  - rewrite (destroyThread_full_Some _ _ _ E3),
      (destroyThread_full_Some _ _ _ E2), (destroyThread_full_Some _ _ _ E1).
    reflexivity.
  - split; [exact I|].
    rewrite <- (R1 ExportW), <- (R2 ExportW) by discriminate. exact X.
Qed.

Lemma destructor_idle f :
  thread_running ImportW f = false -> thread_running ExportW f = false ->
  exists f', destructor f = Some f'.
Proof.
  intros I E. unfold destructor.
  assert (S : forall id g,
             Nat.eqb id SrcImportThread = false ->
             thread_running ImportW g = false ->
             thread_running ExportW g = false ->
             destroyThread_full id g = Some (destroyThread id g)).
  { intros id g N Ig Eg. unfold destroyThread_full.
    destruct (deleted_by id g) as [w|] eqn:D; [|reflexivity].
    unfold deleted_by in D. rewrite N in D. cbn [andb] in D.
    destruct (Nat.eqb id ImportThread && is_some (import_w g));
      [injection D as <-; now rewrite Ig|].
    destruct (Nat.eqb id DiffThread && is_some (diff_w g)); [discriminate|].
    destruct (is_some (export_w g)); [|discriminate].
    injection D as <-. now rewrite Eg. }
  rewrite (S ImportThread f eq_refl I E).
  assert (E1 := S ImportThread f eq_refl I E).
  assert (I1 := thread_running_destroyThread _ _ _ ImportW E1).
  assert (X1 := thread_running_destroyThread _ _ _ ExportW E1).
  rewrite I in I1. rewrite E in X1.
  set (g1 := destroyThread ImportThread f) in *.
  assert (E2 := S DiffThread g1 eq_refl (I1 ltac:(discriminate))
                  (X1 ltac:(discriminate))).
  rewrite E2.
  assert (I2 := thread_running_destroyThread _ _ _ ImportW E2).
  assert (X2 := thread_running_destroyThread _ _ _ ExportW E2).
  rewrite I1 in I2 by discriminate. rewrite X1 in X2 by discriminate.
  set (g2 := destroyThread DiffThread g1) in *.
  rewrite (S ExportThread g2 eq_refl (I2 ltac:(discriminate))
             (X2 ltac:(discriminate))).
  eexists. reflexivity.
Qed.

(** X2.  The destructor of the form ends the program when the thread of the
    target import or of the export is still running, and only then.
    Otherwise it returns with the pointers of the target import, of the diff
    and of the export set to null.  It never touches the worker of the source
    import: that thread and its helper stay as they are, also when the thread
    is running. *)
Theorem destructor_leaves_the_source_import :
  forall f,
    (destructor f = None
     <-> thread_running ImportW f = true \/ thread_running ExportW f = true)
    /\ (forall f',
           destructor f = Some f' ->
           present ImportW f' = false
           /\ present DiffW f' = false
           /\ present ExportW f' = false
           /\ src_import_w f' = src_import_w f
           /\ view SrcImportW f' = view SrcImportW f).
Proof.
  intros f. split.
  - split.
    + intros N.
      destruct (thread_running ImportW f) eqn:I; [now left|].
      destruct (thread_running ExportW f) eqn:E; [now right|].
      destruct (destructor_idle f I E) as [f' H]. congruence.
    + intros H. destruct (destructor f) as [f'|] eqn:D; [|reflexivity].
      destruct (destructor_Some _ _ D) as (_ & I & E).
      destruct H; congruence.
  - intros f' D. destruct (destructor_Some _ _ D) as (-> & _ & _).
    set (g1 := destroyThread ImportThread f).
    set (g2 := destroyThread DiffThread g1).
    assert (A1 : import_w g1 = None) by apply destroyThread_import.
    assert (A2 : diff_w g2 = None) by apply destroyThread_diff.
    destruct (destroyThread_fields DiffThread g1) as (_ & _ & _ & M2 & _).
    destruct (destroyThread_fields ExportThread g2)
      as (_ & _ & _ & M3 & D3 & _).
    fold g2 in M2.
    assert (S : src_import_w (destroyThread ExportThread g2)
                = src_import_w f)
      by (unfold g2, g1; now rewrite !destroyThread_keeps_source).
    destruct (present_worker_fields (destroyThread ExportThread g2))
      as (_ & -> & -> & ->).
    rewrite (M3 (M2 A1)), (D3 A2), destroyThread_export.
    split; [reflexivity|]. split; [reflexivity|]. split; [reflexivity|].
    split; [exact S|].
    unfold view, thread_of, status_of. now rewrite S.
Qed.

End LifecycleFacts.

(** ** The start of a run *)

Module StartFacts.
Import QStr Qt DiffForm Samples Lifecycle ApplyFacts RunFacts LifecycleFacts.

Lemma without_workers_destroyThread id f :
  without_workers (destroyThread id f) = without_workers f.
Proof.
  unfold destroyThread.
  repeat match goal with
         | |- context [if ?c then _ else _] => destruct c
         end; reflexivity.
Qed.

Lemma without_workers_none f :
  src_import_w f = None -> import_w f = None -> diff_w f = None ->
  export_w f = None -> without_workers f = f.
Proof.
  intros A B C D. unfold without_workers, set_export_w, set_diff_w,
    set_import_w, set_src_import_w. cbn.
  rewrite <- A at 1. rewrite <- B at 1. rewrite <- C at 1. rewrite <- D at 1.
  reflexivity.
Qed.

(** The four calls of [destroyThread] in [generateDiff] leave no worker. *)
Lemma destroy_all_eq f :
  destroyThread ExportThread
    (destroyThread DiffThread
       (destroyThread ImportThread (destroyThread SrcImportThread f)))
  = without_workers f.
Proof.
  destruct (destroy_all f) as (A & B & C & D & _). cbv zeta in A, B, C, D.
  rewrite <- (without_workers_none _ A B C D).
  now rewrite !without_workers_destroyThread.
Qed.

Lemma prepare_run_eq msgbox f :
  prepare_run msgbox f
  = let g :=
      without_workers
        (if asks f && is_accepted (result msgbox)
         then on_options (option_step CheckThemAndDiff) f else f) in
    let g := set_curr_step 1%Z (clearOutput g) in
    let g :=
      if low_verbosity (inputs g)
      then new_item (fun _ => LowVerbositySet) top_level forget g else g in
    set_total_steps (if src_model_rb (inputs g) then 3 else 4)%Z g.
Proof. unfold prepare_run. cbv zeta. now rewrite destroy_all_eq. Qed.

Lemma inputs_prepare_run msgbox f : inputs (prepare_run msgbox f) = inputs f.
Proof. now destruct (prepare_run_start msgbox f) as (_ & _ & _ & _ & ? & _). Qed.

(** The form after [prepare_run], field by field. *)
Lemma prepare_run_fields msgbox f :
  let g := prepare_run msgbox f in
  output_trw g
  = (if low_verbosity (inputs f) then [mkItem LowVerbositySet None] else [])
  /\ curr_step g = 1%Z
  /\ total_steps g = (if src_model_rb (inputs f) then 3 else 4)%Z
  /\ buttons_wgt g = buttons_wgt f /\ cancel_btn g = cancel_btn f
  /\ generate_btn g = generate_btn f /\ close_btn g = close_btn f
  /\ settings_tbw g = settings_tbw f
  /\ options g
     = (if asks f && is_accepted (result msgbox)
        then option_step CheckThemAndDiff (options f) else options f)
  /\ gen_filters_from_log_chk g = gen_filters_from_log_chk f
  /\ filtered_objs g = filtered_objs f.
Proof.
  cbv zeta. rewrite prepare_run_eq. cbv zeta.
  set (g0 := if asks f && is_accepted (result msgbox)
             then on_options (option_step CheckThemAndDiff) f else f).
  assert (I0 : inputs g0 = inputs f)
    by (unfold g0; now destruct (asks f && is_accepted (result msgbox))).
  change (inputs (set_curr_step 1%Z (clearOutput (without_workers g0))))
    with (inputs g0).
  rewrite I0.
  destruct (low_verbosity (inputs f)); cbn; rewrite ?I0;
    unfold g0; destruct (asks f && is_accepted (result msgbox));
    repeat split.
Qed.

(** [importDatabase] for one of its two ids. *)
Lemma importDatabase_fields (src ok : bool) g :
  let id := if src then SrcImportThread else ImportThread in
  let w := if src then SrcImportW else ImportW in
  let f' := state_of (importDatabase id ok g) in
  importDatabase id ok g = (if ok then Returned f' else Threw f')
  /\ view w f' = Some (if ok then (ThreadRunning, Working)
                       else (ThreadNew, Idle))
  /\ (forall w', w' <> w -> view w' f' = view w' g)
  /\ (forall w', w' <> w -> present w' f' = present w' g)
  /\ output_trw f'
     = (output_trw g
        ++ [mkItem (StepImporting (curr_step g) (total_steps g)
                      (if src then src_connection_id (inputs g)
                       else connection_id (inputs g))) None])%list
  /\ curr_step f' = curr_step g /\ total_steps f' = total_steps g
  /\ buttons_wgt f' = buttons_wgt g /\ cancel_btn f' = cancel_btn g
  /\ generate_btn f' = generate_btn g /\ close_btn f' = close_btn g
  /\ settings_tbw f' = settings_tbw g /\ options f' = options g
  /\ step_pb f' = step_pb g.
Proof.
  destruct src, ok; unfold importDatabase, view, present, status_of, thread_of;
    cbn; (repeat split; try (intros w' H; destruct w'; congruence)).
Qed.

(** *** [generateDiff] in full *)

Lemma importDatabase_full_passed id ok g :
  importDatabase_full id true ok g = importDatabase id ok g.
Proof. reflexivity. Qed.

(** [importDatabase] left at [switchToDatabase]: the worker was created and
    nothing else was done. *)
Lemma importDatabase_full_conn (src ok : bool) g :
  importDatabase_full (if src then SrcImportThread else ImportThread) false ok
    g
  = Threw (createThread (if src then SrcImportThread else ImportThread) g).
Proof. now destruct src. Qed.

Lemma destroy_all_full_Some f f' :
  destroy_all_full f = Some f' ->
  f' = destroyThread ExportThread
         (destroyThread DiffThread
            (destroyThread ImportThread (destroyThread SrcImportThread f)))
  /\ thread_running SrcImportW f = false
  /\ thread_running ImportW f = false
  /\ thread_running ExportW f = false.
Proof.
  unfold destroy_all_full.
  destruct (destroyThread_full SrcImportThread f) as [g1|] eqn:E1;
    [|discriminate].
  destruct (destroyThread_full ImportThread g1) as [g2|] eqn:E2;
    [|discriminate].
  destruct (destroyThread_full DiffThread g2) as [g3|] eqn:E3;
    [|discriminate].
  intros E4.
  assert (R1 := fun w => thread_running_destroyThread _ _ _ w E1).
  assert (R2 := fun w => thread_running_destroyThread _ _ _ w E2).
  assert (R3 := fun w => thread_running_destroyThread _ _ _ w E3).
  assert (N : forall id g,
             worker_named id <> DiffW ->
             destroyThread_full id g <> None ->
             thread_running (worker_named id) g = false).
  { intros id g W H. destruct (thread_running (worker_named id) g) eqn:Q;
      [|reflexivity].
    now rewrite (destroyThread_full_running id g W Q) in H. }
  split.
  - rewrite (destroyThread_full_Some _ _ _ E4),
      (destroyThread_full_Some _ _ _ E3), (destroyThread_full_Some _ _ _ E2),
      (destroyThread_full_Some _ _ _ E1). reflexivity.
  - split; [|split].
    + apply (N SrcImportThread f); [discriminate|congruence].
    + rewrite <- (R1 ImportW) by discriminate.
      apply (N ImportThread g1); [discriminate|congruence].
    + rewrite <- (R1 ExportW), <- (R2 ExportW), <- (R3 ExportW)
        by discriminate.
      apply (N ExportThread g3); [discriminate|congruence].
Qed.

Lemma destroy_all_full_idle f :
  thread_running SrcImportW f = false -> thread_running ImportW f = false ->
  thread_running ExportW f = false ->
  destroy_all_full f
  = Some (destroyThread ExportThread
            (destroyThread DiffThread
               (destroyThread ImportThread
                  (destroyThread SrcImportThread f)))).
Proof.
  intros S I E. unfold destroy_all_full.
  assert (E1 := destroyThread_full_idle SrcImportThread f S I E).
  rewrite E1.
  assert (R1 := fun w => thread_running_destroyThread _ _ _ w E1).
  set (g1 := destroyThread SrcImportThread f) in *.
  assert (E2 : destroyThread_full ImportThread g1
               = Some (destroyThread ImportThread g1)).
  { apply destroyThread_full_idle; rewrite R1 by discriminate; assumption. }
  rewrite E2.
  assert (R2 := fun w => thread_running_destroyThread _ _ _ w E2).
  set (g2 := destroyThread ImportThread g1) in *.
  assert (E3 : destroyThread_full DiffThread g2
               = Some (destroyThread DiffThread g2)).
  { apply destroyThread_full_idle; rewrite R2, R1 by discriminate;
      assumption. }
  rewrite E3.
  assert (R3 := fun w => thread_running_destroyThread _ _ _ w E3).
  set (g3 := destroyThread DiffThread g2) in *.
  apply destroyThread_full_idle; rewrite R3, R2, R1 by discriminate;
    assumption.
Qed.

Lemma thread_running_options g w f :
  thread_running w (on_options g f) = thread_running w f.
Proof. unfold thread_running, thread_of. now destruct w. Qed.

(** [generateDiff] in full is [generateDiff] when no running thread is
    deleted and [switchToDatabase] succeeds; when a running thread is
    deleted, the program ends. *)
Lemma generateDiff_full_cases msgbox conn_ok ok f :
  proceeds msgbox f = true ->
  generateDiff_full msgbox conn_ok ok f
  = if deletes_running f then None
    else if conn_ok then Some (generateDiff msgbox ok f)
    else Some (Threw (createThread
                        (if src_database_rb (inputs f) then SrcImportThread
                         else ImportThread) (prepare_run msgbox f))).
Proof.
  intros H. unfold generateDiff_full, generateDiff. rewrite H. cbn [negb].
  cbv zeta.
  set (g0 := if asks f && is_accepted (result msgbox)
             then on_options (option_step CheckThemAndDiff) f else f).
  assert (R : forall w, thread_running w g0 = thread_running w f).
  { intros w. unfold g0.
    destruct (asks f && is_accepted (result msgbox)); [|reflexivity].
    apply thread_running_options. }
  unfold deletes_running. rewrite <- !R.
  destruct (destroy_all_full g0) as [g|] eqn:D.
  - destruct (destroy_all_full_Some _ _ D) as (-> & -> & -> & ->).
    cbn [orb].
    transitivity
      (Some
         match
           importDatabase_full
             (if src_database_rb (inputs (prepare_run msgbox f))
              then SrcImportThread else ImportThread) conn_ok ok
             (prepare_run msgbox f)
         with
         | Threw f => Threw f
         | Returned f => Returned (lock_buttons f)
         end); [reflexivity|].
    rewrite inputs_prepare_run.
    destruct conn_ok; [reflexivity|].
    now rewrite importDatabase_full_conn.
  - destruct (thread_running SrcImportW g0) eqn:S; [reflexivity|].
    destruct (thread_running ImportW g0) eqn:I; [reflexivity|].
    destruct (thread_running ExportW g0) eqn:E; [reflexivity|].
    rewrite (destroy_all_full_idle g0 S I E) in D. discriminate.
Qed.

(** X3.  [generateDiff] starts from a clean form.  When the thread of an
    import or of the export of the run before is still running, the program
    ends in [destroyThread].  Otherwise, whatever that run has left, the
    workers are dropped and the output is cleared; then the first import is
    at work, the source import if the source is a database and the target
    import if not, and no other worker exists.  The output holds the item of
    the first step (after the note on the verbosity), and the form is locked:
    only the cancel button is enabled. *)
Theorem generateDiff_starts_from_a_clean_form :
  forall msgbox f,
    proceeds msgbox f = true ->
    (deletes_running f = true ->
     forall conn_ok catalog_ok,
       generateDiff_full msgbox conn_ok catalog_ok f = None)
    /\ (deletes_running f = false ->
        exists f',
          generateDiff_full msgbox true true f = Some (Returned f')
          /\ view (if src_database_rb (inputs f) then SrcImportW
                   else ImportW) f'
             = Some (ThreadRunning, Working)
          /\ (forall w,
                w <> (if src_database_rb (inputs f) then SrcImportW
                      else ImportW) ->
                present w f' = false)
          /\ output_trw f'
             = ((if low_verbosity (inputs f)
                 then [mkItem LowVerbositySet None] else [])
                ++ [mkItem
                      (StepImporting 1
                         (if src_model_rb (inputs f) then 3 else 4)
                         (if src_database_rb (inputs f)
                          then src_connection_id (inputs f)
                          else connection_id (inputs f))) None])%list
          /\ buttons_wgt f' = false /\ cancel_btn f' = true
          /\ generate_btn f' = false /\ close_btn f' = false
          /\ isTabEnabled (settings_tbw f') 0 = false
          /\ isTabEnabled (settings_tbw f') 1 = false
          /\ currentIndex (settings_tbw f') = 2).
Proof.
  intros msgbox f H. split.
  { intros D conn_ok ok. now rewrite generateDiff_full_cases, D. }
  intros D. rewrite generateDiff_full_cases, D by exact H.
  unfold generateDiff. rewrite H. cbn [negb]. cbv zeta.
  rewrite inputs_prepare_run.
  destruct (prepare_run_start msgbox f) as (A & B & C & D' & I & _).
  destruct (prepare_run_fields msgbox f) as (T & S & N & _).
  cbv zeta in T, S, N.
  set (g := prepare_run msgbox f) in *.
  assert (P : forall w, present w g = false).
  { intros w. destruct (present_worker_fields g) as (P1 & P2 & P3 & P4).
    destruct w; [rewrite P1, A|rewrite P2, B|rewrite P3, C|rewrite P4, D'];
      reflexivity. }
  destruct (importDatabase_fields (src_database_rb (inputs f)) true g)
    as (E & V & _ & O & Tr & S' & N' & _).
  cbv zeta in E, V, O, Tr, S', N'.
  rewrite E. eexists. split; [reflexivity|].
  set (f1 := state_of _) in *.
  split; [exact V|]. split.
  { intros w Hw. change (present w (lock_buttons f1)) with (present w f1).
    rewrite (O w Hw). apply P. }
  split.
  { change (output_trw (lock_buttons f1)) with (output_trw f1).
    rewrite Tr, T, S, N, I. reflexivity. }
  repeat split.
Qed.

Lemma generateDiff_starts_from_a_clean_form_witness :
  exists f',
    generateDiff_full no_answer true true sample_form = Some (Returned f')
    /\ view ImportW f' = Some (ThreadRunning, Working)
    /\ (forall w, w <> ImportW -> present w f' = false)
    /\ output_trw f' = [mkItem (StepImporting 1 3 "db@server") None]
    /\ buttons_wgt f' = false /\ cancel_btn f' = true
    /\ generate_btn f' = false /\ close_btn f' = false
    /\ isTabEnabled (settings_tbw f') 0 = false
    /\ isTabEnabled (settings_tbw f') 1 = false
    /\ currentIndex (settings_tbw f') = 2.
Proof.
  exact (proj2 (generateDiff_starts_from_a_clean_form no_answer sample_form
                  eq_refl) eq_refl).
Defined.

(** Generate after a run that was cancelled and whose threads have not left
    their loops: the program ends.  Once they have left, the run starts. *)
Example generateDiff_after_cancel :
  let f := cancelOperation true (start_of sample_form) in
  let f' := state_after [ThreadExited ImportW] f in
  proceeds no_answer f = true
  /\ generateDiff_full no_answer true true f = None
  /\ generateDiff_full no_answer true true f'
     = Some (generateDiff no_answer true f').
Proof. vm_compute. repeat split. Qed.



(** X5.  The question of [generateDiff] about the two options that protect
    missing objects.  Cancel leaves the form as it is and starts nothing.
    Check them and diff checks both boxes before the run, also the second one
    when it is disabled.  Diff anyway leaves the options as they are.  When
    the question is not asked, the answer plays no role. *)
Theorem generateDiff_asks_before_it_drops :
  forall ok f,
    (forall msgbox,
        asks f = true -> result msgbox = Rejected ->
        isCancelled msgbox = true ->
        generateDiff msgbox ok f = Returned f)
    /\ (forall msgbox,
           asks f = true -> result msgbox = Accepted ->
           let o := options (state_of (generateDiff msgbox ok f)) in
           checked (dont_drop_missing_objs_chk o) = true
           /\ checked (drop_missing_cols_constr_chk o) = true
           /\ OptDontDropMissingObjs (diff_options_of o) = true
           /\ OptDropMissingColsConstr (diff_options_of o) = true)
    /\ (forall msgbox,
           asks f = true -> result msgbox = Rejected ->
           isCancelled msgbox = false ->
           options (state_of (generateDiff msgbox ok f)) = options f)
    /\ (forall m1 m2,
           asks f = false ->
           generateDiff m1 ok f = generateDiff m2 ok f
           /\ options (state_of (generateDiff m1 ok f)) = options f).
Proof.
  intros ok f.
  assert (O : forall msgbox,
             proceeds msgbox f = true ->
             options (state_of (generateDiff msgbox ok f))
             = (if asks f && is_accepted (result msgbox)
                then option_step CheckThemAndDiff (options f)
                else options f)).
  { intros msgbox H. unfold generateDiff. rewrite H. cbn [negb]. cbv zeta.
    rewrite inputs_prepare_run.
    destruct (prepare_run_fields msgbox f)
      as (_ & _ & _ & _ & _ & _ & _ & _ & Op & _). cbv zeta in Op.
    destruct (importDatabase_fields (src_database_rb (inputs f)) ok
                (prepare_run msgbox f))
      as (E & _ & _ & _ & _ & _ & _ & _ & _ & _ & _ & _ & Op' & _).
    cbv zeta in E, Op'. rewrite E.
    destruct ok; cbn [state_of]; [|now rewrite Op', Op].
    change (options (lock_buttons ?x)) with (options x).
    now rewrite Op', Op. }
  split; [|split; [|split]].
  - intros msgbox A R C. unfold generateDiff, proceeds.
    now rewrite A, R, C.
  - intros msgbox A R o. subst o. rewrite O.
    + rewrite A, R. cbn [is_accepted andb option_step].
      unfold check_drop_missing_cols_constr, check_dont_drop_missing_objs.
      destruct (options f)
        as [? ? ? ? ? ? ? [c7 e7] [c8 e8]]. cbn. destruct c7; repeat split.
    + unfold proceeds. now rewrite A, R.
  - intros msgbox A R C. rewrite O.
    + now rewrite A, R.
    + unfold proceeds. now rewrite A, R, C.
  - intros m1 m2 A. split.
    + unfold generateDiff, proceeds, prepare_run. now rewrite !A.
    + rewrite O; [now rewrite A|]. unfold proceeds. now rewrite A.
Qed.

End StartFacts.

(** ** Cancelling, and what ends with it *)

Module CancelFacts.
Import QStr Qt DiffForm Samples Lifecycle ApplyFacts RunFacts LifecycleFacts.

Lemma view_cancelOperation b w f :
  view w (cancelOperation b f) = cancelled (view w f).
Proof.
  unfold view, cancelled, status_of, thread_of.
  destruct b, w; cbn;
    match goal with
    | |- context [cancel_worker _ ?x] => destruct x as [[[] [? ? ?]]|]
    end; reflexivity.
Qed.

Lemma view_finishDiff w f : view w (finishDiff f) = cancelled (view w f).
Proof. exact (view_cancelOperation false w f). Qed.

Lemma cancelled_twice v : cancelled (cancelled v) = cancelled v.
Proof. now destruct v as [[[] []]|]. Qed.

Lemma isThreadsRunning_cancelled f f' :
  (forall w, view w f' = cancelled (view w f)) ->
  isThreadsRunning f' = isThreadsRunning f.
Proof.
  intros H. rewrite !isThreadsRunning_workers, !view_thread_running, !H.
  destruct (view ImportW f) as [[[] ?]|], (view SrcImportW f) as [[[] ?]|],
    (view DiffW f) as [[[] ?]|], (view ExportW f) as [[[] ?]|]; reflexivity.
Qed.

Lemma cancelOperation_stops_what_runs_aux b f :
  (forall w, view w (cancelOperation b f) = cancelled (view w f))
  /\ isThreadsRunning (cancelOperation b f) = isThreadsRunning f
  /\ process_paused (cancelOperation b f) = false
  /\ sqlcode_txt (cancelOperation b f) = sqlcode_txt f.
Proof.
  assert (V := fun w => view_cancelOperation b w f).
  split; [exact V|]. split; [now apply isThreadsRunning_cancelled|].
  now destruct b.
Qed.

(** X6.  [cancelOperation] cancels the helper and asks the thread to quit for
    every worker whose thread runs, and leaves the other workers as they are;
    it destroys none.  After it no thread is in its loop without having been
    asked to quit, and no helper whose thread ran is at work; the threads
    still count as running until they have left.  The form is unlocked: the
    cancel button is disabled, the close button enabled, the apply button
    hidden, the pause is over and the box of the filters by date is
    unchecked.  The output gets the line of the cancellation only when the
    user cancelled. *)
Theorem cancelOperation_stops_what_runs :
  forall b f,
    let f' := cancelOperation b f in
    (forall w, view w f' = cancelled (view w f))
    /\ (forall w, present w f' = present w f)
    /\ (forall w, in_loop w f' = false)
    /\ (forall w, thread_running w f = true -> working w f' = false)
    /\ isThreadsRunning f' = isThreadsRunning f
    /\ cancel_btn f' = false /\ close_btn f' = true /\ buttons_wgt f' = true
    /\ generate_btn f' = can_generate (inputs f)
    /\ apply_on_server_btn_visible f' = false
    /\ process_paused f' = false
    /\ gen_filters_from_log_chk f' = false
    /\ output_trw f'
       = (output_trw f ++ (if b then [mkItem CancelledByUser None] else []))%list
    /\ sqlcode_txt f' = sqlcode_txt f /\ step_pb f' = step_pb f.
Proof.
  intros b f f'. subst f'.
  assert (V := fun w => view_cancelOperation b w f).
  split; [exact V|]. split.
  { intros w. rewrite !view_present, V. now destruct (view w f) as [[]|]. }
  split.
  { intros w. rewrite view_in_loop, V. now destruct (view w f) as [[[] ?]|]. }
  split.
  { intros w. rewrite view_thread_running, view_working, V.
    now destruct (view w f) as [[[] []]|]. }
  split; [now apply isThreadsRunning_cancelled|].
  destruct b; cbn; rewrite ?app_nil_r; repeat split.
Qed.

(** X7.  [loadDiffInSQLTool] cancels the operation first.  If the script is
    not stored in a file and the temporary file cannot be written, the slot
    is left by the exception and the form is not closed.  Otherwise the form
    is asked to close, and it leaves its event loop only if no thread was
    running: threads that were just asked to quit still count as running. *)
Theorem loadDiffInSQLTool_closes_an_idle_form :
  forall save_ok f,
    (store_in_file_rb (inputs f) = false -> save_ok = false ->
     loadDiffInSQLTool save_ok f = Threw (cancelOperation true f))
    /\ (store_in_file_rb (inputs f) || save_ok = true ->
        exists f',
          loadDiffInSQLTool save_ok f = Returned f'
          /\ event_loop_running f'
             = event_loop_running f && isThreadsRunning f
          /\ (forall w, view w f' = cancelled (view w f))
          /\ process_paused f' = false
          /\ sqlcode_txt f' = sqlcode_txt f).
Proof.
  intros save_ok f. unfold loadDiffInSQLTool. cbv zeta.
  change (inputs (cancelOperation true f)) with (inputs f).
  split.
  - intros -> ->. reflexivity.
  - intros H.
    replace (negb (store_in_file_rb (inputs f)) && negb save_ok) with false
      by (destruct (store_in_file_rb (inputs f)), save_ok; easy).
    eexists. split; [reflexivity|].
    destruct (cancelOperation_stops_what_runs_aux true f) as (V & R & P & S).
    unfold closeEvent, quit_event_loop. rewrite R, P.
    destruct (isThreadsRunning f); cbn [fst negb].
    + rewrite andb_true_r. repeat split; assumption.
    + rewrite andb_false_r. repeat split; assumption.
Qed.

End CancelFacts.

(** ** The export, from the confirmation to its end *)

Module ExportStepFacts.
Import QStr Qt DiffForm Samples Scenes Lifecycle ApplyFacts RunFacts
  LifecycleFacts CancelFacts.

(** [exportDiff] when the export starts. *)
Lemma exportDiff_started confirm msgbox f :
  negb confirm || is_accepted (result msgbox) = true ->
  let f' := exportDiff confirm msgbox f in
  view ExportW f' = Some (ThreadRunning, Working)
  /\ (forall w, w <> ExportW -> view w f' = view w f)
  /\ apply_conns f' = S (apply_conns f)
  /\ apply_on_server_btn f' = true
  /\ output_trw f'
     = (output_trw f
        ++ [mkItem (StepExporting (curr_step f) (total_steps f)
                      (database_cmb_text (inputs f))
                      (connection_id (inputs f))) None])%list
  /\ diff_progress f' = value (step_pb f)
  /\ close_btn f' = false
  /\ process_paused f' = process_paused f
  /\ sqlcode_txt f' = sqlcode_txt f.
Proof.
  intros H. unfold exportDiff. rewrite H. cbv zeta.
  unfold view, status_of, thread_of. cbn.
  destruct (ignore_error_codes_chk (inputs f));
    (repeat split; try (intros w Hw; destruct w; congruence)).
Qed.

(** The lambda of the apply button when the export thread runs. *)
Lemma apply_lambda_running f :
  thread_running ExportW f = true ->
  apply_lambda f = Some (set_apply_on_server_btn false f).
Proof.
  unfold thread_running, thread_of, apply_lambda. cbn.
  destruct (export_w f) as [w|]; [|discriminate]. cbn. now intros ->.
Qed.

Lemma emit_clicked_running n f :
  thread_running ExportW f = true ->
  emit_clicked n f
  = Some (match n with O => f | S _ => set_apply_on_server_btn false f end).
Proof.
  revert f. induction n as [|n IH]; intros f H; [reflexivity|].
  cbn [emit_clicked]. rewrite (apply_lambda_running f H).
  rewrite IH by exact H. now destruct n.
Qed.

(** X8.  A click on the apply button while the export waits starts the export
    once, however often [createThread] has connected the lambda of the button:
    the first run of the lambda starts the export, the others find its thread
    running and only disable the button.  The export works in a new worker,
    the lambda is connected once more, and the output gets the item of the
    export step.  The button ends enabled only when the lambda was connected
    once. *)
Theorem apply_click_starts_one_export :
  forall f,
    apply_on_server_btn f = true -> apply_on_server_btn_visible f = true ->
    present ExportW f = true -> thread_running ExportW f = false ->
    (1 <= apply_conns f)%nat ->
    exists f',
      step ApplyOnServerClicked f = Some f'
      /\ view ExportW f' = Some (ThreadRunning, Working)
      /\ (forall w, w <> ExportW -> view w f' = view w f)
      /\ apply_conns f' = S (apply_conns f)
      /\ apply_on_server_btn f' = Nat.eqb (apply_conns f) 1
      /\ output_trw f'
         = (output_trw f
            ++ [mkItem (StepExporting (curr_step f) (total_steps f)
                          (database_cmb_text (inputs f))
                          (connection_id (inputs f))) None])%list
      /\ sqlcode_txt f' = sqlcode_txt f.
Proof.
  intros f B V P R C. cbn [step]. rewrite B, V. cbn [andb].
  unfold apply_on_server_clicked.
  destruct (apply_conns f) as [|n] eqn:N; [inversion C|].
  cbn [emit_clicked].
  assert (L : apply_lambda f
              = Some (exportDiff false (mkMsg Rejected false)
                        (set_apply_on_server_btn false f))).
  { revert P R. unfold present, thread_running, status_of, thread_of,
      apply_lambda. cbn.
    destruct (export_w f) as [w|]; [|discriminate]. cbn.
    now intros _ ->. }
  rewrite L.
  destruct (exportDiff_started false (mkMsg Rejected false)
              (set_apply_on_server_btn false f) eq_refl)
    as (E1 & E2 & E3 & E4 & E5 & _ & _ & _ & E9).
  cbv zeta in E1, E2, E3, E4, E5, E9.
  set (f1 := exportDiff false _ _) in *.
  assert (R1 : thread_running ExportW f1 = true)
    by (rewrite view_thread_running, E1; reflexivity).
  rewrite (emit_clicked_running n f1 R1).
  eexists. split; [reflexivity|].
  assert (N' : apply_conns f1 = S (S n)) by (rewrite E3; cbn; now rewrite N).
  destruct n as [|n]; cbn [Nat.eqb].
  - repeat split; assumption.
  - repeat split; assumption.
Qed.

Lemma apply_click_starts_one_export_witness :
  exists f',
    step ApplyOnServerClicked paused_form = Some f'
    /\ view ExportW f' = Some (ThreadRunning, Working)
    /\ (forall w, w <> ExportW -> view w f' = view w paused_form)
    /\ apply_conns f' = S (apply_conns paused_form)
    /\ apply_on_server_btn f' = Nat.eqb (apply_conns paused_form) 1
    /\ output_trw f'
       = (output_trw paused_form
          ++ [mkItem (StepExporting (curr_step paused_form)
                        (total_steps paused_form)
                        (database_cmb_text (inputs paused_form))
                        (connection_id (inputs paused_form))) None])%list
    /\ sqlcode_txt f' = sqlcode_txt paused_form.
Proof.
  apply (apply_click_starts_one_export paused_form);
    vm_compute; first [reflexivity | lia].
Defined.


(** X9.  The confirmation of [exportDiff] answered by Cancel: the export
    worker was created and is not started, the operation is cancelled for the
    other workers, the script stays in the preview, the process is not
    paused and the apply button is hidden. *)
Theorem cancelled_confirmation_starts_nothing :
  forall f msgbox,
    result msgbox = Rejected -> isCancelled msgbox = true ->
    let f' := exportDiff true msgbox f in
    view ExportW f' = Some (ThreadNew, Idle)
    /\ (forall w, w <> ExportW -> view w f' = cancelled (view w f))
    /\ export_started f' = false
    /\ sqlcode_txt f' = sqlcode_txt f
    /\ process_paused f' = false
    /\ apply_on_server_btn_visible f' = false
    /\ cancel_btn f' = false /\ close_btn f' = true
    /\ output_trw f' = (output_trw f ++ [mkItem CancelledByUser None])%list.
Proof.
  intros f [r c] Hr Hc f'. cbn in Hr, Hc. subst r c f'.
  unfold exportDiff. cbn [negb orb is_accepted result isCancelled].
  cbv zeta. cbn iota.
  split; [rewrite view_cancelOperation; reflexivity|]. split.
  { intros w Hw. rewrite view_cancelOperation. f_equal.
    apply (view_createThread_other ExportThread). exact Hw. }
  split; [rewrite export_started_cancelOperation; reflexivity|].
  repeat split.
Qed.

Lemma cancelled_confirmation_starts_nothing_witness :
  view ExportW (exportDiff true cancel_diff diffing_form)
  = Some (ThreadNew, Idle)
  /\ view DiffW (exportDiff true cancel_diff diffing_form)
     = Some (ThreadQuitting, Canceled)
  /\ export_started (exportDiff true cancel_diff diffing_form) = false.
Proof.
  destruct (cancelled_confirmation_starts_nothing diffing_form cancel_diff
              eq_refl eq_refl) as (A & B & C & _).
  split; [exact A|]. split; [|exact C].
  rewrite (B DiffW); [reflexivity | discriminate].
Defined.


(** X10.  [handleExportFinished] asks the export thread to quit and waits for
    it.  When the list of the databases is refreshed, the diff is finished:
    the step bar goes to 100, the form is unlocked and the output gets the
    line of the end.  When the refresh fails, the slot is left before
    [finishDiff]: the thread has ended, but the form stays locked and the bar
    stays where it was.  Without an export thread the slot dereferences a
    null pointer. *)
Theorem handleExportFinished_ends_the_run :
  forall f,
    (present ExportW f = false ->
     forall list_ok, handleExportFinished list_ok f = None)
    /\ (present ExportW f = true ->
        exists f1 f2,
          handleExportFinished true f = Some (Returned f1)
          /\ handleExportFinished false f = Some (Threw f2)
          /\ thread_running ExportW f1 = false
          /\ thread_running ExportW f2 = false
          /\ step_lbl f1 = DiffEnded
          /\ step_pb f1 = setValue 100 (step_pb f)
          /\ cancel_btn f1 = false /\ close_btn f1 = true
          /\ output_trw f1 = (output_trw f ++ [mkItem DiffEnded None])%list
          /\ step_lbl f2 = step_lbl f /\ step_pb f2 = step_pb f
          /\ cancel_btn f2 = cancel_btn f /\ close_btn f2 = close_btn f
          /\ output_trw f2 = output_trw f).
Proof.
  intros f. unfold handleExportFinished, present, status_of.
  destruct (export_w f) as [[t h]|] eqn:E; cbn [is_some option_map].
  - split; [discriminate|]. intros _. eexists. eexists.
    split; [reflexivity|]. split; [reflexivity|].
    unfold thread_running, thread_of. cbn. rewrite E. cbn.
    destruct t; cbn; repeat split.
  - split; [reflexivity|discriminate].
Qed.

End ExportStepFacts.

(** ** One helper at a time *)

Module PipelineFacts.
Import QStr Qt DiffForm Samples Lifecycle ApplyFacts RunFacts LifecycleFacts.

Lemma finished_present w f : finished w f = true -> present w f = true.
Proof. apply has_status_present. Qed.

Lemma working_not_finished w f : working w f = true -> finished w f = false.
Proof.
  unfold working, finished, has_status.
  now destruct (status_of w f) as [[]|].
Qed.

Lemma working_not_settled f :
  working SrcImportW f = true -> src_settled f = false.
Proof.
  unfold working, src_settled, present, finished, has_status.
  now destruct (status_of SrcImportW f) as [[]|].
Qed.

(** Every event keeps the export behind the diff. *)
Lemma step_export_after_diff e f f' :
  order_inv f ->
  (present ExportW f = true -> finished DiffW f = true) ->
  step e f = Some f' ->
  present ExportW f' = true -> finished DiffW f' = true.
Proof.
  intros O X H.
  assert (S : same_sources f f' ->
              present ExportW f' = true -> present ExportW f = true ->
              finished DiffW f' = true).
  { intros S _ P. destruct (S DiffW) as (_ & -> & _); [discriminate|auto]. }
  destruct (quiet e) eqn:Q.
  { destruct (step_quiet e f f' Q H) as [[K _] _].
    destruct (K DiffW) as (_ & -> & _). destruct (K ExportW) as (-> & _).
    exact X. }
  destruct e; try discriminate.
  - destruct (ImportFinished_effect _ _ _ _ _ O H) as (ND & _ & PE & _).
    rewrite PE. intros P. specialize (X P). apply finished_present in X.
    congruence.
  - now destruct (DiffFinished_effect _ _ _ _ _ H) as (_ & _ & _ & _ & ? & _).
  - destruct (ExportFinished_effect _ _ _ H) as (PE & _ & SS & _).
    intros P. now apply S.
  - injection H as <-.
    destruct (same_phase_updateProgress progress msg obj_type cmd f) as [K _].
    destruct (K DiffW) as (_ & -> & _). destruct (K ExportW) as (-> & _).
    exact X.
  - destruct (ApplyOnServerClicked_effect _ _ H) as [->|(PE & _ & SS & _)];
      [exact X|].
    intros P. now apply S.
Qed.

Lemma run_export_after_diff es :
  forall f f',
    order_inv f ->
    (present ExportW f = true -> finished DiffW f = true) ->
    run es f = Some f' ->
    order_inv f' /\ (present ExportW f' = true -> finished DiffW f' = true).
Proof.
  induction es as [|e es IH]; intros f f' O X H; cbn [run] in H.
  - apply Some_eq in H. subst f'. auto.
  - destruct (step e f) as [g|] eqn:E; [|discriminate].
    destruct (step_order _ _ _ O E) as [O' _].
    exact (IH _ _ O' (step_export_after_diff _ _ _ O X E) H).
Qed.

(** X11.  Along every run, of a model or of a database, the phases follow one
    another: the worker of the diff exists only when the imports have
    finished, the worker of the export only when the diff has finished, and
    no two helpers are at work at the same time. *)
Theorem helpers_work_one_at_a_time :
  forall msgbox catalog_ok f0 es f,
    proceeds msgbox f0 = true ->
    run es (state_of (generateDiff msgbox catalog_ok f0)) = Some f ->
    (forall w w', working w f = true -> working w' f = true -> w = w')
    /\ (present DiffW f = true ->
        src_settled f = true /\ finished ImportW f = true)
    /\ (present ExportW f = true -> finished DiffW f = true).
Proof.
  intros msgbox ok f0 es f H R.
  destruct (generateDiff_start msgbox ok f0 H) as (_ & _ & _ & PE & _).
  assert (X0 : present ExportW (state_of (generateDiff msgbox ok f0)) = true ->
               finished DiffW (state_of (generateDiff msgbox ok f0)) = true)
    by (rewrite PE; discriminate).
  destruct (run_export_after_diff es _ _ (order_inv_start msgbox ok f0 H) X0 R)
    as [[I D] X].
  assert (XD : forall w, working w f = true ->
                 w <> ExportW -> present ExportW f = true -> False).
  { intros w W Hw P. specialize (X P).
    destruct (D (finished_present _ _ X)) as (S & F & _).
    destruct w; try congruence.
    - now rewrite working_not_settled in S.
    - now rewrite working_not_finished in F.
    - now rewrite working_not_finished in X. }
  assert (DI : forall w, working w f = true -> is_importer w = true ->
                 present DiffW f = true -> False).
  { intros w W Hw P. destruct (D P) as (S & F & _).
    destruct w; try discriminate.
    - now rewrite working_not_settled in S.
    - now rewrite working_not_finished in F. }
  assert (SI : working SrcImportW f = true -> present ImportW f = true ->
               False).
  { intros W P. destruct (I P) as [S _].
    now rewrite working_not_settled in S. }
  split; [|split].
  - intros w w' W W'.
    assert (P := has_status_present _ _ _ W).
    assert (P' := has_status_present _ _ _ W').
    destruct w, w'; try reflexivity; exfalso;
      first [ now apply SI
            | now apply (DI SrcImportW) | now apply (DI ImportW)
            | now apply (XD SrcImportW) | now apply (XD ImportW)
            | now apply (XD DiffW) ].
  - intros P. destruct (D P) as (? & ? & _). auto.
  - exact X.
Qed.

Lemma helpers_work_one_at_a_time_witness :
  (forall w w',
     working w half_compared = true -> working w' half_compared = true ->
     w = w')
  /\ (present DiffW half_compared = true ->
      src_settled half_compared = true
      /\ finished ImportW half_compared = true)
  /\ (present ExportW half_compared = true ->
      finished DiffW half_compared = true).
Proof.
  apply (helpers_work_one_at_a_time no_answer true sample_form model_run
           half_compared); vm_compute; reflexivity.
Defined.


End PipelineFacts.

(** ** The error codes typed by the user *)

Module ErrorCodeFacts.
Import QStr Qt DiffForm Samples Lifecycle ErrorCodes ApplyFacts RunFacts.

Lemma isSpace_blank : isSpace " " = true.
Proof. reflexivity. Qed.

Lemma word_char_not_blank c : isSpace c = false -> Ascii.eqb c " " = false.
Proof.
  intros H. destruct (Ascii.eqb c " ") eqn:E; [|reflexivity].
  apply Ascii.eqb_eq in E. subst c. discriminate.
Qed.

Lemma split_word p :
  no_space p = true -> split " " p = [p].
Proof.
  induction p as [|c p IH]; [reflexivity|]. cbn [no_space split].
  intros H. apply andb_prop in H. destruct H as [H1 H2].
  apply negb_true_iff in H1. rewrite (word_char_not_blank c H1).
  now rewrite (IH H2).
Qed.

Lemma split_word_blank p r :
  no_space p = true -> split " " (p ++ String " " r) = p :: split " " r.
Proof.
  induction p as [|c p IH]; [reflexivity|]. cbn [no_space split append].
  intros H. apply andb_prop in H. destruct H as [H1 H2].
  apply negb_true_iff in H1. rewrite (word_char_not_blank c H1).
  now rewrite (IH H2).
Qed.

Lemma no_space_app p q :
  no_space (p ++ q) = no_space p && no_space q.
Proof.
  induction p as [|c p IH]; [reflexivity|]. cbn. rewrite IH.
  now rewrite andb_assoc.
Qed.

Lemma is_code_app_char p c :
  is_code p = true -> isSpace c = false -> is_code (p ++ String c "") = true.
Proof.
  unfold is_code. intros H Hc. apply andb_prop in H. destruct H as [H1 H2].
  rewrite no_space_app, H2. cbn. rewrite Hc. cbn.
  destruct p; [discriminate|reflexivity].
Qed.

Lemma append_char p c s : (p ++ String c "") ++ s = p ++ String c s.
Proof. induction p as [|a p IH]; [reflexivity|]. cbn. now rewrite IH. Qed.

Lemma append_nil_r (p : string) : p ++ "" = p.
Proof. induction p as [|a p IH]; cbn; congruence. Qed.

(** White space before a text does not change its words. *)
Lemma Words_blank c s ws :
  isSpace c = true -> Words s ws -> Words (String c s) ws.
Proof.
  intros Hc W. destruct W as [s N|b w rest ws N C B W].
  - apply Words_end. cbn. now rewrite Hc, N.
  - change (String c (b ++ w ++ rest)) with (String c b ++ w ++ rest).
    apply Words_word; try assumption. cbn. now rewrite Hc, N.
Qed.

(** A word at the start of a text. *)
Lemma Words_first c w rest ws :
  isSpace c = false -> no_space w = true -> starts_blank rest = true ->
  Words rest ws -> Words (String c (w ++ rest)) (String c w :: ws).
Proof.
  intros Hc Nw B W.
  change (String c (w ++ rest)) with ("" ++ String c w ++ rest).
  apply Words_word; try assumption; [reflexivity|].
  unfold is_code. cbn. now rewrite Hc, Nw.
Qed.

(** [simplified] inside a word ([pending] is false) and after white space that
    follows a word ([pending] is true): the output splits into the words of
    the input. *)
Lemma simplified_from_words s :
  (exists w rest ws,
      s = w ++ rest /\ no_space w = true /\ starts_blank rest = true
      /\ Words rest ws
      /\ forall p, no_space p = true ->
                   split " " (p ++ simplified_from true false s)
                   = (p ++ w) :: ws)
  /\ (exists ws,
         Words s ws
         /\ forall p, no_space p = true ->
                      split " " (p ++ simplified_from true true s) = p :: ws).
Proof.
  induction s as [|c s [G H]].
  - split.
    + exists "", "", []. repeat split; try reflexivity.
      * now apply Words_end.
      * intros p Hp. cbn. rewrite append_nil_r. now apply split_word.
    + exists []. split; [now apply Words_end|].
      intros p Hp. cbn. rewrite append_nil_r. now apply split_word.
  - destruct G as (w & rest & ws & E & Nw & B & W & G).
    destruct H as (ws' & W' & H).
    assert (First : isSpace c = false ->
                    Words (String c s) (String c w :: ws)
                    /\ split " " (String c (simplified_from true false s))
                       = String c w :: ws).
    { intros Hc. split.
      - rewrite E. now apply Words_first.
      - change (String c (simplified_from true false s))
          with (String c "" ++ simplified_from true false s).
        rewrite G; [reflexivity|]. cbn. now rewrite Hc. }
    destruct (isSpace c) eqn:Hc.
    + split.
      * exists "", (String c s), ws'. cbn [simplified_from]. rewrite Hc.
        repeat split; try reflexivity.
        -- cbn. exact Hc.
        -- now apply Words_blank.
        -- intros p Hp. rewrite append_nil_r. now apply H.
      * exists ws'. cbn [simplified_from]. rewrite Hc.
        split; [now apply Words_blank|exact H].
    + destruct (First eq_refl) as [Wf Sf].
      split.
      * exists (String c w), rest, ws. cbn [simplified_from]. rewrite Hc.
        repeat split; try assumption.
        -- cbn. now rewrite E.
        -- cbn. now rewrite Hc, Nw.
        -- intros p Hp.
           rewrite <- (append_char p c (simplified_from true false s)),
             <- (append_char p c w). apply G.
           rewrite no_space_app, Hp. cbn. now rewrite Hc.
      * exists (String c w :: ws). cbn [simplified_from]. rewrite Hc.
        split; [exact Wf|].
        intros p Hp. rewrite (split_word_blank p _ Hp). now rewrite Sf.
Qed.

(** [simplified] and [split] give the words of the text, or the one empty
    string when the text has no word. *)
Lemma simplified_words s :
  exists ws,
    Words s ws
    /\ split " " (simplified s)
       = match ws with [] => [""] | _ :: _ => ws end.
Proof.
  unfold simplified. induction s as [|c s (ws & W & E)].
  - exists []. split; [now apply Words_end|reflexivity].
  - cbn [simplified_from]. destruct (isSpace c) eqn:Hc.
    + exists ws. split; [now apply Words_blank|exact E].
    + destruct (simplified_from_words s)
        as [(w & rest & ws' & Es & Nw & B & W' & G) _].
      exists (String c w :: ws'). split.
      * rewrite Es. now apply Words_first.
      * change (String c (simplified_from true false s))
          with (String c "" ++ simplified_from true false s).
        rewrite G; [reflexivity|]. cbn. now rewrite Hc.
Qed.

(** The words of a text are codes, and a text has one list of words. *)
Lemma Words_codes s ws : Words s ws -> forallb is_code ws = true.
Proof.
  induction 1 as [|b w rest ws N C B W IH]; [reflexivity|].
  cbn. now rewrite C, IH.
Qed.

Lemma no_word_app b s :
  no_word (b ++ s) = no_word b && no_word s.
Proof.
  induction b as [|c b IH]; [reflexivity|]. cbn. rewrite IH.
  now rewrite andb_assoc.
Qed.

Lemma is_code_has_word w : is_code w = true -> no_word w = false.
Proof.
  unfold is_code. destruct w as [|c w]; [discriminate|]. cbn.
  intros H. apply andb_prop in H. destruct H as [H _].
  apply negb_true_iff in H. now rewrite H.
Qed.

(** Two readings of a text as white space, a word and a rest agree. *)
Lemma first_word_unique b1 w1 r1 b2 w2 r2 :
  no_word b1 = true -> is_code w1 = true -> starts_blank r1 = true ->
  no_word b2 = true -> is_code w2 = true -> starts_blank r2 = true ->
  b1 ++ w1 ++ r1 = b2 ++ w2 ++ r2 -> w1 = w2 /\ r1 = r2.
Proof.
  revert b2. induction b1 as [|c b1 IH]; intros b2 N1 C1 B1 N2 C2 B2 E.
  - destruct b2 as [|c2 b2].
    + cbn in E. clear N1 N2. revert w2 C2 E.
      induction w1 as [|a w1 IHw]; intros w2 C2 E; [discriminate|].
      destruct w2 as [|a2 w2]; [discriminate|].
      cbn in E. injection E as <- E.
      unfold is_code in C1, C2. cbn in C1, C2.
      apply andb_prop in C1. destruct C1 as [Ha C1].
      apply andb_prop in C2. destruct C2 as [_ C2].
      destruct w1 as [|a1 w1], w2 as [|a3 w2].
      * cbn in E. now subst.
      * cbn in E. subst r1. cbn in B1, C2.
        apply andb_prop in C2. destruct C2 as [C2 _].
        apply negb_true_iff in C2. congruence.
      * cbn in E. subst r2. cbn in B2, C1.
        apply andb_prop in C1. destruct C1 as [C1 _].
        apply negb_true_iff in C1. congruence.
      * destruct (IHw (ltac:(unfold is_code; cbn; exact C1))
                    (String a3 w2) (ltac:(unfold is_code; cbn; exact C2)) E)
          as [-> ->]. now split.
    + exfalso. cbn in E. destruct w1 as [|a w1]; [discriminate|].
      cbn in E. injection E as -> _.
      unfold is_code in C1. cbn in C1, N2.
      apply andb_prop in C1. destruct C1 as [C1 _].
      apply andb_prop in N2. destruct N2 as [N2 _].
      apply negb_true_iff in C1. congruence.
  - destruct b2 as [|c2 b2].
    + exfalso. cbn in E. destruct w2 as [|a w2]; [discriminate|].
      cbn in E. injection E as -> _.
      unfold is_code in C2. cbn in C2, N1.
      apply andb_prop in C2. destruct C2 as [C2 _].
      apply andb_prop in N1. destruct N1 as [N1 _].
      apply negb_true_iff in C2. congruence.
    + cbn in E. injection E as _ E. cbn in N1, N2.
      apply andb_prop in N1. destruct N1 as [_ N1].
      apply andb_prop in N2. destruct N2 as [_ N2].
      now apply (IH b2).
Qed.

Lemma Words_unique s ws1 :
  Words s ws1 -> forall ws2, Words s ws2 -> ws1 = ws2.
Proof.
  induction 1 as [s N|b w rest ws N C B W IH]; intros ws2 W2.
  - inversion W2 as [|b2 w2 r2 ws' N2 C2 B2 W' E]; [reflexivity|].
    subst s. rewrite !no_word_app, (is_code_has_word _ C2) in N.
    rewrite andb_false_r in N. discriminate.
  - inversion W2 as [s' N2 E|b2 w2 r2 ws' N2 C2 B2 W' E].
    + rewrite !no_word_app, (is_code_has_word _ C) in N2.
      rewrite andb_false_r in N2. discriminate.
    + destruct (first_word_unique _ _ _ _ _ _ N2 C2 B2 N C B E) as [-> ->].
      f_equal. now apply IH.
Qed.

(** X12.  When the box of the error codes is checked and the export starts,
    the list that [exportDiff] hands to the export helper is the list of the
    words of the text, in their order: the text is made of these codes and of
    white space before, between and after them, and no other list reads the
    text so.  The exception is a text without a word: the list is then the
    one empty code. *)
Theorem typed_codes_are_the_words_of_the_text :
  forall confirm msgbox f,
    ignore_error_codes_chk (inputs f) = true ->
    negb confirm || is_accepted (result msgbox) = true ->
    exists w ws,
      export_w (exportDiff confirm msgbox f) = Some w
      /\ Words (error_codes_edt (inputs f)) ws
      /\ (forall ws', Words (error_codes_edt (inputs f)) ws' -> ws' = ws)
      /\ forallb is_code ws = true
      /\ ignored_errors (helper w)
         = match ws with [] => [""] | _ :: _ => ws end.
Proof.
  intros confirm msgbox f B H.
  destruct (simplified_words (error_codes_edt (inputs f))) as (ws & W & E).
  unfold exportDiff. rewrite H. cbv zeta.
  eexists. exists ws. split; [reflexivity|]. split; [exact W|].
  split; [intros ws' W'; now apply (Words_unique _ _ W')|].
  split; [now apply (Words_codes _ _ W)|].
  cbn. rewrite B. cbn. exact E.
Qed.

Lemma typed_codes_are_the_words_of_the_text_witness :
  error_codes_edt (inputs sample_form) = "42P07  23505 "
  /\ exists w ws,
       export_w (exportDiff false no_answer sample_form) = Some w
       /\ Words (error_codes_edt (inputs sample_form)) ws
       /\ ignored_errors (helper w) = ["42P07"; "23505"]
       /\ ignored_errors (helper w)
          = match ws with [] => [""] | _ :: _ => ws end.
Proof.
  split; [reflexivity|].
  destruct (typed_codes_are_the_words_of_the_text false no_answer sample_form
              eq_refl eq_refl) as (w & ws & E & W & _ & _ & L).
  exists w, ws. split; [exact E|]. split; [exact W|]. split; [|exact L].
  vm_compute in E. injection E as <-. reflexivity.
Defined.

End ErrorCodeFacts.

(** ** Presets *)

Module PresetFacts.
Import QStr Qt DiffForm Samples Presets.

Lemma is_true_flag b : String.eqb (flag b) AttrTrue = b.
Proof. now destruct b. Qed.

(** X13.  A preset that was saved and is selected, when the selection is not
    left by an exception of [listDatabases], gives the diff the options that
    were checked when it was saved, whatever the boxes show before the
    selection; the two options that depend on another one come back only
    together with it.  The boxes of the import and of the export come back as
    they were, except the box of the error codes: the preset does not keep
    it, it comes back checked exactly when the field of the codes was not
    empty.  When [listDatabases] throws, the selection changes neither the
    options nor the boxes. *)
Theorem saved_preset_restores_the_options :
  forall name i o w o' b',
    let conf := saved_conf name i o w in
    diff_options_of (selectPreset true (option_attribs conf) o')
    = mkDiffOptions
        (checked (keep_cluster_objs_chk o)) (checked (cascade_mode_chk o))
        (checked (force_recreation_chk o))
        (checked (force_recreation_chk o) && checked (recreate_unmod_chk o))
        (checked (keep_obj_perms_chk o)) (checked (reuse_sequences_chk o))
        (checked (preserve_db_name_chk o))
        (checked (dont_drop_missing_objs_chk o))
        (checked (dont_drop_missing_objs_chk o)
         && checked (drop_missing_cols_constr_chk o))
    /\ selectPreset_boxes true conf b'
       = mkBoxes (import_sys_objs_chk i) (import_ext_objs_chk i)
           (ignore_duplic_chk i) (ignore_errors_chk i)
           (negb (isEmpty (error_codes_edt i))) (error_codes_edt i)
    /\ selectPreset false (option_attribs conf) o' = o'
    /\ selectPreset_boxes false conf b' = b'.
Proof.
  intros name i o w o' b' conf. subst conf. split; [|split; [|split]].
  - unfold selectPreset, option_attribs, is_true, saved_conf.
    rewrite !is_true_flag.
    destruct o as [[c0 e0] [c1 e1] [c2 e2] [c3 e3] [c4 e4] [c5 e5] [c6 e6]
                   [c7 e7] [c8 e8]].
    destruct o' as [[d0 g0] [d1 g1] [d2 g2] [d3 g3] [d4 g4] [d5 g5] [d6 g6]
                    [d7 g7] [d8 g8]].
    cbn. destruct c2, c7, d2, d7; reflexivity.
  - unfold selectPreset_boxes, saved_conf. cbn [negb].
    now rewrite !is_true_flag.
  - reflexivity.
  - reflexivity.
Qed.

(** *** The name of a saved preset *)

Lemma lookup_assign_same k v m : lookup k (assign k v m) = Some v.
Proof.
  induction m as [|[k' v'] m IH]; cbn.
  - now rewrite String.eqb_refl.
  - destruct (String.compare k k') eqn:E; cbn.
    + now rewrite String.eqb_refl.
    + now rewrite String.eqb_refl.
    + destruct (String.eqb k k') eqn:Q; [|exact IH].
      apply String.eqb_eq in Q. subst k'.
      assert (A := String.compare_antisym k k). rewrite E in A.
      discriminate.
Qed.

Lemma lookup_assign_other k k' v m :
  k' <> k -> lookup k' (assign k v m) = lookup k' m.
Proof.
  intros H. apply String.eqb_neq in H.
  induction m as [|[k0 v0] m IH]; cbn.
  - now rewrite H.
  - destruct (String.compare k k0) eqn:E; cbn.
    + apply String.compare_eq_iff in E. subst k0. now rewrite H.
    + now rewrite H.
    + now rewrite IH.
Qed.

Lemma lookup_erase_same k m : lookup k (erase k m) = None.
Proof.
  induction m as [|[k' v'] m IH]; cbn; [reflexivity|].
  destruct (String.eqb k k') eqn:E; cbn; [exact IH|]. now rewrite E.
Qed.

Lemma lookup_erase_other k k' m :
  k' <> k -> lookup k' (erase k m) = lookup k' m.
Proof.
  intros H. induction m as [|[k0 v0] m IH]; cbn; [reflexivity|].
  destruct (String.eqb k k0) eqn:E; cbn.
  - apply String.eqb_eq in E. subst k0.
    apply String.eqb_neq in H. now rewrite H.
  - now rewrite IH.
Qed.

Lemma lookup_keys k m : lookup k m = None <-> ~ In k (keys m).
Proof.
  induction m as [|[k' v'] m IH]; cbn; [tauto|].
  destruct (String.eqb k k') eqn:E.
  - apply String.eqb_eq in E. subst k'. split; [discriminate|tauto].
  - apply String.eqb_neq in E. rewrite IH. split.
    + intros H [A|A]; [congruence|tauto].
    + tauto.
Qed.

Lemma hasText_In text items : hasText text items = true <-> In text items.
Proof.
  unfold hasText. rewrite existsb_exists. split.
  - intros (x & H & E). apply String.eqb_eq in E. now subst.
  - intros H. exists text. split; [assumption|apply String.eqb_refl].
Qed.

Lemma number_inj a b : number a = number b -> a = b.
Proof.
  unfold number. intros H.
  apply DecimalNat.Unsigned.to_uint_inj.
  assert (X := DecimalString.NilEmpty.usu (Nat.to_uint a)).
  rewrite H, DecimalString.NilEmpty.usu in X. congruence.
Qed.

Lemma append_inj p a b : p ++ a = p ++ b -> a = b.
Proof. induction p as [|c p IH]; cbn; [auto|]. intros H. apply IH. congruence. Qed.

Lemma append_empty p a : p ++ a = p -> a = "".
Proof.
  induction p as [|c p IH]; cbn; [auto|]. intros H. apply IH. congruence.
Qed.

Lemma number_not_empty n : number n <> "".
Proof.
  unfold number. intros H.
  assert (X := DecimalString.NilEmpty.usu (Nat.to_uint n)).
  rewrite H in X. cbn in X. injection X as X.
  assert (Y := DecimalNat.Unsigned.of_to n). rewrite <- X in Y. cbn in Y.
  subst n. discriminate.
Qed.

Lemma candidate_inj name a b : candidate name a = candidate name b -> a = b.
Proof.
  destruct a, b; cbn [candidate]; intros H; [reflexivity| | |].
  - symmetry in H. apply append_empty in H. now apply number_not_empty in H.
  - apply append_empty in H. now apply number_not_empty in H.
  - apply append_inj in H. now apply number_inj.
Qed.

(** What the loop returns: the first of the names it tries that is not in
    the combo box; it gives up only if all the names it tried are there. *)
Lemma disambiguate_spec items name fuel :
  forall idx,
    match disambiguate fuel items name idx (candidate name idx) with
    | Some r =>
        exists k,
          idx <= k <= idx + fuel /\ r = candidate name k /\ ~ In r items
          /\ forall j, idx <= j < k -> In (candidate name j) items
    | None => forall j, idx <= j <= idx + fuel -> In (candidate name j) items
    end.
Proof.
  induction fuel as [|fuel IH]; intros idx; cbn [disambiguate].
  - destruct (hasText (candidate name idx) items) eqn:E.
    + apply hasText_In in E. intros j Hj.
      replace j with idx by lia. exact E.
    + exists idx. split; [lia|]. split; [reflexivity|]. split.
      * intros H. apply hasText_In in H. congruence.
      * intros j Hj. lia.
  - destruct (hasText (candidate name idx) items) eqn:E.
    + apply hasText_In in E.
      change (name ++ number (S idx)) with (candidate name (S idx)).
      specialize (IH (S idx)).
      destruct (disambiguate fuel items name (S idx) (candidate name (S idx))).
      * destruct IH as (k & K & R & N & A). exists k.
        split; [lia|]. split; [exact R|]. split; [exact N|].
        intros j Hj. destruct (Nat.eq_dec j idx) as [->|D]; [exact E|].
        apply A. lia.
      * intros j Hj. destruct (Nat.eq_dec j idx) as [->|D]; [exact E|].
        apply IH. lia.
    + exists idx. split; [lia|]. split; [reflexivity|]. split.
      * intros H. apply hasText_In in H. congruence.
      * intros j Hj. lia.
Qed.

Lemma NoDup_map_inj {A B} (g : A -> B) l :
  (forall a b, g a = g b -> a = b) -> NoDup l -> NoDup (map g l).
Proof.
  intros Inj. induction 1 as [|x l N _ IH]; cbn; constructor; [|exact IH].
  intros H. apply in_map_iff in H. destruct H as (y & E & Hy).
  apply Inj in E. now subst y.
Qed.

(** The loop ends: among more names than the combo box has items, one is not
    in the combo box. *)
Lemma disambiguate_ends items name fuel :
  List.length items <= fuel ->
  disambiguate fuel items name 0 (candidate name 0) <> None.
Proof.
  intros L E. assert (Sp := disambiguate_spec items name fuel 0).
  rewrite E in Sp.
  assert (D : NoDup (map (candidate name) (seq 0 (S fuel)))).
  { apply NoDup_map_inj; [|apply seq_NoDup].
    intros a b. apply candidate_inj. }
  assert (I : incl (map (candidate name) (seq 0 (S fuel))) items).
  { intros x Hx. apply in_map_iff in Hx. destruct Hx as (j & <- & Hj).
    apply in_seq in Hj. apply Sp. lia. }
  apply (NoDup_incl_length D) in I. rewrite length_map, length_seq in I. lia.
Qed.

Lemma In_remove_nth {A} (d x : A) n l :
  In x l -> x <> nth n l d -> In x (remove_nth n l).
Proof.
  revert n. induction l as [|y l IH]; intros n H N; [destruct H|].
  destruct n as [|n]; cbn in *.
  - destruct H as [->|H]; [congruence|exact H].
  - destruct H as [->|H]; [now left|right; now apply IH].
Qed.

Lemma length_remove_nth {A} n (l : list A) :
  List.length (remove_nth n l) <= List.length l.
Proof.
  revert n. induction l as [|y l IH]; intros n; [destruct n; cbn; lia|].
  destruct n as [|n]; cbn; [lia|]. specialize (IH n). lia.
Qed.

Lemma keys_erase k k' m : In k' (keys (erase k m)) -> k' <> k /\ In k' (keys m).
Proof.
  induction m as [|[k0 v0] m IH]; cbn; [tauto|].
  destruct (String.eqb k k0) eqn:E.
  - intros H. destruct (IH H). tauto.
  - apply String.eqb_neq in E. cbn. intros [<-|H].
    + split; [congruence|now left].
    + destruct (IH H). tauto.
Qed.

(** The presets and the items once the edited preset is removed: every
    preset is still listed. *)
Lemma preset_to_replace_listed p :
  (forall k, In k (keys (config_params p)) ->
             In k (cmb_items (presets_cmb p))) ->
  forall k, In k (keys (snd (fst (preset_to_replace p)))) ->
            In k (snd (preset_to_replace p)).
Proof.
  intros H k. unfold preset_to_replace.
  destruct (is_adding_new_preset p); cbn [negb fst snd]; [apply H|].
  intros K. apply keys_erase in K. destruct K as [N K]. apply H in K.
  unfold removeItem, currentText, itemText in *.
  destruct (0 <=? cmb_index (presets_cmb p))%Z; [|exact K].
  now apply (In_remove_nth "").
Qed.

(** X14.  [savePreset] ends, and the name under which it stores the preset is
    the first of the typed name, the name with 1, the name with 2, ... that
    is not an item of the combo box.  When every preset is listed in the
    combo box, no preset is replaced by the one saved, except the preset that
    is edited: a new preset never takes the place of an existing one, and the
    other presets stay as they are. *)
Theorem savePreset_keeps_the_other_presets :
  forall fuel conf_of p,
    (forall k, In k (keys (config_params p)) ->
               In k (cmb_items (presets_cmb p))) ->
    List.length (cmb_items (presets_cmb p)) <= fuel ->
    exists fmt_name params idx,
      savePreset fuel conf_of p = Some (fmt_name, params)
      /\ fmt_name = candidate (fst (fst (preset_to_replace p))) idx
      /\ ~ In fmt_name (snd (preset_to_replace p))
      /\ (forall j, j < idx ->
            In (candidate (fst (fst (preset_to_replace p))) j)
              (snd (preset_to_replace p)))
      /\ lookup fmt_name params = Some (conf_of fmt_name)
      /\ (forall k,
            k <> fmt_name ->
            (is_adding_new_preset p = false ->
             k <> currentText (presets_cmb p)) ->
            lookup k params = lookup k (config_params p))
      /\ (is_adding_new_preset p = true ->
          lookup fmt_name (config_params p) = None)
      /\ (is_adding_new_preset p = false ->
          fmt_name <> currentText (presets_cmb p) ->
          lookup fmt_name (config_params p) = None
          /\ lookup (currentText (presets_cmb p)) params = None).
Proof.
  intros fuel conf_of p Listed L.
  assert (Listed' := preset_to_replace_listed p Listed).
  unfold savePreset.
  assert (Adding : is_adding_new_preset p = true ->
                   snd (fst (preset_to_replace p)) = config_params p)
    by (unfold preset_to_replace; now intros ->).
  assert (Editing : is_adding_new_preset p = false ->
                    snd (fst (preset_to_replace p))
                    = erase (currentText (presets_cmb p)) (config_params p))
    by (unfold preset_to_replace; now intros ->).
  assert (L' : List.length (snd (preset_to_replace p)) <= fuel).
  { unfold preset_to_replace, removeItem.
    destruct (is_adding_new_preset p); cbn [negb snd]; [exact L|].
    destruct (0 <=? cmb_index (presets_cmb p))%Z; [|exact L].
    eapply Nat.le_trans; [apply length_remove_nth|exact L]. }
  destruct (preset_to_replace p) as [[name params] items].
  cbn [fst snd] in *.
  assert (Sp := disambiguate_spec items name fuel 0).
  assert (E := disambiguate_ends items name fuel L').
  change (candidate name 0) with name in Sp, E.
  destruct (disambiguate fuel items name 0 name) as [fmt|]; [|congruence].
  destruct Sp as (idx & _ & R & N & A).
  exists fmt, (assign fmt (conf_of fmt) params), idx.
  assert (Free : lookup fmt params = None).
  { apply lookup_keys. intros K. apply N. now apply Listed'. }
  split; [reflexivity|]. split; [exact R|]. split; [exact N|]. split.
  { intros j Hj. apply A. lia. }
  split; [apply lookup_assign_same|]. split; [|split].
  - intros k Hk Hc. rewrite lookup_assign_other by exact Hk.
    destruct (is_adding_new_preset p).
    + now rewrite Adding.
    + rewrite Editing by reflexivity. apply lookup_erase_other. now apply Hc.
  - intros Ad. now rewrite <- (Adding Ad).
  - intros Ed Hc. rewrite (Editing Ed) in Free |- *. split.
    + now rewrite lookup_erase_other in Free.
    + rewrite lookup_assign_other by congruence. apply lookup_erase_same.
Qed.

Lemma savePreset_keeps_the_other_presets_witness :
  exists fmt_name params idx,
    savePreset 2 (fun _ => sample_preset) sample_preset_form
    = Some (fmt_name, params)
    /\ fmt_name = candidate (fst (fst (preset_to_replace sample_preset_form)))
                    idx
    /\ ~ In fmt_name (snd (preset_to_replace sample_preset_form))
    /\ (forall j, j < idx ->
          In (candidate (fst (fst (preset_to_replace sample_preset_form))) j)
            (snd (preset_to_replace sample_preset_form)))
    /\ lookup fmt_name params = Some sample_preset
    /\ (forall k,
          k <> fmt_name ->
          (is_adding_new_preset sample_preset_form = false ->
           k <> currentText (presets_cmb sample_preset_form)) ->
          lookup k params = lookup k (config_params sample_preset_form))
    /\ (is_adding_new_preset sample_preset_form = true ->
        lookup fmt_name (config_params sample_preset_form) = None)
    /\ (is_adding_new_preset sample_preset_form = false ->
        fmt_name <> currentText (presets_cmb sample_preset_form) ->
        lookup fmt_name (config_params sample_preset_form) = None
        /\ lookup (currentText (presets_cmb sample_preset_form)) params
           = None).
Proof.
  apply (savePreset_keeps_the_other_presets 2 (fun _ => sample_preset)
           sample_preset_form).
  - intros k H. exact H.
  - cbn. lia.
Defined.


End PresetFacts.

(** ** The items of the differences *)

Module DiffInfoFacts.
Import QStr Qt DiffInfos.

Section KindFacts.

Variable kind : DiffButton -> nat.
Hypothesis kind_inj : forall a b, kind a = kind b -> a = b.

Lemma button_of_Some n b : button_of kind n = Some b -> n = kind b.
Proof.
  unfold button_of.
  destruct (Nat.eqb n (kind create_tb)) eqn:E1;
    [apply Nat.eqb_eq in E1; intros H; now injection H as <-|].
  destruct (Nat.eqb n (kind drop_tb)) eqn:E2;
    [apply Nat.eqb_eq in E2; intros H; now injection H as <-|].
  destruct (Nat.eqb n (kind alter_tb)) eqn:E3;
    [apply Nat.eqb_eq in E3; intros H; now injection H as <-|].
  destruct (Nat.eqb n (kind ignore_tb)) eqn:E4;
    [apply Nat.eqb_eq in E4; intros H; now injection H as <-|].
  discriminate.
Qed.

Lemma button_of_kind b : button_of kind (kind b) = Some b.
Proof.
  destruct (button_of kind (kind b)) as [b'|] eqn:E.
  - apply button_of_Some, kind_inj in E. now subst.
  - exfalso. revert E. unfold button_of.
    destruct (Nat.eqb (kind b) (kind create_tb)) eqn:E1; [discriminate|].
    destruct (Nat.eqb (kind b) (kind drop_tb)) eqn:E2; [discriminate|].
    destruct (Nat.eqb (kind b) (kind alter_tb)) eqn:E3; [discriminate|].
    destruct (Nat.eqb (kind b) (kind ignore_tb)) eqn:E4; [discriminate|].
    destruct b; rewrite Nat.eqb_refl in *; discriminate.
Qed.

Lemma isChecked_set_button b t f b' :
  isChecked (button (set_button b t f) b')
  = if (match b, b' with
        | create_tb, create_tb | drop_tb, drop_tb | alter_tb, alter_tb
        | ignore_tb, ignore_tb => true
        | _, _ => false
        end)
    then isChecked t else isChecked (button f b').
Proof. now destruct b, b'. Qed.

Lemma filtered_add_item it f :
  filtered kind f ->
  (forall b, info_data it = Some (kind b) ->
             isHidden it = negb (isChecked (button f b))) ->
  filtered kind (add_item it f).
Proof.
  intros F H children it' b. unfold add_item.
  destruct (diff_item_children f) as [ch|] eqn:D; cbn; [|discriminate].
  intros E. injection E as <-. intros I.
  apply in_app_or in I. destruct I as [I|[<-|[]]].
  - exact (F ch it' b D I).
  - apply H.
Qed.

Lemma filtered_updateDiffInfo n msg count f f' :
  filtered kind f -> updateDiffInfo kind n msg count f = Some f' ->
  filtered kind f'.
Proof.
  intros F. unfold updateDiffInfo.
  assert (S : forall b,
             filtered kind
               (set_button b (mkTool (isChecked (button f b)) count) f)).
  { intros b ch it b' D I K. rewrite isChecked_set_button.
    cbn. rewrite (F ch it b' D I K). now destruct b, b'. }
  assert (A : forall g b,
             filtered kind g -> button_of kind n = Some b ->
             filtered kind
               (add_item (mkInfo msg (Some n) (negb (isChecked (button g b))))
                  g)).
  { intros g b G B. apply filtered_add_item; [exact G|].
    cbn. intros b' E. apply button_of_Some in B.
    injection E as E. rewrite B in E. apply kind_inj in E. now subst. }
  destruct (diff_helper f), (button_of kind n) as [b|] eqn:B,
    (low_verbosity f); cbn [negb]; cbv beta iota zeta;
    intros H; try discriminate; injection H as <-.
  all: try exact F. all: try apply S.
  all: try (apply A; [first [apply S|exact F]|reflexivity]).
  exact (A (set_button b (mkTool (isChecked (button f b)) count) f) b (S b)
           eq_refl).
Qed.

Lemma filtered_toggle btn f f' :
  filtered kind f -> toggle kind btn f = Some f' -> filtered kind f'.
Proof.
  intros F. unfold toggle, filterDiffInfos. cbn.
  destruct (diff_item_children f) as [ch|] eqn:D; [|discriminate].
  intros H. injection H as <-. intros ch' it b. cbn.
  intros E. injection E as <-. intros I K.
  apply in_map_iff in I. destruct I as (it0 & <- & I).
  destruct (Nat.eqb (toUInt it0) (kind btn)) eqn:Q.
  - cbn in K |- *. unfold toUInt in Q. rewrite K in Q.
    apply Nat.eqb_eq, kind_inj in Q. subst b. now destruct btn.
  - assert (N : b <> btn).
    { intros ->. unfold toUInt in Q. rewrite K in Q.
      now rewrite Nat.eqb_refl in Q. }
    rewrite (F ch it0 b D I K). destruct btn, b; congruence.
Qed.

Lemma filtered_step e f f' :
  filtered kind f -> info_step kind e f = Some f' -> filtered kind f'.
Proof.
  destruct e; cbn [info_step]; intros F H.
  - now apply (filtered_updateDiffInfo diff_type msg count f).
  - now apply (filtered_toggle btn f).
  - injection H as <-. apply filtered_add_item; [exact F|]. discriminate.
Qed.

(** X15.  When the four kinds of differences are distinct, the tree shows the
    differences that the buttons ask for: after every sequence of differences
    reported by the diff helper, of progress messages and of toggled buttons,
    an item of a difference below the item of the diff is hidden exactly when
    the button of its kind is not checked. *)
Theorem differences_follow_their_buttons :
  forall es f f',
    filtered kind f -> info_run kind es f = Some f' -> filtered kind f'.
Proof.
  induction es as [|e es IH]; intros f f' F H; cbn [info_run] in H.
  - now injection H as <-.
  - destruct (info_step kind e f) as [g|] eqn:E; [|discriminate].
    exact (IH _ _ (filtered_step _ _ _ F E) H).
Qed.

End KindFacts.

Lemma differences_follow_their_buttons_witness :
  info_run sample_kind sample_infos sample_info_form = Some sample_info_end
  /\ filtered sample_kind sample_info_end.
Proof.
  split; [vm_compute; reflexivity|].
  apply (differences_follow_their_buttons sample_kind) with
    (es := sample_infos) (f := sample_info_form).
  - intros [] []; cbn; intros H; first [reflexivity | discriminate H].
  - intros children it b D I. injection D as <-. destruct I.
  - vm_compute. reflexivity.
Defined.

End DiffInfoFacts.

(** ** The models that the form holds *)

Module ModelFacts.
Import Models.

Lemma same_model_eq a b : same_model a b = true <-> a = b.
Proof.
  destruct a as [[n|n]|], b as [[m|m]|]; cbn;
    rewrite ?Nat.eqb_eq; split; intros H; try discriminate;
    try congruence; try reflexivity.
Qed.

Lemma store_inv_constructed : store_inv constructed.
Proof.
  split; cbn; try tauto; try discriminate; try constructor; auto.
Qed.

Lemma store_inv_setModelWidget m s :
  store_inv s -> store_inv (setModelWidget m s).
Proof.
  intros [D O S I SN IN A L OD]. destruct m as [n|]; [|now split].
  split; cbn in *; try assumption.
  - intros H. destruct (D _ H) as (k & E & _). discriminate.
  - discriminate.
  - intros _. destruct IN as [->|(k & -> & _)]; discriminate.
  - discriminate.
  - reflexivity.
Qed.

Lemma store_inv_importDatabase is_src ok s :
  store_inv s -> store_inv (importDatabase_models is_src ok s).
Proof.
  intros [D O S I SN IN A L OD]. unfold importDatabase_models.
  destruct ok; cbn [negb]; [|now split].
  assert (Fresh : ~ In (Allocated (allocated s)) (deleted s)).
  { intros H. destruct (D _ H) as (k & E & K). injection E as E. lia. }
  destruct is_src; split; cbn in *; try assumption.
  - intros r H. destruct (D r H) as (k & E & K). exists k. split; [exact E|lia].
  - intros n E. injection E as <-. lia.
  - destruct IN as [E|(k & E & K)]; [now left|].
    right. exists k. split; [exact E|lia].
  - intros _. destruct IN as [->|(k & -> & K)]; [discriminate|].
    intros E. injection E as E. lia.
  - discriminate.
  - intros r H. destruct (D r H) as (k & E & K). exists k. split; [exact E|lia].
  - intros n E. specialize (SN n E). lia.
  - right. exists (allocated s). split; [reflexivity|lia].
  - intros N E. rewrite E in SN. specialize (SN _ eq_refl). lia.
Qed.

Ltac store_fields :=
  split; cbn in *;
  try solve [ assumption | discriminate | tauto | now left
            | constructor; assumption ].

Lemma store_inv_destroyModel d s :
  store_inv s -> store_inv (destroyModel d s).
Proof.
  intros [D O S I SN IN A L OD].
  destruct s as [l so im al de]. unfold destroyModel, delete.
  cbn in D, O, S, I, SN, IN, A, L, OD.
  assert (E : forall n, so = Some (OfDesign n) ->
                        same_model so l = true).
  { intros n H. apply same_model_eq. symmetry. now apply (OD n). }
  destruct im as [pi|];
    cbn [loaded_model source_model imported_model allocated deleted].
  - destruct IN as [X|(ki & X & Ki)]; [discriminate|]. injection X as ->.
    destruct so as [[n|n]|].
    + rewrite (E n eq_refl). cbn. store_fields.
      * intros r [<-|H]; [exists ki; now split|now apply D].
      * intros [X|X]; [discriminate|tauto].
    + assert (N : n <> ki) by (intros ->; now apply A).
      assert (Kn : n < al) by (now apply SN).
      destruct (negb (same_model (Some (Allocated n)) l) && d); cbn;
        store_fields.
      * intros r [<-|[<-|H]]; [exists n|exists ki|now apply D]; now split.
      * constructor; [|constructor; assumption].
        intros [X|X]; [congruence|tauto].
      * intros r [<-|H]; [exists ki; now split|now apply D].
      * intros [X|X]; [congruence|tauto].
    + store_fields.
      intros r [<-|H]; [exists ki; now split|now apply D].
  - destruct so as [[n|n]|].
    + rewrite (E n eq_refl). cbn. store_fields.
    + assert (Kn : n < al) by (now apply SN).
      destruct (negb (same_model (Some (Allocated n)) l) && d); cbn;
        store_fields.
      intros r [<-|H]; [exists n; now split|now apply D].
    + store_fields.
Qed.

Lemma store_inv_generateDiff m d ok s :
  store_inv s -> store_inv (generateDiff_models m d ok s).
Proof.
  intros H. unfold generateDiff_models. cbv zeta.
  apply store_inv_importDatabase.
  assert (N : imported_model (destroyModel d s) = None) by reflexivity.
  destruct (store_inv_destroyModel d s H) as [D O S I SN IN A L OD].
  set (g := destroyModel d s) in *. clearbody g.
  destruct m; [|now split].
  split; cbn [loaded_model source_model imported_model allocated deleted];
    try assumption.
  - unfold live. cbn [deleted].
    destruct (loaded_model g) as [[n|n]|] eqn:E;
      [|now destruct (L n)|exact Logic.I].
    intros X. destruct (D _ X) as (k & Q & _). discriminate.
  - intros n E. now destruct (L n).
  - rewrite N. auto.
  - reflexivity.
Qed.

Lemma store_inv_step e s : store_inv s -> store_inv (model_step e s).
Proof.
  destruct e; cbn [model_step].
  - apply store_inv_setModelWidget.
  - apply store_inv_generateDiff.
  - apply store_inv_importDatabase.
  - apply store_inv_destroyModel.
Qed.

Lemma store_inv_run es : forall s, store_inv s -> store_inv (run_models es s).
Proof.
  unfold run_models.
  induction es as [|e es IH]; intros s H; [exact H|].
  cbn [fold_left]. apply IH. now apply store_inv_step.
Qed.

(** X16.  Whatever is done to the form, from its construction on, it deletes
    only models that it has allocated itself, never the model of the design
    view, and each of them once; and its pointers to the source and to the
    imported model are null or point to a model that is not deleted. *)
Theorem form_deletes_its_own_models_once :
  forall es,
    let s := run_models es constructed in
    NoDup (deleted s)
    /\ (forall r, In r (deleted s) ->
                  exists n, r = Allocated n /\ n < allocated s)
    /\ (forall n, ~ In (OfDesign n) (deleted s))
    /\ live (source_model s) s
    /\ live (imported_model s) s.
Proof.
  intros es s.
  destruct (store_inv_run es constructed store_inv_constructed)
    as [D O S I _ _ _ _ _].
  fold s in D, O, S, I.
  split; [exact O|]. split; [exact D|]. split; [|now split].
  intros n H. destruct (D _ H) as (k & E & _). discriminate.
Qed.

End ModelFacts.

(** ** Errors and the end of the diff *)

Module EndFacts.
Import QStr Qt DiffForm Samples Scenes Lifecycle ApplyFacts RunFacts
  LifecycleFacts CancelFacts ExportStepFacts.

(** X17.  [captureThreadError], the slot of the aborted signals, never returns
    normally: it passes the error on.  Before that it has cancelled every
    worker that ran, so that no helper is left working or in its event loop,
    it has unlocked the form and it has written that the process was aborted;
    the step bar keeps its value. *)
Theorem captureThreadError_unlocks_and_throws :
  forall e f,
    exists f',
      captureThreadError e f = Threw f'
      /\ (forall w, view w f' = cancelled (view w f))
      /\ (forall w, in_loop w f' = false)
      /\ progress_lbl f' = ProcessAborted
      /\ cancel_btn f' = false /\ close_btn f' = true
      /\ buttons_wgt f' = true /\ process_paused f' = false
      /\ step_pb f' = step_pb f.
Proof.
  intros e f. eexists. split; [reflexivity|].
  assert (V : forall w,
             view w (new_item (fun _ => Formatted e) top_level forget
                       (set_progress_lbl ProcessAborted
                          (cancelOperation false f)))
             = cancelled (view w f)).
  { intros w. rewrite <- (view_cancelOperation false w f).
    unfold view. now destruct w. }
  split; [exact V|]. split.
  { intros w. rewrite view_in_loop, V.
    now destruct (view w f) as [[[] ?]|]. }
  cbn. repeat split.
Qed.

(** X18.  [saveDiffToFile] writes nothing for an empty script and finishes
    the diff at once.  For a script it adds the item of the step and sets the
    step bar to 90; if the file cannot be written the slot is left there: the
    diff is not finished, the form stays locked and no worker is touched.  If
    the file is written the diff is finished and the bar goes to 100. *)
Theorem saveDiffToFile_finishes_after_the_file :
  forall f,
    (isEmpty (sqlcode_txt f) = true ->
     forall save_ok, saveDiffToFile save_ok f = Returned (finishDiff f))
    /\ (isEmpty (sqlcode_txt f) = false ->
        exists f1 f2,
          saveDiffToFile false f = Threw f1
          /\ saveDiffToFile true f = Returned (finishDiff f1)
          /\ f2 = finishDiff f1
          /\ step_pb f1 = setValue 90 (step_pb f)
          /\ step_lbl f1 = SavingDiffToFile (file_sel_file (inputs f))
          /\ output_trw f1
             = (output_trw f
                ++ [mkItem (SavingDiffToFile (file_sel_file (inputs f)))
                      None])%list
          /\ (forall w, view w f1 = view w f)
          /\ cancel_btn f1 = cancel_btn f /\ close_btn f1 = close_btn f
          /\ buttons_wgt f1 = buttons_wgt f
          /\ step_pb f2 = setValue 100 (setValue 90 (step_pb f))
          /\ output_trw f2 = (output_trw f1 ++ [mkItem DiffEnded None])%list
          /\ cancel_btn f2 = false /\ close_btn f2 = true).
Proof.
  intros f. unfold saveDiffToFile. split.
  - intros ->. reflexivity.
  - intros ->. cbn [negb]. cbv zeta. eexists. eexists.
    split; [reflexivity|]. split; [reflexivity|]. split; [reflexivity|].
    split; [reflexivity|]. split; [reflexivity|]. split; [reflexivity|].
    split; [intros w; unfold view; now destruct w|].
    cbn. repeat split.
Qed.




End EndFacts.

(** ** The threads, helpers and connection that the form makes *)

Module ObjectFacts.
Import DiffForm Objects.

Lemma obj_inv_no_objects : obj_inv no_objects.
Proof.
  split; cbn.
  - constructor.
  - intros o [].
  - intros [] n; discriminate.
  - discriminate.
  - intros n [].
Qed.

(** A worker gets new objects. *)
Lemma obj_inv_new_worker w s s' :
  obj_inv s ->
  deleted_objs s' = deleted_objs s -> made s' = S (made s) ->
  export_conn s' = export_conn s -> ptr_of w s' = Some (made s) ->
  (forall w', w' <> w -> ptr_of w' s' = ptr_of w' s) ->
  obj_inv s'.
Proof.
  intros [I1 I2 I3 I4 I5] E M C P O.
  split; rewrite ?E, ?M, ?C.
  - exact I1.
  - intros o H. apply I2 in H. lia.
  - intros w' n H.
    assert (D : w' = w \/ w' <> w) by (destruct w, w'; auto; right; discriminate).
    destruct D as [->|D].
    + rewrite P in H. injection H as <-. split; [lia|].
      intros X. apply I2 in X. cbn in X. lia.
    + rewrite (O _ D) in H. destruct (I3 _ _ H). split; [lia|assumption].
  - intros n H. destruct (I4 _ H). split; [lia|assumption].
  - exact I5.
Qed.

Lemma obj_inv_createThread thread_id s :
  obj_inv s -> obj_inv (createThread_objects thread_id s).
Proof.
  intros I. unfold createThread_objects, new_obj.
  destruct (Nat.eqb thread_id SrcImportThread);
    [|destruct (Nat.eqb thread_id ImportThread);
      [|destruct (Nat.eqb thread_id DiffThread)]].
  - apply (obj_inv_new_worker SrcImportW s); try reflexivity; [exact I|].
    intros []; cbn; congruence.
  - apply (obj_inv_new_worker ImportW s); try reflexivity; [exact I|].
    intros []; cbn; congruence.
  - apply (obj_inv_new_worker DiffW s); try reflexivity; [exact I|].
    intros []; cbn; congruence.
  - apply (obj_inv_new_worker ExportW s); try reflexivity; [exact I|].
    intros []; cbn; congruence.
Qed.

Lemma obj_inv_new_connection s : obj_inv s -> obj_inv (new_connection s).
Proof.
  intros I. destruct I as [I1 I2 I3 I4 I5].
  unfold new_connection, new_obj. split; cbn.
  - exact I1.
  - intros o H. apply I2 in H. lia.
  - intros w n H.
    assert (H' : ptr_of w s = Some n) by (now destruct w).
    destruct (I3 _ _ H'). split; [lia|assumption].
  - intros n H. injection H as <-. split; [lia|].
    intros X. apply I2 in X. cbn in X. lia.
  - exact I5.
Qed.

(** Deleting the worker of an import or of the export and setting its pointer
    to null. *)
Lemma obj_inv_delete_worker w n s s' :
  obj_inv s -> ptr_of w s = Some n -> w <> DiffW ->
  deleted_objs s' = WorkerObj w n :: deleted_objs s ->
  made s' = made s -> export_conn s' = export_conn s ->
  ptr_of w s' = None ->
  (forall w', w' <> w -> ptr_of w' s' = ptr_of w' s) ->
  obj_inv s'.
Proof.
  intros [I1 I2 I3 I4 I5] P D E M C P' O.
  destruct (I3 _ _ P) as [L F].
  split; rewrite ?E, ?M, ?C.
  - now constructor.
  - intros o [<-|H]; [exact L|now apply I2].
  - intros w' m H.
    assert (W : w' <> w) by (intros ->; congruence).
    rewrite (O _ W) in H. destruct (I3 _ _ H) as [L' F'].
    split; [exact L'|]. intros [X|X]; [congruence|contradiction].
  - intros m H. destruct (I4 _ H) as [L' F'].
    split; [exact L'|]. intros [X|X]; [discriminate|contradiction].
  - intros m [X|X]; [congruence|exact (I5 _ X)].
Qed.

Lemma obj_inv_delete_connection n s :
  obj_inv s -> export_conn s = Some n ->
  obj_inv (set_export_conn None (delete_obj (Some (ConnectionObj n)) s)).
Proof.
  intros [I1 I2 I3 I4 I5] C. destruct (I4 _ C) as [L F].
  split; cbn.
  - now constructor.
  - intros o [<-|H]; [exact L|now apply I2].
  - intros w m H.
    assert (H' : ptr_of w s = Some m) by (now destruct w).
    destruct (I3 _ _ H') as [L' F'].
    split; [exact L'|]. intros [X|X]; [discriminate|contradiction].
  - discriminate.
  - intros m [X|X]; [discriminate|exact (I5 _ X)].
Qed.

Lemma obj_inv_destroyThread thread_id s :
  obj_inv s -> obj_inv (destroyThread_objects thread_id s).
Proof.
  intros I. unfold destroyThread_objects.
  destruct (Nat.eqb thread_id SrcImportThread && is_some (src_import_ptr s))
    eqn:E1.
  { apply andb_prop in E1. destruct E1 as [_ E1].
    destruct (src_import_ptr s) as [n|] eqn:P; [|discriminate].
    apply (obj_inv_delete_worker SrcImportW n s); try reflexivity;
      [exact I|exact P|discriminate|].
    intros []; cbn; congruence. }
  destruct (Nat.eqb thread_id ImportThread && is_some (import_ptr s)) eqn:E2.
  { apply andb_prop in E2. destruct E2 as [_ E2].
    destruct (import_ptr s) as [n|] eqn:P; [|discriminate].
    apply (obj_inv_delete_worker ImportW n s); try reflexivity;
      [exact I|exact P|discriminate|].
    intros []; cbn; congruence. }
  destruct (Nat.eqb thread_id DiffThread && is_some (diff_ptr s)) eqn:E3.
  { destruct I as [I1 I2 I3 I4 I5]. split; cbn.
    - exact I1.
    - exact I2.
    - intros w n H. apply I3. destruct w; cbn in H |- *;
        first [exact H | discriminate H].
    - exact I4.
    - exact I5. }
  destruct (export_ptr s) as [n|] eqn:P; cbn [is_some]; [|exact I].
  assert (J : obj_inv
                (if is_some (export_conn s)
                 then set_export_conn None
                        (delete_obj (option_map ConnectionObj (export_conn s))
                           s)
                 else s)
              /\ export_ptr
                   (if is_some (export_conn s)
                    then set_export_conn None
                           (delete_obj
                              (option_map ConnectionObj (export_conn s)) s)
                    else s) = Some n).
  { destruct (export_conn s) as [c|] eqn:C; cbn [is_some option_map].
    - split; [now apply obj_inv_delete_connection|exact P].
    - split; [exact I|exact P]. }
  destruct J as [J Q].
  set (s1 := if is_some (export_conn s) then _ else s) in *. clearbody s1.
  rewrite Q. cbn [option_map].
  apply (obj_inv_delete_worker ExportW n s1); try reflexivity;
    [exact J|exact Q|discriminate|].
  intros []; cbn; congruence.
Qed.

Lemma obj_inv_step e s : obj_inv s -> obj_inv (obj_step e s).
Proof.
  destruct e; cbn [obj_step].
  - apply obj_inv_createThread.
  - apply obj_inv_destroyThread.
  - apply obj_inv_new_connection.
Qed.

Lemma obj_inv_run es : forall s, obj_inv s -> obj_inv (run_objects es s).
Proof.
  unfold run_objects.
  induction es as [|e es IH]; intros s I; cbn [fold_left]; [exact I|].
  apply IH, obj_inv_step, I.
Qed.

(** The diff worker that [destroyThread] drops is not deleted. *)
Lemma destroyThread_drops_the_diff_worker n s :
  diff_ptr s = Some n ->
  let s' := destroyThread_objects DiffThread s in
  diff_ptr s' = None /\ deleted_objs s' = deleted_objs s.
Proof.
  intros P. unfold destroyThread_objects. rewrite P. cbn. split; reflexivity.
Qed.

(** X20.  Whatever threads the form creates and destroys, and whatever
    connections it makes for the export, from its construction on: it deletes
    no object twice, its pointers never point to a deleted object, and it
    never deletes a thread or a helper of the diff.  [destroyThread] sets the
    pointers of the diff to null before it deletes them, so the diff worker
    that it drops stays allocated. *)
Theorem form_never_deletes_a_diff_worker :
  forall es,
    let s := run_objects es no_objects in
    NoDup (deleted_objs s)
    /\ (forall w n, ptr_of w s = Some n -> ~ In (WorkerObj w n) (deleted_objs s))
    /\ (forall n, export_conn s = Some n ->
                  ~ In (ConnectionObj n) (deleted_objs s))
    /\ (forall n, ~ In (WorkerObj DiffW n) (deleted_objs s))
    /\ (forall n,
          diff_ptr s = Some n ->
          diff_ptr (destroyThread_objects DiffThread s) = None
          /\ deleted_objs (destroyThread_objects DiffThread s)
             = deleted_objs s).
Proof.
  intros es s.
  destruct (obj_inv_run es no_objects obj_inv_no_objects)
    as [I1 I2 I3 I4 I5]. fold s in I1, I2, I3, I4, I5.
  split; [exact I1|]. split; [intros w n H; apply (I3 _ _ H)|].
  split; [intros n H; apply (I4 _ H)|]. split; [exact I5|].
  intros n H. exact (destroyThread_drops_the_diff_worker n s H).
Qed.

End ObjectFacts.
